(** * my-pdf-editor: highlight geometry, capture, grouping, sync and export

    A shallow embedding of the highlight logic of the editor component
    (the [PDFEditorComponent] of the continuous-scroll editor), of the
    [/api/pdf-highlights] route and of the [/api/export-pdf] route, followed
    by the properties proved about them.

    Conventions of the embedding.
    - A JavaScript [number] is an exact rational ([Q]); where a computation
      can produce [NaN] the type [Js.number] adds it.  Rounding of IEEE
      doubles is outside the model.  Two numbers are compared with [==]
      ([Qeq]), the model of JavaScript's [===] on numbers.
    - A JavaScript string is the list of its UTF-16 code units.
    - React state is a record; each [setX] of the component is a function on
      that record, each handler a function from state to state.  The
      continuation of an awaited [fetch] is an event of its own, so that
      other handlers may run between a request and its response.
    - Calls into libraries that are not part of the repository (pdf-lib,
      the Supabase client, the DOM) are recorded as data: the export returns
      the list of [drawRectangle] calls it makes, the sync route the list of
      table operations it issues.  Where such a call can throw on the
      values the code hands it (the range assertions of pdf-lib's [rgb]
      and [drawRectangle]), the throw is part of the model.  What a store
      leaves open, such as the order of the rows of a select without an
      order clause, is a parameter. *)

From Stdlib Require Import QArith Qround Lqa ZArith Lia List Bool.
From Stdlib Require Import Sorted Permutation.
From Stdlib Require String Ascii.
From stdpp Require Import gmap list strings.
Import Stdlib.Strings.Ascii.
Import ListNotations.

Local Open Scope Q_scope.

(** ** JavaScript values and built-ins used by the code *)

Module Js.

Definition jsstring := list N.

(** An ASCII literal as a JavaScript string. *)
Definition str (s : String.string) : jsstring :=
  map Ascii.N_of_ascii (String.list_ascii_of_string s).

Arguments str s%_string_scope.

(** The code unit of an ASCII character. *)
Definition chr (a : Ascii.ascii) : N := Ascii.N_of_ascii a.

(** Truthiness of a possibly absent string: [undefined], [null] and the
    empty string are falsy. *)
Definition truthy (s : option jsstring) : bool :=
  match s with
  | Some (_ :: _) => true
  | _ => false
  end.

Inductive number :=
| Num (q : Q)
| NaN.

Definition num_eq (a b : number) : Prop :=
  match a, b with
  | Num x, Num y => x == y
  | NaN, NaN => True
  | _, _ => False
  end.

Definition num_div (a : number) (d : Q) : number :=
  match a with
  | Num x => Num (x / d)
  | NaN => NaN
  end.

(** [\d] without the unicode flag: the ten ASCII digits. *)
Definition isDigit (c : N) : bool := ((48 <=? c) && (c <=? 57))%N.

(** [\s]: WhiteSpace and LineTerminator code points of ECMAScript. *)
Definition isSpace (c : N) : bool :=
  ((9 <=? c) && (c <=? 13)
   || (c =? 32) || (c =? 160) || (c =? 5760)
   || (8192 <=? c) && (c <=? 8202)
   || (c =? 8232) || (c =? 8233) || (c =? 8239) || (c =? 8287)
   || (c =? 12288) || (c =? 65279))%N.

(** [[\d.]]: a digit or a full stop. *)
Definition isDigitOrDot (c : N) : bool := isDigit c || (c =? 46)%N.

(** Longest prefix whose code units satisfy [p], and the rest. *)
Fixpoint span (p : N -> bool) (s : jsstring) : jsstring * jsstring :=
  match s with
  | c :: s' =>
      if p c then let (a, b) := span p s' in (c :: a, b) else ([], s)
  | [] => ([], [])
  end.

(** Value of a run of decimal digits. *)
Definition decimal (ds : jsstring) : Z :=
  fold_left (fun acc c => (acc * 10 + (Z.of_N c - 48))%Z) ds 0%Z.

(** [parseInt(s)] for a string that starts with neither white space, a
    sign nor a [0x] prefix (the code applies it to captures of [\d+]
    only): the value of the leading digits, [NaN] when there is none. *)
Definition parseInt (s : jsstring) : number :=
  match fst (span isDigit s) with
  | [] => NaN
  | ds => Num (inject_Z (decimal ds))
  end.

(** [parseFloat(s)] for a string without leading white space, sign or
    exponent (the code applies it to captures of [[\d.]+] only): the
    longest prefix of the form [digits], [digits.digits*] or [.digits]. *)
Definition parseFloat (s : jsstring) : number :=
  let (ip, rest) := span isDigit s in
  match rest with
  | 46%N :: rest' =>
      let fp := fst (span isDigit rest') in
      match ip, fp with
      | [], [] => NaN
      | _, _ =>
          Num (inject_Z (decimal ip)
               + inject_Z (decimal fp) / inject_Z (10 ^ Z.of_nat (length fp)))
      end
  | _ =>
      match ip with
      | [] => NaN
      | _ => Num (inject_Z (decimal ip))
      end
  end.

(** [parseFloat(x.toFixed(1))] for a finite [x]: [toFixed] takes the
    integer [n] with [n / 10] closest to [|x|], the larger one on a tie,
    and keeps the sign. *)
Definition toFixed1 (x : Q) : Q :=
  if Qle_bool 0 x
  then inject_Z (Qfloor (x * 10 + 0.5)) / 10
  else - (inject_Z (Qfloor ((- x) * 10 + 0.5)) / 10).

(** [Math.max] on two finite numbers. *)
Definition max (a b : Q) : Q := if Qle_bool a b then b else a.

(** *** [Array.prototype.sort]

    The language requires the sort to be stable.  For a comparator that is
    a consistent order every stable sort returns the same array, so the
    built-in is modelled by the stable insertion sort: [x] goes in front
    of the first element it does not follow.  A [NaN] from the comparator
    counts as [+0]. *)
Section Sort.
Context {A : Type} (cmp : A -> A -> number).

Definition follows (a b : A) : bool :=
  match cmp a b with
  | Num v => negb (Qle_bool v 0)
  | NaN => false
  end.

Fixpoint insert (x : A) (l : list A) : list A :=
  match l with
  | [] => [x]
  | y :: l' => if follows x y then y :: insert x l' else x :: y :: l'
  end.

Definition sort (l : list A) : list A := fold_right insert [] l.
End Sort.

(** *** Regular expressions

    The fragment of the regular-expression language the code uses, with
    the backtracking semantics of [RegExp.prototype.exec]: literals,
    greedy repetition of a character class, greedy optional groups and
    numbered capturing groups. *)
Inductive regex :=
| Lit (c : N)
| Star (p : N -> bool)
| Plus (p : N -> bool)
| Opt (r : regex)
| Group (i : nat) (r : regex)
| Seq (r1 r2 : regex).

(** Captures: group number to captured text; a group that did not take
    part in the match is [undefined] ([None]). *)
Definition captures := nat -> option jsstring.

Definition no_captures : captures := fun _ => None.

Definition set_capture (i : nat) (v : jsstring) (c : captures) : captures :=
  fun j => if Nat.eqb i j then Some v else c j.

Section Exec.
Context {T : Type}.

(** Greedy [p*]: take as many code units as possible, give one back at
    a time while the continuation fails. *)
Fixpoint star (p : N -> bool) (s : jsstring)
  (k : jsstring -> option T) : option T :=
  match s with
  | c :: s' =>
      if p c
      then match star p s' k with
           | Some t => Some t
           | None => k s
           end
      else k s
  | [] => k []
  end.

(** Text consumed between input [s] and the remainder [s']. *)
Definition consumed (s s' : jsstring) : jsstring :=
  firstn (length s - length s') s.

Fixpoint exec_at (r : regex) (s : jsstring) (c : captures)
  (k : jsstring -> captures -> option T) : option T :=
  match r with
  | Lit a =>
      match s with
      | b :: s' => if (a =? b)%N then k s' c else None
      | [] => None
      end
  | Star p => star p s (fun s' => k s' c)
  | Plus p =>
      match s with
      | b :: s' => if p b then star p s' (fun s'' => k s'' c) else None
      | [] => None
      end
  | Opt r' =>
      match exec_at r' s c k with
      | Some t => Some t
      | None => k s c
      end
  | Group i r' =>
      exec_at r' s c (fun s' c' => k s' (set_capture i (consumed s s') c'))
  | Seq r1 r2 =>
      exec_at r1 s c (fun s' c' => exec_at r2 s' c' k)
  end.
End Exec.

(** [s.match(r)] for a regex without the global flag: the captures of the
    leftmost match, [null] when no start position matches. *)
Fixpoint regex_match (r : regex) (s : jsstring) : option captures :=
  match exec_at r s no_captures (fun _ c => Some c) with
  | Some c => Some c
  | None =>
      match s with
      | _ :: s' => regex_match r s'
      | [] => None
      end
  end.

(** A sequence of regexes, and a literal word. *)
Fixpoint seq (rs : list regex) (last : regex) : regex :=
  match rs with
  | [] => last
  | r :: rs' => Seq r (seq rs' last)
  end.

End Js.


(** ** Rectangles *)

(** [DOMRect] as returned by [getBoundingClientRect] and [getClientRects]:
    viewport coordinates in CSS pixels. *)
Module Dom.

Record DOMRect := {
  top : Q;
  left : Q;
  width : Q;
  height : Q
}.

(** [window.getSelection()]: the number of ranges, the collapsed flag, the
    client rectangles of range 0 and the selected text. *)
Record Selection := {
  rangeCount : nat;
  isCollapsed : bool;
  clientRects : list DOMRect;
  text : Js.jsstring
}.

End Dom.

(** The [HighlightRect] interface, declared with the same fields in the
    editor and in both routes: unscaled page units, top-left origin. *)
Module Rect.

Record HighlightRect := {
  top : Q;
  left : Q;
  width : Q;
  height : Q
}.

(** Field-wise numeric equality. *)
Definition eq (a b : HighlightRect) : Prop :=
  top a == top b /\ left a == left b
  /\ width a == width b /\ height a == height b.

End Rect.

(** ** The editor component *)

Module Editor.

Import Js.

Record Highlight := {
  id : jsstring;
  page_number : Z;
  rects : list Rect.HighlightRect;
  selected_text : jsstring;
  color : option jsstring
}.

Module HIGHLIGHT_COLORS.
Definition YELLOW : jsstring := str "rgba(255, 255, 0, 0.4)".
Definition RED : jsstring := str "rgba(255, 0, 0, 0.3)".
Definition BLUE : jsstring := str "rgba(0, 0, 255, 0.3)".
End HIGHLIGHT_COLORS.

Inductive FileSource :=
| FromUrl (url : jsstring)
| LocalFile (name : jsstring).

(** The [useState] cells of the component that the highlight logic reads or
    writes.  Thumbnails, the set of highlighted pages (a function of
    [highlights]), the loading and exporting flags and the load error only
    drive the display and are left out. *)
Record State := {
  file : option FileSource;
  numPages : option Z;
  pageNumber : Z;
  highlights : list Highlight;
  currentPdfId : option jsstring;
  hasUnsavedChanges : bool;
  isSyncing : bool;
  scale : Q;
  selectedHighlightColor : jsstring
}.

Definition setFile (v : option FileSource) (st : State) : State :=
  {| file := v; numPages := numPages st; pageNumber := pageNumber st;
     highlights := highlights st; currentPdfId := currentPdfId st;
     hasUnsavedChanges := hasUnsavedChanges st; isSyncing := isSyncing st;
     scale := scale st; selectedHighlightColor := selectedHighlightColor st |}.

Definition setNumPages (v : option Z) (st : State) : State :=
  {| file := file st; numPages := v; pageNumber := pageNumber st;
     highlights := highlights st; currentPdfId := currentPdfId st;
     hasUnsavedChanges := hasUnsavedChanges st; isSyncing := isSyncing st;
     scale := scale st; selectedHighlightColor := selectedHighlightColor st |}.

Definition setPageNumber (v : Z) (st : State) : State :=
  {| file := file st; numPages := numPages st; pageNumber := v;
     highlights := highlights st; currentPdfId := currentPdfId st;
     hasUnsavedChanges := hasUnsavedChanges st; isSyncing := isSyncing st;
     scale := scale st; selectedHighlightColor := selectedHighlightColor st |}.

Definition setHighlights (v : list Highlight) (st : State) : State :=
  {| file := file st; numPages := numPages st; pageNumber := pageNumber st;
     highlights := v; currentPdfId := currentPdfId st;
     hasUnsavedChanges := hasUnsavedChanges st; isSyncing := isSyncing st;
     scale := scale st; selectedHighlightColor := selectedHighlightColor st |}.

Definition setCurrentPdfId (v : option jsstring) (st : State) : State :=
  {| file := file st; numPages := numPages st; pageNumber := pageNumber st;
     highlights := highlights st; currentPdfId := v;
     hasUnsavedChanges := hasUnsavedChanges st; isSyncing := isSyncing st;
     scale := scale st; selectedHighlightColor := selectedHighlightColor st |}.

Definition setHasUnsavedChanges (v : bool) (st : State) : State :=
  {| file := file st; numPages := numPages st; pageNumber := pageNumber st;
     highlights := highlights st; currentPdfId := currentPdfId st;
     hasUnsavedChanges := v; isSyncing := isSyncing st;
     scale := scale st; selectedHighlightColor := selectedHighlightColor st |}.

Definition setIsSyncing (v : bool) (st : State) : State :=
  {| file := file st; numPages := numPages st; pageNumber := pageNumber st;
     highlights := highlights st; currentPdfId := currentPdfId st;
     hasUnsavedChanges := hasUnsavedChanges st; isSyncing := v;
     scale := scale st; selectedHighlightColor := selectedHighlightColor st |}.

(** [setScale] is always called with an updater function. *)
Definition setScale (f : Q -> Q) (st : State) : State :=
  {| file := file st; numPages := numPages st; pageNumber := pageNumber st;
     highlights := highlights st; currentPdfId := currentPdfId st;
     hasUnsavedChanges := hasUnsavedChanges st; isSyncing := isSyncing st;
     scale := f (scale st);
     selectedHighlightColor := selectedHighlightColor st |}.

Definition setSelectedHighlightColor (v : jsstring) (st : State) : State :=
  {| file := file st; numPages := numPages st; pageNumber := pageNumber st;
     highlights := highlights st; currentPdfId := currentPdfId st;
     hasUnsavedChanges := hasUnsavedChanges st; isSyncing := isSyncing st;
     scale := scale st; selectedHighlightColor := v |}.

(** The state of a freshly mounted component. *)
Definition initial : State :=
  {| file := None; numPages := None; pageNumber := 1%Z;
     highlights := []; currentPdfId := None;
     hasUnsavedChanges := false; isSyncing := false;
     scale := 1.8; selectedHighlightColor := HIGHLIGHT_COLORS.YELLOW |}.

(** *** Zoom *)

Definition zoomIn : State -> State :=
  setScale (fun s => toFixed1 (s + 0.2)).

Definition zoomOut : State -> State :=
  setScale (fun s => toFixed1 (Js.max 0.2 (s - 0.2))).

Definition resetZoom : State -> State :=
  setScale (fun _ => 1.8).

(** *** Geometry

    The body of the [clientRects.map] callback of [addHighlight]: a client
    rectangle relative to the page wrapper, divided by the zoom scale.  The
    division is Q's; it is the division of the code for every non-zero
    scale. *)
Definition toStorageRect (cr pageRect : Dom.DOMRect) (scale : Q)
  : Rect.HighlightRect :=
  {| Rect.top := (Dom.top cr - Dom.top pageRect) / scale;
     Rect.left := (Dom.left cr - Dom.left pageRect) / scale;
     Rect.width := Dom.width cr / scale;
     Rect.height := Dom.height cr / scale |}.

(** The style of a highlight overlay: every field times the scale, in
    pixels relative to the page wrapper (the overlay is positioned
    [absolute] inside the wrapper, which is positioned [relative]). *)
Definition toScreenRect (rect : Rect.HighlightRect) (scale : Q)
  : Rect.HighlightRect :=
  {| Rect.top := Rect.top rect * scale;
     Rect.left := Rect.left rect * scale;
     Rect.width := Rect.width rect * scale;
     Rect.height := Rect.height rect * scale |}.

(** *** Capture *)

(** The predicate of the [every] call in [addHighlight]. *)
Definition degenerate (r : Rect.HighlightRect) : bool :=
  Qeq_bool (Rect.width r) 0 || Qeq_bool (Rect.height r) 0.

(** [addHighlight].  The environment supplies the selection
    ([window.getSelection()], possibly [null]), the bounding rectangle of
    [pageRefs.current[pageNumber]] when that ref is set, and the identifier
    built from the clock and the random generator.  The boolean of the
    result tells whether [selection.removeAllRanges()] was called. *)
Definition addHighlight (selection : option Dom.Selection)
  (pageWrapperDiv : option Dom.DOMRect) (newId : jsstring) (st : State)
  : State * bool :=
  match selection with
  | None => (st, false)
  | Some sel =>
      if Nat.eqb (Dom.rangeCount sel) 0 || Dom.isCollapsed sel
      then (st, false)
      else
        match pageWrapperDiv with
        | None => (st, false)
        | Some pageRect =>
            let newHighlightRects :=
              map (fun cr => toStorageRect cr pageRect (scale st))
                  (Dom.clientRects sel) in
            if Nat.eqb (length newHighlightRects) 0
               || forallb degenerate newHighlightRects
            then (st, true)
            else
              let newHighlight :=
                {| id := newId;
                   page_number := pageNumber st;
                   rects := newHighlightRects;
                   selected_text := Dom.text sel;
                   color := Some (selectedHighlightColor st) |} in
              let updatedHighlights := highlights st ++ [newHighlight] in
              (setHasUnsavedChanges true (setHighlights updatedHighlights st),
               true)
        end
  end.

(** Equality test of two strings, [===]. *)
Definition str_eqb (a b : jsstring) : bool := bool_decide (a = b).

Definition handleDeleteHighlight (highlightIdToDelete : jsstring)
  (st : State) : State :=
  let updatedHighlights :=
    List.filter (fun h => negb (str_eqb (id h) highlightIdToDelete))
                (highlights st) in
  setHasUnsavedChanges true (setHighlights updatedHighlights st).

(** *** Save and load *)

(** Body of the POST request of [handleSaveHighlights]. *)
Record SaveRequest := {
  req_pdfId : jsstring;
  req_highlights : list Highlight
}.

(** How the awaited [fetch] of a save ends: a response with its [ok] flag,
    or a rejection (network error). *)
Inductive SaveOutcome :=
| SaveResponded (ok : bool)
| SaveRejected.

(** [handleSaveHighlights] up to its [await]: the two guards, then
    [setIsSyncing(true)] and the request. *)
Definition handleSaveHighlights (st : State) : State * option SaveRequest :=
  match currentPdfId st with
  | Some (c :: pdfId) =>
      if negb (hasUnsavedChanges st) then (st, None)
      else
        let payloadHighlights := map (fun h => h) (highlights st) in
        (setIsSyncing true st,
         Some {| req_pdfId := c :: pdfId;
                 req_highlights := payloadHighlights |})
  | _ => (st, None)
  end.

(** The rest of [handleSaveHighlights], once the request has settled:
    the [response.ok] branch, the [else] and [catch] branches (alerts only)
    and the [finally] block. *)
Definition saveSettled (o : SaveOutcome) (st : State) : State :=
  let st' :=
    match o with
    | SaveResponded true => setHasUnsavedChanges false st
    | SaveResponded false => st
    | SaveRejected => st
    end in
  setIsSyncing false st'.

(** How the [fetch] of [loadHighlightsForPdf] ends; [data_highlights] is
    the [highlights] member of the JSON body, when there is one. *)
Inductive LoadOutcome :=
| LoadResponded (ok : bool) (data_highlights : option (list Highlight))
| LoadRejected.

(** The part of [loadHighlightsForPdf] after its [await]. *)
Definition loadSettled (o : LoadOutcome) (st : State) : State :=
  match o with
  | LoadResponded true data_highlights =>
      let loadedHighlights := default [] data_highlights in
      setHasUnsavedChanges false (setHighlights loadedHighlights st)
  | LoadResponded false _ =>
      setHasUnsavedChanges false (setHighlights [] st)
  | LoadRejected =>
      setHasUnsavedChanges false (setHighlights [] st)
  end.

(** *** Opening a document *)

(** The effect on [initialFileUrl] and [initialPdfId]. *)
Definition propsEffect (initialFileUrl initialPdfId : option jsstring)
  (st : State) : State :=
  match initialFileUrl with
  | Some (c :: url) =>
      if truthy initialPdfId
      then setHasUnsavedChanges false
             (setHighlights []
                (setCurrentPdfId initialPdfId
                   (setFile (Some (FromUrl (c :: url))) st)))
      else setHasUnsavedChanges false
             (setPageNumber 1%Z
                (setNumPages None
                   (setHighlights []
                      (setCurrentPdfId None (setFile None st)))))
  | _ =>
      setHasUnsavedChanges false
        (setPageNumber 1%Z
           (setNumPages None
              (setHighlights [] (setCurrentPdfId None (setFile None st)))))
  end.

(** [handleFileChange]; [uploadedFile] is [event.target.files?.[0]]. *)
Definition handleFileChange (uploadedFile : option jsstring) (st : State)
  : State :=
  match uploadedFile with
  | Some name =>
      setHasUnsavedChanges false
        (setHighlights []
           (setCurrentPdfId None (setFile (Some (LocalFile name)) st)))
  | None => st
  end.

(** [onDocumentLoadSuccess].  With a document id it starts
    [loadHighlightsForPdf], whose continuation is [loadSettled]; the
    boolean of the result tells whether that request was sent. *)
Definition onDocumentLoadSuccess (pdf_numPages : Z) (st : State)
  : State * bool :=
  let st' := setPageNumber 1%Z (setNumPages (Some pdf_numPages) st) in
  if truthy (currentPdfId st)
  then (st', true)
  else (setHasUnsavedChanges false (setHighlights [] st'), false).

Definition onDocumentLoadError (st : State) : State :=
  setNumPages None (setCurrentPdfId None (setFile None st)).

(** *** The component as a transition system *)

Inductive Swatch := Yellow | Red | Blue.

Definition swatchColor (s : Swatch) : jsstring :=
  match s with
  | Yellow => HIGHLIGHT_COLORS.YELLOW
  | Red => HIGHLIGHT_COLORS.RED
  | Blue => HIGHLIGHT_COLORS.BLUE
  end.

Inductive Event :=
| PropsChanged (initialFileUrl initialPdfId : option jsstring)
| FileChosen (uploadedFile : option jsstring)
| DocumentLoaded (pdf_numPages : Z)
| DocumentFailed
| LoadSettled (o : LoadOutcome)
| PageObserved (pageNum : Z)
| ColorPicked (s : Swatch)
| ZoomIn
| ZoomOut
| ResetZoom
| AddHighlight (selection : option Dom.Selection)
    (pageWrapperDiv : option Dom.DOMRect) (newId : jsstring)
| DeleteHighlight (highlightIdToDelete : jsstring)
| SaveClicked
| SaveSettled (o : SaveOutcome).

Definition step (st : State) (e : Event) : State :=
  match e with
  | PropsChanged u i => propsEffect u i st
  | FileChosen f => handleFileChange f st
  | DocumentLoaded n => fst (onDocumentLoadSuccess n st)
  | DocumentFailed => onDocumentLoadError st
  | LoadSettled o => loadSettled o st
  | PageObserved n => setPageNumber n st
  | ColorPicked s => setSelectedHighlightColor (swatchColor s) st
  | ZoomIn => zoomIn st
  | ZoomOut => zoomOut st
  | ResetZoom => resetZoom st
  | AddHighlight sel div newId => fst (addHighlight sel div newId st)
  | DeleteHighlight i => handleDeleteHighlight i st
  | SaveClicked => fst (handleSaveHighlights st)
  | SaveSettled o => saveSettled o st
  end.

Definition run (st : State) (es : list Event) : State := fold_left step es st.

(** *** Grouping for the side bar *)

(** The comparator [(a, b) => a.rects[0]?.top - b.rects[0]?.top]: with an
    empty [rects] the difference involves [undefined] and is [NaN]. *)
Definition byFirstTop (a b : Highlight) : number :=
  match rects a, rects b with
  | ra :: _, rb :: _ => Num (Rect.top ra - Rect.top rb)
  | _, _ => NaN
  end.

(** The [reduce] over [highlights]: the accumulator object maps a page
    number to the array of its highlights, re-sorted after every push. *)
Definition allHighlightsGroupedByPage (hs : list Highlight)
  : gmap Z (list Highlight) :=
  fold_left
    (fun acc highlight =>
       let pageKey := page_number highlight in
       let pushed := default [] (acc !! pageKey) ++ [highlight] in
       <[pageKey := Js.sort byFirstTop pushed]> acc)
    hs ∅.

(** The comparator [(a, b) => a - b] on page numbers. *)
Definition numeric (a b : Z) : number := Num (inject_Z a - inject_Z b).

(** [Object.keys(...).map(Number).sort((a, b) => a - b)].  The order in
    which [Object.keys] lists the keys is whatever the map enumerates. *)
Definition pagesWithHighlights (hs : list Highlight) : list Z :=
  Js.sort numeric
    (map fst (map_to_list (allHighlightsGroupedByPage hs))).

(** What the side bar renders: for every page of [pagesWithHighlights], in
    order, the array stored under that page. *)
Definition groupByPage (hs : list Highlight) : list (Z * list Highlight) :=
  map (fun pn => (pn, default [] (allHighlightsGroupedByPage hs !! pn)))
    (pagesWithHighlights hs).

(** *** Navigation *)

(** [goToPage]: the page whose wrapper is scrolled into view, if any.
    [pageRefs] gives the [offsetTop] of the wrapper of a page when
    [pageRefs.current] holds an element for it. *)
Definition goToPage (pageRefs : Z -> option Q) (num : Z) (st : State)
  : option Z :=
  if (1 <=? num)%Z && (num <=? default 0%Z (numPages st))%Z
  then match pageRefs num with
       | Some _ => Some num
       | None => None
       end
  else None.

Definition goToPrevPage (pageRefs : Z -> option Q) (st : State) : option Z :=
  goToPage pageRefs (pageNumber st - 1) st.

Definition goToNextPage (pageRefs : Z -> option Q) (st : State) : option Z :=
  goToPage pageRefs (pageNumber st + 1) st.

(** What a click on a side-bar entry scrolls: the container to a position,
    or a page wrapper into view. *)
Inductive Scroll :=
| ScrollTo (top : Q)
| IntoView (page : Z).

(** [handleHighlightClick]; [scrollContainer] tells whether
    [pageContainerRef.current] is set. *)
Definition handleHighlightClick (scrollContainer : bool)
  (pageRefs : Z -> option Q) (highlight : Highlight) (st : State)
  : option Scroll :=
  match scrollContainer, pageRefs (page_number highlight), rects highlight with
  | true, Some pageOffsetTop, rect0 :: _ =>
      let highlightOffsetTop := Rect.top rect0 * scale st in
      let targetScrollTop := pageOffsetTop + highlightOffsetTop - 50 in
      Some (ScrollTo targetScrollTop)
  | _, _, _ =>
      match goToPage pageRefs (page_number highlight) st with
      | Some n => Some (IntoView n)
      | None => None
      end
  end.

(** [updateHighlightedPagesSet]: the set handed to [setHighlightedPages]. *)
Definition updateHighlightedPagesSet (currentHighlights : list Highlight)
  : gset Z :=
  fold_left (fun pages h => {[ page_number h ]} ∪ pages)
    currentHighlights ∅.

(** *** Overlays *)

(** One absolutely positioned [div] over a page: its [top], [left],
    [width] and [height] in pixels, and its background colour. *)
Record Overlay := {
  style : Rect.HighlightRect;
  backgroundColor : jsstring
}.

(** The overlays rendered inside the wrapper of page [pn]. *)
Definition overlays (pn : Z) (st : State) : list Overlay :=
  flat_map
    (fun h =>
       map (fun rect =>
              {| style := toScreenRect rect (scale st);
                 backgroundColor :=
                   match color h with
                   | Some (c :: rest) => c :: rest
                   | _ => HIGHLIGHT_COLORS.YELLOW
                   end |})
           (rects h))
    (List.filter (fun h => (page_number h =? pn)%Z) (highlights st)).

End Editor.

(** ** The highlight sync route, [POST /api/pdf-highlights] *)

Module Sync.

Import Js.

Record ClientHighlight := {
  id : jsstring;
  page_number : Z;
  rects : list Rect.HighlightRect;
  selected_text : jsstring;
  color : option jsstring
}.

(** Modelled from the spec: the row store behind [@/utils/supabaseClient].
    The [highlights] table holds rows
    [(pdf_id, page_number, rects, selected_text, color)];
    [delete().eq('pdf_id', id)] removes every row of that document and
    [insert(rows)] adds the rows.  A call that reports an error leaves the
    table as it was. *)
Record Row := {
  row_pdf_id : jsstring;
  row_page_number : Z;
  row_rects : list Rect.HighlightRect;
  row_selected_text : jsstring;
  row_color : option jsstring
}.

(** The calls the route issues, in order. *)
Inductive Call :=
| DeleteEq (pdf_id : jsstring)
| Insert (rows : list Row).

Record Store := {
  table : list Row;
  calls : list Call
}.

(** What the store answers to the two calls of one request: the [error]
    member of each result, [None] for [null]. *)
Record Answers := {
  deleteError : option String.string;
  insertError : option String.string
}.

Definition noErrors : Answers :=
  {| deleteError := None; insertError := None |}.

Definition rowOf (id : jsstring) (r : Row) : bool :=
  bool_decide (row_pdf_id r = id).

(** Modelled from the spec: [delete().eq('pdf_id', id)], delete-all for
    one document. *)
Definition delete_eq (pdf_id : jsstring) (err : option String.string)
  (db : Store) : option String.string * Store :=
  (err,
   {| table := match err with
               | None => List.filter (fun r => negb (rowOf pdf_id r)) (table db)
               | Some _ => table db
               end;
      calls := calls db ++ [DeleteEq pdf_id] |}).

(** Modelled from the spec: [insert(rows)], insert-all. *)
Definition insert (rows : list Row) (err : option String.string)
  (db : Store) : option String.string * Store :=
  (err,
   {| table := match err with
               | None => table db ++ rows
               | Some _ => table db
               end;
      calls := calls db ++ [Insert rows] |}).

(** The rows of one document, as [GET /api/pdf-highlights] selects them. *)
Definition rowsOf (pdf_id : jsstring) (db : Store) : list Row :=
  List.filter (rowOf pdf_id) (table db).

(** The JSON body: [pdfId] when it is a string, [highlights] when it is an
    array. *)
Record Body := {
  pdfId : option jsstring;
  highlights : option (list ClientHighlight)
}.

Record Response := {
  status : Z;
  message : String.string
}.

(** [POST]; [body] is [None] when [request.json()] throws or yields
    [null], whose destructuring throws. *)
Definition POST (body : option Body) (env : Answers) (db : Store)
  : Response * Store :=
  let serverError :=
    {| status := 500; message := "Server error syncing highlights." |} in
  match body with
  | None => (serverError, db)
  | Some b =>
      match pdfId b, highlights b with
      | Some (c :: rest), Some clientHighlights =>
          let pdfId := c :: rest in
          let (deleteError, db1) := delete_eq pdfId (deleteError env) db in
          match deleteError with
          | Some _ => (serverError, db1)
          | None =>
              if (0 <? length clientHighlights)%nat
              then
                let highlightsToInsert :=
                  map (fun h =>
                         {| row_pdf_id := pdfId;
                            row_page_number := page_number h;
                            row_rects := rects h;
                            row_selected_text := selected_text h;
                            row_color := color h |})
                      clientHighlights in
                let (insertError, db2) :=
                  insert highlightsToInsert (insertError env) db1 in
                match insertError with
                | Some _ => (serverError, db2)
                | None =>
                    ({| status := 200;
                        message := "Highlights synced successfully." |}, db2)
                end
              else
                ({| status := 200;
                    message := "Highlights synced successfully." |}, db1)
          end
      | _, _ =>
          ({| status := 400;
              message := "Missing pdfId (UUID) or highlights array." |}, db)
      end
  end.

(** Modelled from the spec: [select('*').eq('pdf_id', id)], the rows of one
    document, [null] data when the call reports an error.  The select
    names no order, so the order of the returned rows is the store's
    choice: [arrange] stands for it. *)
Definition select_eq (pdf_id : jsstring) (err : option String.string)
  (arrange : list Row -> list Row) (db : Store)
  : option (list Row) * option String.string :=
  match err with
  | None => (Some (arrange (rowsOf pdf_id db)), None)
  | Some e => (None, Some e)
  end.

(** The answer of [GET]: the status and, in a 200 answer, the [highlights]
    member of the body. *)
Record Loaded := {
  load_status : Z;
  load_highlights : option (list Row)
}.

(** [GET]; [pdfId] is [searchParams.get('pdfId')], [selectError] and
    [arrange] are the store's answer to the select. *)
Definition GET (pdfId : option jsstring) (selectError : option String.string)
  (arrange : list Row -> list Row) (db : Store) : Loaded :=
  match pdfId with
  | Some (c :: rest) =>
      let (highlights, error) :=
        select_eq (c :: rest) selectError arrange db in
      match error with
      | Some _ => {| load_status := 500; load_highlights := None |}
      | None =>
          {| load_status := 200;
             load_highlights := Some (default [] highlights) |}
      end
  | _ => {| load_status := 400; load_highlights := None |}
  end.

End Sync.

(** ** The export route, [POST /api/export-pdf] *)

Module ExportPdf.

Import Js.

Record ClientHighlight := {
  id : jsstring;
  pageNumber : Q;
  rects : list Rect.HighlightRect;
  selectedText : jsstring;
  color : option jsstring
}.

(** [page.getSize()], in PDF points. *)
Record PageSize := {
  pageWidth : Q;
  pageHeight : Q
}.

(** The value of pdf-lib's [rgb(red, green, blue)]. *)
Record Color := {
  red : number;
  green : number;
  blue : number
}.

(** pdf-lib's [assertRange(value, name, 0, 1)]: the value is a number
    other than [NaN] and lies within 0 and 1; the call throws otherwise. *)
Definition inRange01 (value : number) : bool :=
  match value with
  | Num q => Qle_bool 0 q && Qle_bool q 1
  | NaN => false
  end.

(** pdf-lib's [rgb(red, green, blue)]: it asserts the range of each
    component and throws, [None], when one is outside. *)
Definition rgb (r g b : number) : option Color :=
  if inRange01 r && inRange01 g && inRange01 b
  then Some {| red := r; green := g; blue := b |}
  else None.

(** One call [page.drawRectangle({x, y, width, height, color, opacity})] on
    the page at index [page]. *)
Record DrawRectangle := {
  page : nat;
  x : Q;
  y : Q;
  width : Q;
  height : Q;
  fill : Color;
  opacity : number
}.

(** [/rgba?\((\d+),\s*(\d+),\s*(\d+)(?:,\s*([\d.]+))?\)/] *)
Definition colorPattern : regex :=
  seq [ Lit (chr "r"); Lit (chr "g"); Lit (chr "b"); Opt (Lit (chr "a"));
        Lit (chr "(");
        Group 1 (Plus isDigit); Lit (chr ","); Star isSpace;
        Group 2 (Plus isDigit); Lit (chr ","); Star isSpace;
        Group 3 (Plus isDigit);
        Opt (seq [ Lit (chr ","); Star isSpace ]
                 (Group 4 (Plus isDigitOrDot))) ]
      (Lit (chr ")")).

(** [match[i]] handed to [parseInt]: an [undefined] capture parses to
    [NaN], as the empty string does. *)
Definition capture (m : captures) (i : nat) : jsstring := default [] (m i).

(** The colour and opacity a highlight is drawn with, [None] when a call
    of [rgb] throws.  The opacity is not checked here: it is handed to
    [drawRectangle] as read. *)
Definition resolveColor (color : option jsstring) : option (Color * number) :=
  match rgb (Num 1) (Num 1) (Num 0) with
  | None => None
  | Some highlightColor =>
      let highlightOpacity := Num 0.3 in
      match color with
      | Some (c :: rest) =>
          match regex_match colorPattern (c :: rest) with
          | Some m =>
              match rgb (num_div (parseInt (capture m 1)) 255)
                        (num_div (parseInt (capture m 2)) 255)
                        (num_div (parseInt (capture m 3)) 255) with
              | None => None
              | Some highlightColor =>
                  Some (highlightColor,
                        match m 4%nat with
                        | Some alpha => parseFloat alpha
                        | None => Num 1.0
                        end)
              end
          | None => Some (highlightColor, highlightOpacity)
          end
      | _ => Some (highlightColor, highlightOpacity)
      end
  end.

(** [pages[i]] for a number [i]: an element only when [i] is a
    non-negative integer below the length, [undefined] otherwise. *)
Definition at_index {A : Type} (l : list A) (i : Q) : option A :=
  let i' := Qred i in
  if (Qden i' =? 1)%positive && (0 <=? Qnum i')%Z
  then nth_error l (Z.to_nat (Qnum i'))
  else None.

(** The rectangle handed to [drawRectangle] for a stored rectangle. *)
Definition drawCall (pageIndex : nat) (size : PageSize)
  (paint : Color * number) (rect : Rect.HighlightRect) : DrawRectangle :=
  {| page := pageIndex;
     x := Rect.left rect;
     y := pageHeight size - Rect.top rect - Rect.height rect;
     width := Rect.width rect;
     height := Rect.height rect;
     fill := fst paint;
     opacity := snd paint |}.

(** pdf-lib's [page.drawRectangle(options)]: among its assertions,
    [opacity] is a number within 0 and 1; the call throws, [None],
    otherwise, and is recorded when it passes. *)
Definition drawRectangle (options : DrawRectangle) : option DrawRectangle :=
  if inRange01 (opacity options) then Some options else None.

(** The loop over [highlight.rects]: the recorded calls, [None] as soon
    as one call throws. *)
Fixpoint drawRects (pageIndex : nat) (size : PageSize)
  (paint : Color * number) (rects : list Rect.HighlightRect)
  : option (list DrawRectangle) :=
  match rects with
  | [] => Some []
  | rect :: rest =>
      match drawRectangle (drawCall pageIndex size paint rect) with
      | None => None
      | Some call =>
          match drawRects pageIndex size paint rest with
          | None => None
          | Some calls => Some (call :: calls)
          end
      end
  end.

(** One iteration of the loop over the highlights: [None] when the
    iteration throws ([page] is [undefined] and [page.getSize()] is a
    [TypeError], or [rgb] or [drawRectangle] rejects a value), otherwise
    the [drawRectangle] calls it makes, none when the highlight is skipped
    by [continue]. *)
Definition drawHighlight (pages : list PageSize) (highlight : ClientHighlight)
  : option (list DrawRectangle) :=
  if Qle_bool (pageNumber highlight) 0
     || negb (Qle_bool (pageNumber highlight)
                       (inject_Z (Z.of_nat (length pages))))
  then Some []
  else
    match at_index pages (pageNumber highlight - 1) with
    | None => None
    | Some size =>
        let pageIndex := Z.to_nat (Qnum (Qred (pageNumber highlight - 1))) in
        match resolveColor (color highlight) with
        | None => None
        | Some paint => drawRects pageIndex size paint (rects highlight)
        end
    end.

(** The loop: the calls of all iterations in order, [None] as soon as one
    iteration throws. *)
Fixpoint drawHighlights (pages : list PageSize)
  (highlights : list ClientHighlight) : option (list DrawRectangle) :=
  match highlights with
  | [] => Some []
  | highlight :: rest =>
      match drawHighlight pages highlight with
      | None => None
      | Some calls =>
          match drawHighlights pages rest with
          | None => None
          | Some calls' => Some (calls ++ calls')
          end
      end
  end.

Record Body := {
  pdfData : option jsstring;
  highlights : option (list ClientHighlight)
}.

Inductive Response :=
| Pdf (drawn : list DrawRectangle)
| Json (status : Z) (error : String.string).

(** [POST].  [load] stands for [PDFDocument.load] followed by
    [getPages]: the page sizes of the document, [None] when loading
    throws.  The answer of a successful export is the document with the
    recorded rectangles drawn on it. *)
Definition POST (load : jsstring -> option (list PageSize)) (body : Body)
  : Response :=
  match pdfData body, highlights body with
  | Some (c :: data), Some highlights =>
      match load (c :: data) with
      | None => Json 500 "Failed to export PDF."
      | Some pages =>
          match drawHighlights pages highlights with
          | None => Json 500 "Failed to export PDF."
          | Some calls => Pdf calls
          end
      end
  | _, _ => Json 400 "Missing pdfData or highlights"
  end.

End ExportPdf.

(** ** The requests the editor sends *)

Module EditorRequests.

Import Js.

(** The body of the save request as the sync route reads it: the
    highlight objects carry the same members on both sides. *)
Definition toSyncHighlight (h : Editor.Highlight) : Sync.ClientHighlight :=
  {| Sync.id := Editor.id h;
     Sync.page_number := Editor.page_number h;
     Sync.rects := Editor.rects h;
     Sync.selected_text := Editor.selected_text h;
     Sync.color := Editor.color h |}.

Definition saveBody (r : Editor.SaveRequest) : Sync.Body :=
  {| Sync.pdfId := Some (Editor.req_pdfId r);
     Sync.highlights := Some (map toSyncHighlight (Editor.req_highlights r)) |}.

(** The callback of [highlights.map] in [handleExportPdf]. *)
Definition toExportHighlight (h : Editor.Highlight)
  : ExportPdf.ClientHighlight :=
  {| ExportPdf.id := Editor.id h;
     ExportPdf.pageNumber := inject_Z (Editor.page_number h);
     ExportPdf.rects := Editor.rects h;
     ExportPdf.selectedText := Editor.selected_text h;
     ExportPdf.color := Editor.color h |}.

Definition exportPayloadHighlights (st : Editor.State)
  : list ExportPdf.ClientHighlight :=
  map toExportHighlight (Editor.highlights st).

(** [s.lastIndexOf(c)]: the index of the last occurrence, -1 when there is
    none.  [i] is the index of the head of [s], [found] the result so far. *)
Fixpoint lastIndexFrom (c : N) (s : jsstring) (i found : Z) : Z :=
  match s with
  | [] => found
  | d :: s' => lastIndexFrom c s' (i + 1) (if (d =? c)%N then i else found)
  end.

Definition lastIndexOf (c : N) (s : jsstring) : Z :=
  lastIndexFrom c s 0 (-1).

(** [s.substring(start)] for an integer [start]: negative values count
    as 0, values beyond the length give the empty string. *)
Definition substring (s : jsstring) (start : Z) : jsstring :=
  skipn (Z.to_nat (Z.max 0 start)) s.

(** [p] or [P], and so on: what a letter of the pattern matches under the
    [i] flag. *)
Definition sameLetter (lower : N) (c : N) : bool :=
  ((c =? lower) || (c =? lower - 32))%N.

(** Whether [/\.pdf$/i] matches at the start of [t]: [t] is the four code
    units of [.pdf] in either case, and the input ends there. *)
Definition pdfSuffixHere (t : jsstring) : bool :=
  match t with
  | [dot; p; d; f] =>
      (dot =? chr ".")%N && sameLetter (chr "p") p
      && sameLetter (chr "d") d && sameLetter (chr "f") f
  | _ => false
  end.

(** [name.replace(/\.pdf$/i, '')]: the start positions are tried from left
    to right, the first match is removed. *)
Fixpoint replacePdfSuffix (name : jsstring) : jsstring :=
  if pdfSuffixHere name then []
  else match name with
       | [] => []
       | c :: name' => c :: replacePdfSuffix name'
       end.

(** The [originalFilename] of [handleExportPdf]. *)
Definition originalFilename (file : Editor.FileSource) : jsstring :=
  match file with
  | Editor.FromUrl url =>
      match substring url (lastIndexOf (chr "/") url + 1) with
      | [] => str "downloaded.pdf"
      | name => name
      end
  | Editor.LocalFile name => name
  end.

(** The [download] attribute of the link that saves the exported file. *)
Definition downloadName (file : Editor.FileSource) : jsstring :=
  replacePdfSuffix (originalFilename file) ++ str "_highlighted.pdf".

End EditorRequests.

(** ** The upload and delete routes *)

Module Files.

Import Js.

(** Modelled from the spec: a row of the [pdfs] table. *)
Record PdfRecord := {
  rec_id : jsstring;
  rec_filename : jsstring;
  rec_storage_object_path : jsstring;
  rec_content_type : jsstring;
  rec_file_size : Z
}.

(** Modelled from the spec: the collaborators of the two routes, the
    [highlights] and [pdfs] tables of the row store and the paths held by
    the [pdf-uploads] bucket of the blob store. *)
Record Stores := {
  highlights : list Sync.Row;
  blobs : list jsstring;
  pdfs : list PdfRecord
}.

Definition isPath (path : jsstring) (p : jsstring) : bool :=
  bool_decide (p = path).

Definition isRecord (id : jsstring) (r : PdfRecord) : bool :=
  bool_decide (rec_id r = id).

(** Modelled from the spec: [storage.from(bucket).remove([path])]; a call
    that reports an error removes nothing. *)
Definition removeBlob (path : jsstring) (err : option String.string)
  (s : Stores) : Stores :=
  match err with
  | None =>
      {| highlights := highlights s;
         blobs := List.filter (fun p => negb (isPath path p)) (blobs s);
         pdfs := pdfs s |}
  | Some _ => s
  end.

(** Modelled from the spec: [from('highlights').delete().eq('pdf_id', id)]
    on these stores. *)
Definition deleteHighlights (id : jsstring) (err : option String.string)
  (s : Stores) : Stores :=
  match err with
  | None =>
      {| highlights :=
           List.filter (fun r => negb (Sync.rowOf id r)) (highlights s);
         blobs := blobs s;
         pdfs := pdfs s |}
  | Some _ => s
  end.

(** Modelled from the spec: [from('pdfs').delete().eq('id', id)]. *)
Definition deleteRecord (id : jsstring) (err : option String.string)
  (s : Stores) : Stores :=
  match err with
  | None =>
      {| highlights := highlights s;
         blobs := blobs s;
         pdfs := List.filter (fun r => negb (isRecord id r)) (pdfs s) |}
  | Some _ => s
  end.

(** *** [DELETE /api/delete-pdf] *)

(** What [request.json()] gives: a JSON syntax error, another exception
    (this covers a [null] body, whose destructuring throws), or the two
    members of the body when they are strings. *)
Inductive DeleteBody :=
| InvalidJson
| Throws
| Parsed (pdfId storagePath : option jsstring).

(** The [error] member of the answer to each of the three calls. *)
Record DeleteAnswers := {
  highlightsDeleteError : option String.string;
  storageDeleteError : option String.string;
  dbDeleteError : option String.string
}.

Definition DELETE (body : DeleteBody) (env : DeleteAnswers) (s : Stores)
  : Z * Stores :=
  match body with
  | InvalidJson => (400%Z, s)
  | Throws => (500%Z, s)
  | Parsed (Some (c :: id)) (Some (d :: path)) =>
      let pdfId := c :: id in
      let storagePath := d :: path in
      let s1 := deleteHighlights pdfId (highlightsDeleteError env) s in
      let s2 := removeBlob storagePath (storageDeleteError env) s1 in
      let s3 := deleteRecord pdfId (dbDeleteError env) s2 in
      match dbDeleteError env with
      | Some _ => (500%Z, s3)
      | None => (200%Z, s3)
      end
  | Parsed _ _ => (400%Z, s)
  end.

(** *** [POST /api/upload-pdf] *)

(** The [pdfFile] entry of the form. *)
Record UploadedFile := {
  name : jsstring;
  type : jsstring;
  size : Z
}.

(** [name.replace(/\s+/g, '_')]: every maximal run of white space becomes
    one underscore.  [inRun] tells that the previous code unit was white
    space. *)
Fixpoint replaceSpaces (inRun : bool) (name : jsstring) : jsstring :=
  match name with
  | [] => []
  | c :: name' =>
      if isSpace c
      then if inRun then replaceSpaces true name'
           else chr "_" :: replaceSpaces true name'
      else c :: replaceSpaces false name'
  end.

(** The storage key; [now] is the text of [Date.now()]. *)
Definition storageFileName (now : jsstring) (pdfFile : UploadedFile)
  : jsstring :=
  now ++ str "-" ++ replaceSpaces false (name pdfFile).

(** What the environment decides in one upload: the clock, the errors of
    the storage upload and of the metadata insert, the identifier the
    database gives the new record, and the error of the roll-back
    removal, which the route does not look at. *)
Record UploadAnswers := {
  now : jsstring;
  storageError : option String.string;
  dbError : option String.string;
  newRecordId : jsstring;
  rollbackError : option String.string
}.

(** Modelled from the spec: [storage.from(bucket).upload(key, ...)] with
    [upsert: false] fails when the key is taken. *)
Definition uploadBlob (key : jsstring) (err : option String.string)
  (s : Stores) : bool * Stores :=
  if existsb (isPath key) (blobs s) then (false, s)
  else match err with
       | Some _ => (false, s)
       | None =>
           (true,
            {| highlights := highlights s;
               blobs := blobs s ++ [key];
               pdfs := pdfs s |})
       end.

(** Modelled from the spec: [from('pdfs').insert(record).select().single()]. *)
Definition insertRecord (r : PdfRecord) (err : option String.string)
  (s : Stores) : bool * Stores :=
  match err with
  | Some _ => (false, s)
  | None =>
      (true,
       {| highlights := highlights s;
          blobs := blobs s;
          pdfs := pdfs s ++ [r] |})
  end.

(** The answer: the status and, in a 201 answer, the [fileInfo] record. *)
Definition POST (form : option (option UploadedFile)) (env : UploadAnswers)
  (s : Stores) : Z * option PdfRecord * Stores :=
  match form with
  | None => (500%Z, None, s)
  | Some None => (400%Z, None, s)
  | Some (Some pdfFile) =>
      if negb (bool_decide (type pdfFile = str "application/pdf"))
      then (400%Z, None, s)
      else
        let key := storageFileName (now env) pdfFile in
        let (stored, s1) := uploadBlob key (storageError env) s in
        if negb stored then (500%Z, None, s1)
        else
          let pdfMetadata :=
            {| rec_id := newRecordId env;
               rec_filename := name pdfFile;
               rec_storage_object_path := key;
               rec_content_type := type pdfFile;
               rec_file_size := size pdfFile |} in
          let (saved, s2) := insertRecord pdfMetadata (dbError env) s1 in
          if negb saved
          then (500%Z, None, removeBlob key (rollbackError env) s2)
          else (201%Z, Some pdfMetadata, s2)
  end.

End Files.

(** ** Vocabulary of the specification *)

Module Spec.

Import Js.

(** A client rectangle seen from the page wrapper: the position of its
    top-left corner relative to the wrapper's, its size unchanged. *)
Definition relativeTo (cr pageRect : Dom.DOMRect) : Rect.HighlightRect :=
  {| Rect.top := Dom.top cr - Dom.top pageRect;
     Rect.left := Dom.left cr - Dom.left pageRect;
     Rect.width := Dom.width cr;
     Rect.height := Dom.height cr |}.

(** A client rectangle read as a rectangle of numbers. *)
Definition ofClient (cr : Dom.DOMRect) : Rect.HighlightRect :=
  {| Rect.top := Dom.top cr;
     Rect.left := Dom.left cr;
     Rect.width := Dom.width cr;
     Rect.height := Dom.height cr |}.

(** A rectangle displayed at scale [from], rescaled to scale [to]. *)
Definition rescale (from to : Q) (r : Rect.HighlightRect)
  : Rect.HighlightRect :=
  {| Rect.top := Rect.top r * (to / from);
     Rect.left := Rect.left r * (to / from);
     Rect.width := Rect.width r * (to / from);
     Rect.height := Rect.height r * (to / from) |}.

(** Where the browser puts content that lies at [p] on the unscaled page,
    for a page wrapper at [pageRect] and zoom [scale]. *)
Definition onScreen (p : Rect.HighlightRect) (pageRect : Dom.DOMRect)
  (scale : Q) : Dom.DOMRect :=
  {| Dom.top := Dom.top pageRect + Rect.top p * scale;
     Dom.left := Dom.left pageRect + Rect.left p * scale;
     Dom.width := Rect.width p * scale;
     Dom.height := Rect.height p * scale |}.

(** The rectangles the selection capture keeps according to the
    specification: those with neither dimension zero. *)
Definition nonDegenerate (rs : list Rect.HighlightRect)
  : list Rect.HighlightRect :=
  List.filter (fun r => negb (Editor.degenerate r)) rs.

(** Ascending order of a numeric key. *)
Definition ascendingBy {A : Type} (key : A -> Q) (a b : A) : Prop :=
  key a <= key b.

(** The vertical position a highlight is sorted by. *)
Definition firstTop (h : Editor.Highlight) : Q :=
  match Editor.rects h with
  | r :: _ => Rect.top r
  | [] => 0
  end.

Definition onPage (p : Z) (h : Editor.Highlight) : bool :=
  (Editor.page_number h =? p)%Z.

Definition atTop (t : Q) (h : Editor.Highlight) : bool :=
  Qeq_bool (firstTop h) t.

(** Events that open a document or replace the highlight set with what
    the server holds. *)
Definition opensOrLoads (e : Editor.Event) : Prop :=
  match e with
  | Editor.PropsChanged _ _ => True
  | Editor.FileChosen _ => True
  | Editor.DocumentLoaded _ => True
  | Editor.LoadSettled _ => True
  | _ => False
  end.

(** The rows the sync route writes for a highlight set. *)
Definition rowsFor (pdfId : jsstring) (hs : list Sync.ClientHighlight)
  : list Sync.Row :=
  map (fun h =>
         {| Sync.row_pdf_id := pdfId;
            Sync.row_page_number := Sync.page_number h;
            Sync.row_rects := Sync.rects h;
            Sync.row_selected_text := Sync.selected_text h;
            Sync.row_color := Sync.color h |}) hs.

(** Where a stable sort leaves an element pushed at the end of a sorted
    array: behind the last element that it does not precede. *)
Fixpoint insertLast {A : Type} (cmp : A -> A -> number) (x : A)
  (l : list A) : list A :=
  match l with
  | [] => [x]
  | y :: l' =>
      if follows cmp y x then x :: y :: l' else y :: insertLast cmp x l'
  end.

(** The precondition of the grouping: a highlight has a first rectangle. *)
Definition hasRects (h : Editor.Highlight) : Prop := Editor.rects h <> [].

(** The highlights of page [p] in capture order, stably sorted by the top
    of their first rectangle; no entry for a page without highlights. *)
Definition groupOf (p : Z) (hs : list Editor.Highlight)
  : option (list Editor.Highlight) :=
  match List.filter (onPage p) hs with
  | [] => None
  | l => Some (sort Editor.byFirstTop l)
  end.

(** A non-empty run of decimal digits. *)
Definition digits (s : jsstring) : Prop :=
  s <> [] /\ Forall (fun c => isDigit c = true) s.

(** A non-empty run of digits and full stops. *)
Definition digitsOrDots (s : jsstring) : Prop :=
  s <> [] /\ Forall (fun c => isDigitOrDot c = true) s.

(** A possibly empty run of white space. *)
Definition spaces (s : jsstring) : Prop :=
  Forall (fun c => isSpace c = true) s.

(** The colour strings [rgb(R,G,B)] and [rgba(R,G,B,A)]: an optional [a]
    after [rgb], optional white space after each comma, the alpha part
    with its white space when there is one. *)
Definition colorText (a : bool) (R w1 G w2 B : jsstring)
  (alpha : option (jsstring * jsstring)) : jsstring :=
  str "rgb" ++ (if a then str "a" else []) ++ str "("
  ++ R ++ str "," ++ w1 ++ G ++ str "," ++ w2 ++ B
  ++ match alpha with
     | Some (w3, A) => str "," ++ w3 ++ A ++ str ")"
     | None => str ")"
     end.

(** A character class stops at [rest]: [rest] is empty or starts outside
    the class. *)
Definition stops (p : N -> bool) (rest : jsstring) : Prop :=
  match rest with
  | c :: _ => p c = false
  | [] => True
  end.

(** The colour pattern from its opening parenthesis on, code units written
    out. *)
Definition colorBody : regex :=
  Seq (Lit 40)
  (Seq (Group 1 (Plus isDigit)) (Seq (Lit 44) (Seq (Star isSpace)
  (Seq (Group 2 (Plus isDigit)) (Seq (Lit 44) (Seq (Star isSpace)
  (Seq (Group 3 (Plus isDigit))
  (Seq (Opt (Seq (Lit 44) (Seq (Star isSpace)
                             (Group 4 (Plus isDigitOrDot)))))
       (Lit 41))))))))).

(** The captures of a colour text: the three components and, when
    written, the alpha. *)
Definition colorCaptures (R G B : jsstring)
  (alpha : option (jsstring * jsstring)) : captures :=
  let m := set_capture 3 B (set_capture 2 G (set_capture 1 R no_captures)) in
  match alpha with
  | Some (_, A) => set_capture 4 A m
  | None => m
  end.

Definition alphaWritten (alpha : option (jsstring * jsstring)) : Prop :=
  match alpha with
  | Some (w3, A) => spaces w3 /\ digitsOrDots A
  | None => True
  end.

(** The fallback colour, and a colour channel written as [ds]. *)
Definition yellow : ExportPdf.Color :=
  {| ExportPdf.red := Num 1; ExportPdf.green := Num 1;
     ExportPdf.blue := Num 0 |}.

Definition channel (ds : jsstring) : number :=
  Num (inject_Z (decimal ds) / 255).

(** A page number that names a page of a document with [n] pages. *)
Definition validPage (n : nat) (pageNumber : Q) : Prop :=
  1 <= pageNumber /\ pageNumber <= inject_Z (Z.of_nat n).


(** Two paints, colour and opacity, that are the same numbers. *)
Definition samePaint (a b : ExportPdf.Color * number) : Prop :=
  num_eq (ExportPdf.red (fst a)) (ExportPdf.red (fst b))
  /\ num_eq (ExportPdf.green (fst a)) (ExportPdf.green (fst b))
  /\ num_eq (ExportPdf.blue (fst a)) (ExportPdf.blue (fst b))
  /\ num_eq (snd a) (snd b).

(** The colour and opacity each swatch of the tool bar stands for. *)
Definition swatchPaint (s : Editor.Swatch) : ExportPdf.Color * number :=
  match s with
  | Editor.Yellow => (yellow, Num 0.4)
  | Editor.Red =>
      ({| ExportPdf.red := Num 1; ExportPdf.green := Num 0;
          ExportPdf.blue := Num 0 |}, Num 0.3)
  | Editor.Blue =>
      ({| ExportPdf.red := Num 0; ExportPdf.green := Num 0;
          ExportPdf.blue := Num 1 |}, Num 0.3)
  end.

(** A scale that is a whole number of tenths, at least two. *)
Definition onTenthGrid (q : Q) : Prop :=
  exists k : Z, (2 <= k)%Z /\ q == inject_Z k / 10.

(** A page number that is whole and names a page of a document with [n]
    pages. *)
Definition wholeValidPage (n : nat) (pageNumber : Q) : Prop :=
  exists z : Z, pageNumber == inject_Z z /\ (1 <= z <= Z.of_nat n)%Z.

(** The export draws the highlight: its iteration completes with one
    [drawRectangle] call per rectangle of the highlight, each filled with
    [fill] at opacity [opacity]. *)
Definition drawnWith (pages : list ExportPdf.PageSize)
  (h : ExportPdf.ClientHighlight) (fill : ExportPdf.Color)
  (opacity : number) : Prop :=
  exists calls,
    ExportPdf.drawHighlight pages h = Some calls
    /\ length calls = length (ExportPdf.rects h)
    /\ Forall (fun d => ExportPdf.fill d = fill
                        /\ ExportPdf.opacity d = opacity) calls.

(** The export fails on the highlight: whenever it is among the
    highlights of a request whose document loads, nothing is answered but
    the 500 error. *)
Definition failsExport (pages : list ExportPdf.PageSize)
  (h : ExportPdf.ClientHighlight) : Prop :=
  forall hs load data,
    In h hs -> data <> [] -> load data = Some pages ->
    ExportPdf.POST load
      {| ExportPdf.pdfData := Some data; ExportPdf.highlights := Some hs |}
    = ExportPdf.Json 500 "Failed to export PDF.".

(** A colour component written as [ds] that is at most 255. *)
Definition byteText (ds : jsstring) : Prop :=
  digits ds /\ (decimal ds <= 255)%Z.

(** The colour with the components written as [R], [G] and [B]. *)
Definition channels (R G B : jsstring) : ExportPdf.Color :=
  {| ExportPdf.red := channel R; ExportPdf.green := channel G;
     ExportPdf.blue := channel B |}.

(** A number above 1 by at least the spacing of doubles at 1, so that
    the double nearest to it is above 1 as well. *)
Definition beyondOne (q : Q) : Prop := 1 + 1 / inject_Z (2 ^ 52) <= q.

(** An answer of the store to a select without an order clause: the rows
    asked for, in some order. *)
Definition reorders (arrange : list Sync.Row -> list Sync.Row) : Prop :=
  forall rows, Permutation (arrange rows) rows.

(** Events that bring no highlight from the server into the editor. *)
Definition bringsNoHighlights (e : Editor.Event) : Prop :=
  match e with
  | Editor.LoadSettled (Editor.LoadResponded true (Some (_ :: _))) => False
  | _ => True
  end.

(** A highlight painted with one of the swatches of the tool bar. *)
Definition swatchPainted (h : Editor.Highlight) : Prop :=
  exists s, Editor.color h = Some (Editor.swatchColor s).

End Spec.

(** ** Sample data *)

Module Samples.

Import Js.

Definition sample_rect : Dom.DOMRect :=
  {| Dom.top := 10; Dom.left := 5; Dom.width := 100; Dom.height := 20 |}.

Definition sample_origin : Dom.DOMRect :=
  {| Dom.top := 3; Dom.left := 4; Dom.width := 600; Dom.height := 800 |}.

(** A selection over two lines whose first client rectangle has width 0. *)
Definition two_line_selection : Dom.Selection :=
  {| Dom.rangeCount := 1;
     Dom.isCollapsed := false;
     Dom.clientRects :=
       [ {| Dom.top := 120; Dom.left := 40;
            Dom.width := 0; Dom.height := 18 |};
         {| Dom.top := 138; Dom.left := 40;
            Dom.width := 90; Dom.height := 18 |} ];
     Dom.text := str "two lines" |}.

Definition page_wrapper : Dom.DOMRect :=
  {| Dom.top := 30; Dom.left := 22; Dom.width := 1080; Dom.height := 1440 |}.

Definition managed_url : jsstring := str "https://files.example/report.pdf".

Definition managed_id : jsstring := str "7d0c9f7e".

(** A document opened from the file list, a highlight captured while the
    stored highlights are still being fetched. *)
Definition capture_before_load : list Editor.Event :=
  [ Editor.PropsChanged (Some managed_url) (Some managed_id);
    Editor.DocumentLoaded 3;
    Editor.AddHighlight (Some two_line_selection) (Some page_wrapper)
      (str "hl-1") ].

(** A highlight with one rectangle at the given top. *)
Definition highlight_at (name : String.string) (p : Z) (t : Q)
  : Editor.Highlight :=
  {| Editor.id := str name;
     Editor.page_number := p;
     Editor.rects :=
       [ {| Rect.top := t; Rect.left := 0; Rect.width := 40;
            Rect.height := 12 |} ];
     Editor.selected_text := [];
     Editor.color := None |}.

(** Six highlights on pages 3 and 1; [a], [d] and [f] share the top 5
    ([f] writes it as 10/2), [b] and [e] the top 7. *)
Definition six_highlights : list Editor.Highlight :=
  [ highlight_at "a" 3 5; highlight_at "b" 1 7; highlight_at "c" 3 2;
    highlight_at "d" 3 5; highlight_at "e" 1 7; highlight_at "f" 3 (10 # 2) ].

Definition sync_highlight (name : String.string) (p : Z)
  : Sync.ClientHighlight :=
  {| Sync.id := str name;
     Sync.page_number := p;
     Sync.rects :=
       [ {| Rect.top := 10; Rect.left := 5; Rect.width := 100;
            Rect.height := 20 |} ];
     Sync.selected_text := str "text";
     Sync.color := Some (str "rgba(255, 255, 0, 0.4)") |}.

Definition sync_body : Sync.Body :=
  {| Sync.pdfId := Some managed_id;
     Sync.highlights := Some [ sync_highlight "a" 1; sync_highlight "b" 2 ] |}.

Definition stored_row (pdf : String.string) (p : Z) : Sync.Row :=
  {| Sync.row_pdf_id := str pdf;
     Sync.row_page_number := p;
     Sync.row_rects := [];
     Sync.row_selected_text := str "old";
     Sync.row_color := None |}.

(** A table with rows of two documents. *)
Definition stored : Sync.Store :=
  {| Sync.table :=
       [ stored_row "7d0c9f7e" 4; stored_row "other" 1;
         stored_row "7d0c9f7e" 9 ];
     Sync.calls := [] |}.

Definition page_800 : ExportPdf.PageSize :=
  {| ExportPdf.pageWidth := 600; ExportPdf.pageHeight := 800 |}.

Definition stored_rect : Rect.HighlightRect :=
  {| Rect.top := 10; Rect.left := 5; Rect.width := 100; Rect.height := 20 |}.

Definition on_page (n : Q) : ExportPdf.ClientHighlight :=
  {| ExportPdf.id := str "hl-1";
     ExportPdf.pageNumber := n;
     ExportPdf.rects := [stored_rect];
     ExportPdf.selectedText := str "text";
     ExportPdf.color := None |}.

(** A highlight on page 1 with the given colour string. *)
Definition painted (color : String.string) : ExportPdf.ClientHighlight :=
  {| ExportPdf.id := str "hl-2";
     ExportPdf.pageNumber := 1;
     ExportPdf.rects := [stored_rect];
     ExportPdf.selectedText := str "text";
     ExportPdf.color := Some (str color) |}.

(** The group of page 3 of the six highlights. *)
Definition page_3_group : list Editor.Highlight :=
  [ highlight_at "c" 3 2; highlight_at "a" 3 5; highlight_at "d" 3 5;
    highlight_at "f" 3 (10 # 2) ].

(** A store whose insert fails. *)
Definition failing_insert : Sync.Answers :=
  {| Sync.deleteError := None;
     Sync.insertError := Some "insert failed"%string |}.

(** An uploaded PDF whose name contains white space, and a bucket and
    tables that already hold another document. *)
Definition thesis_file : Files.UploadedFile :=
  {| Files.name := str "my  thesis draft.pdf";
     Files.type := str "application/pdf";
     Files.size := 48213 |}.

Definition other_record : Files.PdfRecord :=
  {| Files.rec_id := str "other";
     Files.rec_filename := str "old.pdf";
     Files.rec_storage_object_path := str "1700000000000-old.pdf";
     Files.rec_content_type := str "application/pdf";
     Files.rec_file_size := 1024 |}.

Definition file_stores : Files.Stores :=
  {| Files.highlights := [stored_row "other" 1];
     Files.blobs := [str "1700000000000-old.pdf"];
     Files.pdfs := [other_record] |}.

Definition upload_ok : Files.UploadAnswers :=
  {| Files.now := str "1762000000000";
     Files.storageError := None;
     Files.dbError := None;
     Files.newRecordId := managed_id;
     Files.rollbackError := None |}.

Definition upload_db_fails : Files.UploadAnswers :=
  {| Files.now := str "1762000000000";
     Files.storageError := None;
     Files.dbError := Some "insert failed"%string;
     Files.newRecordId := managed_id;
     Files.rollbackError := None |}.

Definition delete_ok : Files.DeleteAnswers :=
  {| Files.highlightsDeleteError := None;
     Files.storageDeleteError := None;
     Files.dbDeleteError := None |}.

End Samples.

(** * Properties *)

(** ** Zoom and geometry *)

Module EditorFacts.

Import Js Editor Spec Samples.

Lemma tenth (y : Q) : y / 10 == y * 0.1.
Proof. field. Qed.

(** Rounding to one decimal loses less than a twentieth. *)
Lemma toFixed1_lower (x : Q) : x - 0.05 <= toFixed1 x.
Proof.
  unfold toFixed1. destruct (Qle_bool 0 x); rewrite tenth.
  - pose proof (Qlt_floor (x * 10 + 0.5)) as H.
    rewrite inject_Z_plus in H. change (inject_Z 1) with 1 in H. lra.
  - pose proof (Qfloor_le ((- x) * 10 + 0.5)) as H. lra.
Qed.

Lemma toFixed1_keeps_fifth (x : Q) : 0.2 <= x -> 0.2 <= toFixed1 x.
Proof.
  intros Hx. unfold toFixed1.
  destruct (Qle_bool 0 x) eqn:E; rewrite tenth.
  - assert (H : (2 <= Qfloor (x * 10 + 0.5))%Z).
    { change 2%Z with (Qfloor 2). apply Qfloor_resp_le. lra. }
    rewrite Zle_Qle in H. change (inject_Z 2) with 2 in H. lra.
  - assert (Hn : ~ 0 <= x) by (rewrite <- Qle_bool_iff; congruence).
    exfalso. apply Hn. lra.
Qed.

Lemma max_ge_l (a b : Q) : a <= Js.max a b.
Proof.
  unfold Js.max. destruct (Qle_bool a b) eqn:E.
  - now apply Qle_bool_iff.
  - lra.
Qed.

Lemma scale_addHighlight sel div newId st :
  scale (fst (addHighlight sel div newId st)) = scale st.
Proof.
  unfold addHighlight.
  destruct sel as [sel|]; [|reflexivity].
  destruct (_ || _); [reflexivity|].
  destruct div as [pageRect|]; [|reflexivity].
  destruct (_ || _); reflexivity.
Qed.

(** Only the three zoom handlers write [scale]. *)
Lemma scale_step st e :
  0.2 <= scale st -> 0.2 <= scale (step st e).
Proof.
  intros H. destruct e; simpl; try exact H.
  - unfold propsEffect. destruct initialFileUrl as [[|c url]|]; try exact H.
    destruct (truthy initialPdfId); exact H.
  - unfold handleFileChange. destruct uploadedFile; exact H.
  - unfold onDocumentLoadSuccess. destruct (truthy _); exact H.
  - destruct o as [[|] ?|]; exact H.
  - apply toFixed1_keeps_fifth. lra.
  - apply toFixed1_keeps_fifth. apply max_ge_l.
  - lra.
  - now rewrite scale_addHighlight.
  - unfold handleSaveHighlights.
    destruct (currentPdfId st) as [[|c i]|]; try exact H.
    destruct (negb _); exact H.
  - destruct o as [[|]|]; exact H.
Qed.

Lemma run_snoc st es e : run st (es ++ [e]) = step (run st es) e.
Proof. unfold run. now rewrite fold_left_app. Qed.

Lemma scale_run es : 0.2 <= scale (run initial es).
Proof.
  induction es as [|e es IH] using rev_ind.
  - simpl. lra.
  - rewrite run_snoc. now apply scale_step.
Qed.

(** Dividing by a non-zero scale and multiplying by it again gives the
    rectangle relative to the page wrapper. *)
Lemma storage_then_screen cr pageRect (s : Q) :
  ~ s == 0 ->
  Rect.eq (toScreenRect (toStorageRect cr pageRect s) s)
          (relativeTo cr pageRect).
Proof.
  intros Hs. unfold Rect.eq; simpl. repeat split; field; exact Hs.
Qed.

(** C9.  The zoom scale starts at 1.8, [zoomIn] strictly increases it,
    [resetZoom] puts it back to 1.8, [zoomOut] never yields less than 0.2,
    and after any sequence of events of the component the scale is at
    least 0.2.  Hence the scale that selection capture divides by is
    strictly positive, and multiplying a stored rectangle by it gives back
    the captured rectangle relative to the page. *)
Theorem zoom_scale_at_least_fifth :
  scale initial == 1.8
  /\ (forall st, scale st < scale (zoomIn st))
  /\ (forall st, scale (resetZoom st) == 1.8)
  /\ (forall st, 0.2 <= scale (zoomOut st))
  /\ (forall es, 0.2 <= scale (run initial es))
  /\ (forall es cr pageRect,
        let s := scale (run initial es) in
        0 < s
        /\ Rect.eq (toScreenRect (toStorageRect cr pageRect s) s)
                   (relativeTo cr pageRect)).
Proof.
  split; [reflexivity|].
  split.
  { intros st. simpl. pose proof (toFixed1_lower (scale st + 0.2)). lra. }
  split; [reflexivity|].
  split.
  { intros st. simpl. apply toFixed1_keeps_fifth, max_ge_l. }
  split; [exact scale_run|].
  intros es cr pageRect s.
  pose proof (scale_run es) as H. fold s in H.
  split; [lra|].
  apply storage_then_screen. lra.
Qed.

End EditorFacts.

(** ** Storage normalisation *)

Module GeometryFacts.

Import Js Editor Spec Samples.

(** C2 (as amended).  For non-zero scales [s1] and [s2], a client
    rectangle stored at capture scale [s1], displayed at [s2] and rescaled
    to [s1] is the rectangle relative to the page wrapper: width and height
    are reproduced, top and left are reproduced minus the page origin.
    And the rectangle stored for a piece of page content does not depend on
    the zoom or on the position of the page at capture time. *)
Theorem storage_round_trip_relative_to_page :
  forall (r origin : Dom.DOMRect) (s1 s2 : Q),
    ~ s1 == 0 -> ~ s2 == 0 ->
    Rect.eq (rescale s2 s1 (toScreenRect (toStorageRect r origin s1) s2))
            (relativeTo r origin)
    /\ (forall p origin',
          Rect.eq (toStorageRect (onScreen p origin s1) origin s1) p
          /\ Rect.eq (toStorageRect (onScreen p origin s1) origin s1)
                     (toStorageRect (onScreen p origin' s2) origin' s2)).
Proof.
  intros r origin s1 s2 H1 H2. split.
  - unfold Rect.eq; simpl. repeat split; field; split; assumption.
  - intros p origin'.
    unfold Rect.eq; simpl. repeat split; field; try split; assumption.
Qed.

Lemma storage_round_trip_relative_to_page_witness :
  ~ 2 == 0 /\ ~ 0.5 == 0
  /\ Rect.eq (rescale 0.5 2
                (toScreenRect (toStorageRect sample_rect sample_origin 2) 0.5))
             (relativeTo sample_rect sample_origin).
Proof.
  assert (H1 : ~ 2 == 0) by (intros H; discriminate H).
  assert (H2 : ~ 0.5 == 0) by (intros H; discriminate H).
  split; [exact H1|]. split; [exact H2|].
  exact (proj1 (storage_round_trip_relative_to_page
                  sample_rect sample_origin 2 0.5 H1 H2)).
Defined.

(** With the page wrapper away from the corner of the viewport the round
    trip does not give back the client rectangle itself: captured at top 10
    with the page at top 3, it comes back at top 7. *)
Lemma storage_round_trip_not_identity :
  ~ Rect.eq (rescale 0.5 2
               (toScreenRect (toStorageRect sample_rect sample_origin 2) 0.5))
            (ofClient sample_rect).
Proof.
  intros [H _]. vm_compute in H. discriminate H.
Qed.

End GeometryFacts.

(** ** Selection capture *)

Module CaptureFacts.

Import Js Editor Spec Samples.

Lemma nonDegenerate_nil rs :
  nonDegenerate rs = [] <-> forallb degenerate rs = true.
Proof.
  unfold nonDegenerate. induction rs as [|r rs IH]; simpl.
  - tauto.
  - destruct (degenerate r); simpl.
    + exact IH.
    + split; discriminate.
Qed.

Lemma aborts_when rs :
  Nat.eqb (length rs) 0 || forallb degenerate rs = true
  <-> nonDegenerate rs = [].
Proof.
  rewrite nonDegenerate_nil. destruct rs as [|r rs]; simpl.
  - tauto.
  - tauto.
Qed.

Lemma degenerate_false r :
  degenerate r = false -> ~ Rect.width r == 0 /\ ~ Rect.height r == 0.
Proof.
  unfold degenerate. intros H. apply orb_false_elim in H as [Hw Hh].
  split; intros E; apply Qeq_bool_iff in E; congruence.
Qed.

Lemma app_one_neq {A : Type} (l : list A) (x : A) : l ++ [x] <> l.
Proof.
  intros E. apply (f_equal (@length A)) in E.
  rewrite length_app in E. simpl in E. lia.
Qed.

(** C1 (as amended).  At a positive zoom scale (the scale of every
    reachable state is, see [EditorFacts.scale_run]), for a selection that
    is neither empty nor collapsed on a page whose wrapper is mounted,
    capture creates no highlight exactly
    when the rectangles with non-zero width and height are none; otherwise
    it appends one highlight for the active page holding all produced
    rectangles, unfiltered and in selection order, marks the session dirty,
    and at least one rectangle of that highlight has both dimensions
    non-zero. *)
Theorem capture_aborts_iff_all_degenerate :
  forall st sel pageRect newId,
    0 < scale st ->
    Dom.rangeCount sel <> 0%nat ->
    Dom.isCollapsed sel = false ->
    let produced :=
      map (fun cr => toStorageRect cr pageRect (scale st))
          (Dom.clientRects sel) in
    let st' := fst (addHighlight (Some sel) (Some pageRect) newId st) in
    (highlights st' = highlights st <-> nonDegenerate produced = [])
    /\ (nonDegenerate produced = [] -> st' = st)
    /\ (nonDegenerate produced <> [] ->
          exists h,
            highlights st' = highlights st ++ [h]
            /\ rects h = produced
            /\ page_number h = pageNumber st
            /\ hasUnsavedChanges st' = true
            /\ Exists (fun r => ~ Rect.width r == 0 /\ ~ Rect.height r == 0)
                      (rects h)).
Proof.
  intros st sel pageRect newId _ Hcount Hcoll produced st'.
  assert (Hguard : Nat.eqb (Dom.rangeCount sel) 0 || Dom.isCollapsed sel
                   = false).
  { rewrite Hcoll, orb_false_r. now apply Nat.eqb_neq. }
  assert (Hst' : st' =
    if Nat.eqb (length produced) 0 || forallb degenerate produced
    then st
    else setHasUnsavedChanges true
           (setHighlights
              (highlights st ++
               [{| id := newId; page_number := pageNumber st;
                   rects := produced; selected_text := Dom.text sel;
                   color := Some (selectedHighlightColor st) |}]) st)).
  { unfold st', addHighlight. rewrite Hguard. fold produced.
    destruct (Nat.eqb (length produced) 0 || forallb degenerate produced);
      reflexivity. }
  pose proof (aborts_when produced) as Hab.
  destruct (Nat.eqb (length produced) 0 || forallb degenerate produced)
    eqn:E.
  - assert (Hnil : nonDegenerate produced = []) by (apply Hab; reflexivity).
    rewrite Hst'. split; [tauto|]. split; [reflexivity|]. congruence.
  - assert (Hne : nonDegenerate produced <> []).
    { intros Hnil. apply Hab in Hnil. discriminate. }
    rewrite Hst'. simpl. split.
    { split; [intros Heq; exfalso; exact (app_one_neq _ _ Heq) | tauto]. }
    split; [tauto|].
    intros _. eexists. split; [reflexivity|]. simpl.
    repeat split.
    unfold nonDegenerate in Hne.
    destruct (List.filter (fun r => negb (degenerate r)) produced)
      as [|r rs] eqn:F; [congruence|].
    assert (Hin : In r (List.filter (fun r => negb (degenerate r)) produced))
      by (rewrite F; now left).
    apply filter_In in Hin as [Hin Hnd].
    apply List.Exists_exists. exists r. split; [exact Hin|].
    apply degenerate_false. now destruct (degenerate r).
Qed.

Lemma capture_aborts_iff_all_degenerate_witness :
  let st' := fst (addHighlight (Some two_line_selection) (Some page_wrapper)
                    (str "hl-1") initial) in
  exists h, highlights st' = [h] /\ length (rects h) = 2%nat.
Proof.
  destruct (capture_aborts_iff_all_degenerate initial two_line_selection
              page_wrapper (str "hl-1")) as (_ & _ & H).
  - reflexivity.
  - simpl. lia.
  - reflexivity.
  - destruct H as (h & Hh & Hr & _).
    + vm_compute. discriminate.
    + exists h. split; [exact Hh|]. rewrite Hr. reflexivity.
Defined.

(** The rectangle of width 0 is not dropped: it is stored in the new
    highlight, next to the rectangle of width 50. *)
Lemma capture_keeps_degenerate_rectangle :
  let st' := fst (addHighlight (Some two_line_selection) (Some page_wrapper)
                    (str "hl-1") initial) in
  exists h r,
    In h (highlights st') /\ In r (rects h)
    /\ Rect.width r == 0
    /\ rects h <> nonDegenerate (rects h).
Proof.
  simpl. eexists. eexists. split; [left; reflexivity|].
  split; [left; reflexivity|].
  split; [reflexivity|].
  vm_compute. discriminate.
Qed.

End CaptureFacts.

(** ** The dirty flag *)

Module SessionFacts.

Import Js Editor Spec Samples.

Lemma addHighlight_dirty sel div newId st :
  highlights (fst (addHighlight sel div newId st)) <> highlights st ->
  hasUnsavedChanges (fst (addHighlight sel div newId st)) = true.
Proof.
  unfold addHighlight.
  destruct sel as [sel|]; [|intros H; now elim H].
  destruct (Nat.eqb (Dom.rangeCount sel) 0 || Dom.isCollapsed sel);
    [intros H; now elim H|].
  destruct div as [pageRect|]; [|intros H; now elim H].
  match goal with |- context [if ?b then _ else _] => destruct b end.
  - intros H; now elim H.
  - reflexivity.
Qed.

Lemma addHighlight_keeps_dirty sel div newId st :
  hasUnsavedChanges st = true ->
  hasUnsavedChanges (fst (addHighlight sel div newId st)) = true.
Proof.
  intros Hd. unfold addHighlight.
  destruct sel as [sel|]; [|exact Hd].
  destruct (Nat.eqb (Dom.rangeCount sel) 0 || Dom.isCollapsed sel);
    [exact Hd|].
  destruct div as [pageRect|]; [|exact Hd].
  match goal with |- context [if ?b then _ else _] => destruct b end.
  - exact Hd.
  - reflexivity.
Qed.

(** C7 (as amended).  Every capture that adds a highlight and every
    removal set the dirty flag; a save whose request fails, by a non-ok
    response or by a network error, leaves the flag as it was, so a set
    flag stays set; a save that ends with an ok response clears it; and the
    only events that clear a set flag are that successful save and the
    events that open a document or install the highlights loaded for it. *)
Theorem dirty_flag_cleared_by_save_or_load :
  (forall st sel div newId,
      highlights (step st (AddHighlight sel div newId)) <> highlights st ->
      hasUnsavedChanges (step st (AddHighlight sel div newId)) = true)
  /\ (forall st i, hasUnsavedChanges (step st (DeleteHighlight i)) = true)
  /\ (forall st,
        hasUnsavedChanges (step st (SaveSettled (SaveResponded false)))
        = hasUnsavedChanges st
        /\ hasUnsavedChanges (step st (SaveSettled SaveRejected))
           = hasUnsavedChanges st)
  /\ (forall st,
        hasUnsavedChanges (step st (SaveSettled (SaveResponded true)))
        = false)
  /\ (forall st e,
        hasUnsavedChanges st = true ->
        hasUnsavedChanges (step st e) = false ->
        e = SaveSettled (SaveResponded true) \/ opensOrLoads e).
Proof.
  split; [intros st sel div newId; apply addHighlight_dirty|].
  split; [reflexivity|].
  split; [intros st; split; reflexivity|].
  split; [reflexivity|].
  intros st e Hd Hc.
  destruct e; simpl in *; try (right; exact I); try congruence.
  - rewrite addHighlight_keeps_dirty in Hc by exact Hd. discriminate.
  - unfold handleSaveHighlights in Hc.
    destruct (currentPdfId st) as [[|c i]|]; simpl in Hc; try congruence.
    rewrite Hd in Hc. simpl in Hc. congruence.
  - destruct o as [[|]|]; simpl in Hc; try congruence. now left.
Qed.

(** Opening the document sends the request for its stored highlights; the
    flag is set by the capture and is cleared when that request fails,
    although no save has taken place. *)
Lemma dirty_flag_cleared_without_save :
  snd (onDocumentLoadSuccess 3
         (run initial [PropsChanged (Some managed_url) (Some managed_id)]))
  = true
  /\ hasUnsavedChanges (run initial capture_before_load) = true
  /\ hasUnsavedChanges
       (run initial (capture_before_load ++ [LoadSettled LoadRejected]))
     = false
  /\ ~ In (SaveSettled (SaveResponded true))
          (capture_before_load ++ [LoadSettled LoadRejected]).
Proof.
  split; [reflexivity|]. split; [reflexivity|]. split; [reflexivity|].
  simpl. intros [H|[H|[H|[H|[]]]]]; discriminate H.
Qed.

Lemma dirty_flag_cleared_by_save_or_load_witness :
  let st := run initial capture_before_load in
  hasUnsavedChanges st = true
  /\ hasUnsavedChanges (step st (LoadSettled LoadRejected)) = false
  /\ (LoadSettled LoadRejected = SaveSettled (SaveResponded true)
      \/ opensOrLoads (LoadSettled LoadRejected)).
Proof.
  intros st.
  assert (Hd : hasUnsavedChanges st = true) by reflexivity.
  assert (Hc : hasUnsavedChanges (step st (LoadSettled LoadRejected)) = false)
    by reflexivity.
  split; [exact Hd|]. split; [exact Hc|].
  exact (proj2 (proj2 (proj2 (proj2 dirty_flag_cleared_by_save_or_load)))
           st (LoadSettled LoadRejected) Hd Hc).
Defined.

End SessionFacts.

Module SortFacts.

Import Js Spec.

Section StableSort.

Context {A : Type} (cmp : A -> A -> number) (key : A -> Q) (P : A -> Prop).

Hypothesis cmp_key : forall a b, P a -> P b -> cmp a b = Num (key a - key b).

Lemma follows_true a b : P a -> P b -> follows cmp a b = true -> key b < key a.
Proof.
  intros Ha Hb. unfold follows. rewrite cmp_key by assumption.
  intros H. apply negb_true_iff in H.
  assert (Hn : ~ key a - key b <= 0) by (rewrite <- Qle_bool_iff; congruence).
  apply Qnot_le_lt in Hn. lra.
Qed.

Lemma follows_false a b :
  P a -> P b -> follows cmp a b = false -> key a <= key b.
Proof.
  intros Ha Hb. unfold follows. rewrite cmp_key by assumption.
  intros H. apply negb_false_iff in H. apply Qle_bool_iff in H. lra.
Qed.

Lemma insert_perm x l : Permutation (insert cmp x l) (x :: l).
Proof.
  induction l as [|y l IH]; simpl.
  - reflexivity.
  - destruct (follows cmp x y).
    + rewrite IH. apply perm_swap.
    + reflexivity.
Qed.

Lemma sort_perm l : Permutation (sort cmp l) l.
Proof.
  induction l as [|x l IH]; simpl.
  - reflexivity.
  - rewrite insert_perm. now constructor.
Qed.

Lemma sort_Forall (Q0 : A -> Prop) l : Forall Q0 l -> Forall Q0 (sort cmp l).
Proof.
  intros H. eapply Permutation_Forall; [symmetry; apply sort_perm|exact H].
Qed.

Lemma insert_sorted x l :
  P x -> Forall P l -> StronglySorted (ascendingBy key) l ->
  StronglySorted (ascendingBy key) (insert cmp x l).
Proof.
  intros Hx Hl Hs. induction Hs as [|y l Hs IH Hy]; simpl.
  - repeat constructor.
  - apply Forall_cons_1 in Hl as [Hpy Hl].
    destruct (follows cmp x y) eqn:E.
    + constructor; [now apply IH|].
      eapply Permutation_Forall; [symmetry; apply insert_perm|].
      constructor; [|exact Hy].
      apply follows_true in E; try assumption. unfold ascendingBy. lra.
    + apply follows_false in E; try assumption.
      constructor; [now constructor|].
      constructor; [exact E|].
      eapply List.Forall_impl; [|exact Hy].
      intros z Hz. unfold ascendingBy in *. lra.
Qed.

Lemma sort_sorted l :
  Forall P l -> StronglySorted (ascendingBy key) (sort cmp l).
Proof.
  induction 1 as [|x l Hx Hl IH]; simpl.
  - constructor.
  - apply insert_sorted; [exact Hx|now apply sort_Forall|exact IH].
Qed.

Lemma sorted_sort_id l :
  Forall P l -> StronglySorted (ascendingBy key) l -> sort cmp l = l.
Proof.
  intros Hl Hs. induction Hs as [|x l Hs IH Hx]; simpl.
  - reflexivity.
  - apply Forall_cons_1 in Hl as [Hpx Hl]. rewrite IH by exact Hl.
    destruct l as [|y l']; [reflexivity|]. simpl.
    apply Forall_cons_1 in Hx as [Hxy _].
    apply Forall_cons_1 in Hl as [Hpy _].
    destruct (follows cmp x y) eqn:E; [|reflexivity].
    apply follows_true in E; try assumption. unfold ascendingBy in Hxy. lra.
Qed.

Lemma sort_idem l : Forall P l -> sort cmp (sort cmp l) = sort cmp l.
Proof.
  intros Hl.
  apply sorted_sort_id; [now apply sort_Forall|now apply sort_sorted].
Qed.

Lemma insert_insertLast x h s :
  P x -> P h -> Forall P s ->
  insert cmp x (insertLast cmp h s) = insertLast cmp h (insert cmp x s).
Proof.
  intros Hx Hh Hs. induction Hs as [|y s Hy Hs IH]; simpl.
  - destruct (follows cmp x h); reflexivity.
  - destruct (follows cmp y h) eqn:Eyh, (follows cmp x y) eqn:Exy; simpl;
      rewrite ?Eyh, ?Exy.
    + assert (Exh : follows cmp x h = true).
      { apply follows_true in Eyh, Exy; try assumption.
        destruct (follows cmp x h) eqn:E; [reflexivity|].
        apply follows_false in E; try assumption. lra. }
      rewrite Exh. reflexivity.
    + destruct (follows cmp x h); reflexivity.
    + now rewrite IH.
    + assert (Exh : follows cmp x h = false).
      { apply follows_false in Eyh, Exy; try assumption.
        destruct (follows cmp x h) eqn:E; [|reflexivity].
        apply follows_true in E; try assumption. lra. }
      rewrite Exh. reflexivity.
Qed.

Lemma sort_snoc l h :
  P h -> Forall P l -> sort cmp (l ++ [h]) = insertLast cmp h (sort cmp l).
Proof.
  intros Hh Hl. induction Hl as [|x l Hx Hl IH]; simpl.
  - reflexivity.
  - rewrite IH.
    apply insert_insertLast; [exact Hx|exact Hh|now apply sort_Forall].
Qed.

Lemma sort_push l h :
  P h -> Forall P l -> sort cmp (sort cmp l ++ [h]) = sort cmp (l ++ [h]).
Proof.
  intros Hh Hl.
  rewrite sort_snoc by (try apply sort_Forall; assumption).
  rewrite sort_idem by exact Hl.
  symmetry. now apply sort_snoc.
Qed.

Lemma insert_filter (t : Q) x l :
  P x -> Forall P l ->
  List.filter (fun a => Qeq_bool (key a) t) (insert cmp x l)
  = List.filter (fun a => Qeq_bool (key a) t) (x :: l).
Proof.
  intros Hx Hl. induction Hl as [|y l Hy Hl IH].
  - reflexivity.
  - simpl insert. destruct (follows cmp x y) eqn:E; [|reflexivity].
    apply follows_true in E; try assumption.
    cbn [List.filter] in *. rewrite IH.
    destruct (Qeq_bool (key x) t) eqn:Ex; [|reflexivity].
    destruct (Qeq_bool (key y) t) eqn:Ey; [|reflexivity].
    apply Qeq_bool_iff in Ex, Ey. lra.
Qed.

Lemma sort_filter (t : Q) l :
  Forall P l ->
  List.filter (fun a => Qeq_bool (key a) t) (sort cmp l)
  = List.filter (fun a => Qeq_bool (key a) t) l.
Proof.
  induction 1 as [|x l Hx Hl IH]; simpl sort.
  - reflexivity.
  - rewrite insert_filter by (try apply sort_Forall; assumption).
    cbn [List.filter]. now rewrite IH.
Qed.

End StableSort.

End SortFacts.

Module GroupingFacts.

Import Js Editor Spec Samples.

Lemma byFirstTop_key a b :
  hasRects a -> hasRects b -> byFirstTop a b = Num (firstTop a - firstTop b).
Proof.
  unfold hasRects, byFirstTop, firstTop.
  destruct (rects a), (rects b); congruence.
Qed.

Lemma grouped_snoc hs h :
  allHighlightsGroupedByPage (hs ++ [h])
  = <[page_number h :=
        sort byFirstTop
          (default [] (allHighlightsGroupedByPage hs !! page_number h) ++ [h])]>
      (allHighlightsGroupedByPage hs).
Proof. unfold allHighlightsGroupedByPage. now rewrite fold_left_app. Qed.

Lemma groupOf_default p hs :
  default [] (groupOf p hs) = sort byFirstTop (List.filter (onPage p) hs).
Proof. unfold groupOf. now destruct (List.filter (onPage p) hs). Qed.

Lemma filter_snoc {A : Type} (f : A -> bool) (l : list A) (x : A) :
  List.filter f (l ++ [x])
  = if f x then List.filter f l ++ [x] else List.filter f l.
Proof.
  rewrite List.filter_app. simpl. destruct (f x); [reflexivity|].
  apply app_nil_r.
Qed.

Lemma onPage_iff p h : onPage p h = true <-> page_number h = p.
Proof. unfold onPage. apply Z.eqb_eq. Qed.

Lemma filter_hasRects f hs :
  Forall hasRects hs -> Forall hasRects (List.filter f hs).
Proof.
  rewrite !List.Forall_forall. intros H x Hx.
  apply filter_In in Hx as [Hx _]. now apply H.
Qed.

Lemma grouped_lookup hs :
  Forall hasRects hs ->
  forall p, allHighlightsGroupedByPage hs !! p = groupOf p hs.
Proof.
  induction hs as [|h hs IH] using rev_ind; intros Hhs p.
  - reflexivity.
  - apply Forall_app in Hhs as [Hhs Hh]. apply Forall_cons_1 in Hh as [Hh _].
    rewrite grouped_snoc. unfold groupOf at 1. rewrite filter_snoc.
    destruct (onPage p h) eqn:E.
    + apply onPage_iff in E. subst p.
      rewrite lookup_insert_eq, IH, groupOf_default by exact Hhs.
      rewrite (SortFacts.sort_push byFirstTop firstTop hasRects byFirstTop_key)
        by (try apply filter_hasRects; assumption).
      destruct (List.filter (onPage (page_number h)) hs); reflexivity.
    + assert (Hne : page_number h <> p).
      { intros Heq. apply onPage_iff in Heq. congruence. }
      rewrite lookup_insert_ne by exact Hne. now apply IH.
Qed.

Lemma numeric_key (a b : Z) :
  True -> True -> numeric a b = Num (inject_Z a - inject_Z b).
Proof. reflexivity. Qed.

Lemma Forall_True {A : Type} (l : list A) : Forall (fun _ => True) l.
Proof. induction l; constructor; auto. Qed.

Lemma ascending_distinct l :
  StronglySorted (ascendingBy inject_Z) l ->
  NoDup l -> StronglySorted Z.lt l.
Proof.
  induction 1 as [|a l Hs IH Ha]; intros Hnd.
  - constructor.
  - apply NoDup_cons_1_1 in Hnd as Hnotin.
    apply NoDup_cons_1_2 in Hnd as Hnd'.
    constructor; [now apply IH|].
    rewrite List.Forall_forall in *. intros b Hb.
    specialize (Ha b Hb). unfold ascendingBy in Ha. rewrite <- Zle_Qle in Ha.
    assert (a <> b).
    { intros ->. apply Hnotin. now apply list_elem_of_In. }
    lia.
Qed.

Lemma keys_In hs p :
  In p (map fst (map_to_list (allHighlightsGroupedByPage hs)))
  <-> is_Some (allHighlightsGroupedByPage hs !! p).
Proof.
  rewrite in_map_iff. split.
  - intros [[q l] [Hq Hin]]. simpl in Hq. subst q.
    apply list_elem_of_In, elem_of_map_to_list in Hin. now exists l.
  - intros [l Hl]. exists (p, l). split; [reflexivity|].
    now apply list_elem_of_In, elem_of_map_to_list.
Qed.

Lemma keys_NoDup hs :
  NoDup (map fst (map_to_list (allHighlightsGroupedByPage hs))).
Proof.
  replace (map fst (map_to_list (allHighlightsGroupedByPage hs)))
    with ((map_to_list (allHighlightsGroupedByPage hs)).*1).
  - apply NoDup_fst_map_to_list.
  - generalize (map_to_list (allHighlightsGroupedByPage hs)).
    intros l. induction l as [|x l IH]; simpl; [reflexivity|].
    now rewrite <- IH.
Qed.

Lemma pages_ascending hs : StronglySorted Z.lt (pagesWithHighlights hs).
Proof.
  unfold pagesWithHighlights. apply ascending_distinct.
  - apply (SortFacts.sort_sorted numeric inject_Z (fun _ => True) numeric_key).
    apply Forall_True.
  - rewrite SortFacts.sort_perm. apply keys_NoDup.
Qed.

Lemma pages_In hs p :
  In p (pagesWithHighlights hs)
  <-> is_Some (allHighlightsGroupedByPage hs !! p).
Proof.
  rewrite <- keys_In. unfold pagesWithHighlights. split; intros H.
  - eapply Permutation_in; [apply SortFacts.sort_perm|exact H].
  - eapply Permutation_in; [symmetry; apply SortFacts.sort_perm|exact H].
Qed.

Lemma groupOf_Some p hs :
  is_Some (groupOf p hs) <-> exists h, In h hs /\ page_number h = p.
Proof.
  unfold groupOf. split.
  - destruct (List.filter (onPage p) hs) as [|h l] eqn:E.
    + intros [x Hx]. discriminate.
    + intros _. exists h.
      assert (Hin : In h (List.filter (onPage p) hs)) by (rewrite E; now left).
      apply filter_In in Hin as [Hin Hp]. split; [exact Hin|].
      now apply onPage_iff.
  - intros [h [Hin Hp]].
    assert (Hf : In h (List.filter (onPage p) hs)).
    { apply filter_In. split; [exact Hin|now apply onPage_iff]. }
    destruct (List.filter (onPage p) hs); [destruct Hf|eauto].
Qed.

Lemma groups_pages hs : map fst (groupByPage hs) = pagesWithHighlights hs.
Proof.
  unfold groupByPage. rewrite map_map. simpl. apply map_id.
Qed.

(** C6.  For highlights that all have a first rectangle, the groups of the
    side bar come in strictly ascending page order, there is a group for
    exactly the pages that carry a highlight, and the group of a page holds
    exactly the highlights of that page, ordered by ascending top of their
    first rectangle, highlights with the same top keeping the order in
    which they were added. *)
Theorem groupByPage_ascending_and_stable :
  forall hs,
    Forall hasRects hs ->
    StronglySorted Z.lt (map fst (groupByPage hs))
    /\ (forall p,
          In p (map fst (groupByPage hs))
          <-> exists h, In h hs /\ page_number h = p)
    /\ (forall p l,
          In (p, l) (groupByPage hs) ->
          Permutation l (List.filter (onPage p) hs)
          /\ StronglySorted (ascendingBy firstTop) l
          /\ forall t,
               List.filter (atTop t) l
               = List.filter (atTop t) (List.filter (onPage p) hs)).
Proof.
  intros hs Hhs. rewrite groups_pages.
  split; [apply pages_ascending|].
  split.
  - intros p. rewrite pages_In, grouped_lookup by exact Hhs.
    apply groupOf_Some.
  - intros p l Hin. unfold groupByPage in Hin.
    apply in_map_iff in Hin as [q [Heq _]].
    injection Heq as -> <-.
    rewrite grouped_lookup, groupOf_default by exact Hhs.
    pose proof (filter_hasRects (onPage p) hs Hhs) as Hf.
    split; [apply SortFacts.sort_perm|].
    split.
    + now apply
        (SortFacts.sort_sorted byFirstTop firstTop hasRects byFirstTop_key).
    + intros t.
      now apply
        (SortFacts.sort_filter byFirstTop firstTop hasRects byFirstTop_key).
Qed.

Lemma six_highlights_hasRects : Forall hasRects six_highlights.
Proof. repeat constructor; discriminate. Qed.

Lemma groupByPage_ascending_and_stable_witness :
  Forall hasRects six_highlights
  /\ StronglySorted Z.lt (map fst (groupByPage six_highlights)).
Proof.
  split; [exact six_highlights_hasRects|].
  exact (proj1 (groupByPage_ascending_and_stable six_highlights
                  six_highlights_hasRects)).
Defined.

(** Page 1 before page 3; on page 3 the highlight at top 2 first, then the
    three at top 5 in the order they were added. *)
Example groupByPage_six_highlights :
  map (fun g => (fst g, map id (snd g))) (groupByPage six_highlights)
  = [ (1%Z, [str "b"; str "e"]);
      (3%Z, [str "c"; str "a"; str "d"; str "f"]) ].
Proof. vm_compute. reflexivity. Qed.

End GroupingFacts.

(** ** The sync route *)

Module SyncFacts.

Import Js Sync Spec Samples.

Lemma rowsFor_owned pdfId hs :
  List.filter (fun r => negb (rowOf pdfId r)) (rowsFor pdfId hs) = []
  /\ List.filter (rowOf pdfId) (rowsFor pdfId hs) = rowsFor pdfId hs.
Proof.
  unfold rowsFor, rowOf. induction hs as [|h hs [IH1 IH2]]; simpl.
  - split; reflexivity.
  - rewrite bool_decide_eq_true_2 by reflexivity. simpl.
    rewrite IH1. split; [reflexivity|]. f_equal. exact IH2.
Qed.

Lemma filter_twice {A : Type} (f : A -> bool) (l : list A) :
  List.filter f (List.filter f l) = List.filter f l.
Proof.
  induction l as [|x l IH]; simpl; [reflexivity|].
  destruct (f x) eqn:E; simpl; rewrite ?E, IH; reflexivity.
Qed.

Lemma filter_others_of_owned {A : Type} (f : A -> bool) (l : list A) :
  List.filter f (List.filter (fun x => negb (f x)) l) = [].
Proof.
  induction l as [|x l IH]; simpl; [reflexivity|].
  destruct (f x) eqn:E; simpl; rewrite ?E, IH; reflexivity.
Qed.

(** What a request that is answered with status 200 has done. *)
Lemma POST_ok body env db :
  status (fst (POST (Some body) env db)) = 200%Z ->
  exists pdfId hs,
    pdfId <> []
    /\ Sync.pdfId body = Some pdfId
    /\ highlights body = Some hs
    /\ table (snd (POST (Some body) env db))
       = List.filter (fun r => negb (rowOf pdfId r)) (table db)
         ++ rowsFor pdfId hs.
Proof.
  unfold POST.
  destruct (Sync.pdfId body) as [[|c rest]|]; try (simpl; discriminate).
  destruct (highlights body) as [hs|]; try (simpl; discriminate).
  unfold delete_eq.
  destruct (deleteError env); [simpl; discriminate|].
  destruct (0 <? length hs)%nat eqn:L.
  - unfold insert. destruct (insertError env); [simpl; discriminate|].
    intros _. exists (c :: rest), hs. simpl. repeat split. discriminate.
  - intros _. exists (c :: rest), hs. simpl.
    destruct hs; [|discriminate L]. simpl. rewrite app_nil_r.
    repeat split. discriminate.
Qed.

(** C8.  When the same sync request is served twice in a row and both
    runs succeed, the table after the second run is the table after the
    first, and the rows of the document are the rows written for the
    highlight set. *)
Theorem sync_twice_same_as_once :
  forall body env1 env2 db,
    let db1 := snd (POST (Some body) env1 db) in
    let db2 := snd (POST (Some body) env2 db1) in
    status (fst (POST (Some body) env1 db)) = 200%Z ->
    status (fst (POST (Some body) env2 db1)) = 200%Z ->
    table db2 = table db1
    /\ forall pdfId hs,
         Sync.pdfId body = Some pdfId -> highlights body = Some hs ->
         rowsOf pdfId db2 = rowsFor pdfId hs
         /\ rowsOf pdfId db1 = rowsFor pdfId hs.
Proof.
  intros body env1 env2 db db1 db2 H1 H2.
  destruct (POST_ok body env1 db H1) as (i & hs & Hi & Hid & Hhs & T1).
  destruct (POST_ok body env2 db1 H2) as (i' & hs' & _ & Hid' & Hhs' & T2).
  assert (i' = i) by congruence. assert (hs' = hs) by congruence.
  subst i' hs'. fold db1 in T1. fold db2 in T2.
  destruct (rowsFor_owned i hs) as [Hnone Hall].
  assert (E : table db2 = table db1).
  { rewrite T2, T1, List.filter_app, filter_twice, Hnone, app_nil_r.
    reflexivity. }
  split; [exact E|].
  intros pdfId hs0 Hp Hh.
  assert (pdfId = i) by congruence. assert (hs0 = hs) by congruence.
  subst pdfId hs0. unfold rowsOf. rewrite E, T1, List.filter_app.
  rewrite filter_others_of_owned, Hall. split; reflexivity.
Qed.

(** C10.  A request with a non-empty document id and an empty highlights
    array passes validation; when the delete call reports no error the
    route issues that delete and no insert, answers 200, and leaves no row
    of the document in the table, the rows of other documents untouched. *)
Theorem empty_sync_deletes_everything :
  forall pdfId env db,
    pdfId <> [] ->
    deleteError env = None ->
    let body := {| Sync.pdfId := Some pdfId; highlights := Some [] |} in
    let result := POST (Some body) env db in
    status (fst result) = 200%Z
    /\ calls (snd result) = calls db ++ [DeleteEq pdfId]
    /\ rowsOf pdfId (snd result) = []
    /\ table (snd result)
       = List.filter (fun r => negb (rowOf pdfId r)) (table db).
Proof.
  intros pdfId env db Hne Hdel body result.
  unfold result, body, POST. simpl.
  destruct pdfId as [|c rest]; [congruence|].
  unfold delete_eq. rewrite Hdel. simpl.
  repeat split. unfold rowsOf. simpl. apply filter_others_of_owned.
Qed.

Lemma sync_twice_same_as_once_witness :
  let db1 := snd (POST (Some sync_body) noErrors stored) in
  let db2 := snd (POST (Some sync_body) noErrors db1) in
  status (fst (POST (Some sync_body) noErrors stored)) = 200%Z
  /\ status (fst (POST (Some sync_body) noErrors db1)) = 200%Z
  /\ table db2 = table db1.
Proof.
  intros db1 db2.
  assert (H1 : status (fst (POST (Some sync_body) noErrors stored)) = 200%Z)
    by reflexivity.
  assert (H2 : status (fst (POST (Some sync_body) noErrors db1)) = 200%Z)
    by reflexivity.
  split; [exact H1|]. split; [exact H2|].
  exact (proj1 (sync_twice_same_as_once sync_body noErrors noErrors stored
                  H1 H2)).
Defined.

(** The table after one sync and after two: the row of the other document,
    then the two rows of the request. *)
Example sync_sample_tables :
  let db1 := snd (POST (Some sync_body) noErrors stored) in
  let db2 := snd (POST (Some sync_body) noErrors db1) in
  map row_page_number (table db1) = [1; 1; 2]%Z
  /\ map row_page_number (table db2) = [1; 1; 2]%Z
  /\ calls db2
     = [ DeleteEq managed_id; Insert (rowsFor managed_id
                                        (default [] (highlights sync_body)));
         DeleteEq managed_id; Insert (rowsFor managed_id
                                        (default [] (highlights sync_body))) ].
Proof. repeat split; reflexivity. Qed.

Lemma managed_id_not_empty : managed_id <> [].
Proof. discriminate. Qed.

Lemma empty_sync_deletes_everything_witness :
  let body := {| Sync.pdfId := Some managed_id; highlights := Some [] |} in
  status (fst (POST (Some body) noErrors stored)) = 200%Z
  /\ rowsOf managed_id (snd (POST (Some body) noErrors stored)) = [].
Proof.
  pose proof (empty_sync_deletes_everything managed_id noErrors stored
                managed_id_not_empty eq_refl) as H.
  simpl in H. destruct H as (Hs & _ & Hr & _).
  split; [exact Hs|exact Hr].
Defined.

End SyncFacts.

(** ** The export route *)

Module ExportFacts.

Import Js ExportPdf Spec Samples.

Lemma at_index_Some {A : Type} (l : list A) (i : Q) (a : A) :
  at_index l i = Some a ->
  nth_error l (Z.to_nat (Qnum (Qred i))) = Some a
  /\ i == inject_Z (Z.of_nat (Z.to_nat (Qnum (Qred i)))).
Proof.
  unfold at_index. pose proof (Qred_correct i) as Hred.
  destruct (Qred i) as [n d] eqn:E. cbn [Qnum Qden].
  destruct (Pos.eqb_spec d 1) as [->|]; [|simpl; discriminate].
  destruct (Z.leb_spec 0 n) as [Hn|]; [|simpl; discriminate].
  simpl. intros H. split; [exact H|].
  rewrite Z2Nat.id by exact Hn. rewrite <- Hred. reflexivity.
Qed.

Lemma drawRects_Some i size paint rs ds :
  drawRects i size paint rs = Some ds ->
  ds = map (drawCall i size paint) rs
  /\ (rs <> [] -> inRange01 (snd paint) = true).
Proof.
  revert ds. induction rs as [|r rs IH]; simpl; intros ds H.
  - injection H as <-. split; [reflexivity|congruence].
  - unfold drawRectangle in H. cbn [opacity drawCall] in H.
    destruct (inRange01 (snd paint)) eqn:E; [|discriminate].
    destruct (drawRects i size paint rs) as [ds'|]; [|discriminate].
    injection H as <-. destruct (IH ds' eq_refl) as [-> _].
    split; reflexivity.
Qed.

Lemma drawRects_inRange i size paint rs :
  inRange01 (snd paint) = true ->
  drawRects i size paint rs = Some (map (drawCall i size paint) rs).
Proof.
  intros E. induction rs as [|r rs IH]; simpl; [reflexivity|].
  unfold drawRectangle. cbn [opacity drawCall]. now rewrite E, IH.
Qed.

Lemma drawRects_outside i size paint rs :
  rs <> [] -> inRange01 (snd paint) = false ->
  drawRects i size paint rs = None.
Proof.
  intros Hne E. destruct rs as [|r rs]; [congruence|]. simpl.
  unfold drawRectangle. cbn [opacity drawCall]. now rewrite E.
Qed.

(** What one iteration draws when it does not throw. *)
Lemma drawHighlight_Some pages h ds :
  drawHighlight pages h = Some ds ->
  (ds = [] /\ ~ validPage (length pages) (pageNumber h))
  \/ (validPage (length pages) (pageNumber h)
      /\ exists i size paint,
           nth_error pages i = Some size
           /\ pageNumber h == inject_Z (Z.of_nat i) + 1
           /\ resolveColor (color h) = Some paint
           /\ ds = map (drawCall i size paint) (rects h)).
Proof.
  unfold drawHighlight, validPage.
  destruct (Qle_bool (pageNumber h) 0) eqn:E0; simpl.
  { intros H. injection H as <-. left. split; [reflexivity|].
    apply Qle_bool_iff in E0. intros [H1 _]. lra. }
  destruct (Qle_bool (pageNumber h) (inject_Z (Z.of_nat (length pages))))
    eqn:En; simpl.
  2:{ intros H. injection H as <-. left. split; [reflexivity|].
      intros [_ H2]. apply Qle_bool_iff in H2. congruence. }
  destruct (at_index pages (pageNumber h - 1)) as [size|] eqn:Ei;
    [|discriminate].
  destruct (resolveColor (color h)) as [paint|]; [|discriminate].
  intros H. apply drawRects_Some in H as [-> _].
  apply at_index_Some in Ei as [Hnth Heq].
  apply Qle_bool_iff in En.
  right. split.
  - split; [|exact En].
    set (i := Z.to_nat (Qnum (Qred (pageNumber h - 1)))) in *.
    assert (0 <= inject_Z (Z.of_nat i)).
    { change 0 with (inject_Z 0). rewrite <- Zle_Qle. lia. }
    lra.
  - eexists. exists size, paint. split; [exact Hnth|].
    split; [lra|]. split; reflexivity.
Qed.

Lemma drawHighlights_In pages hs calls :
  drawHighlights pages hs = Some calls ->
  (forall d, In d calls ->
     exists h ds, In h hs /\ drawHighlight pages h = Some ds /\ In d ds)
  /\ (forall h, In h hs ->
        exists ds, drawHighlight pages h = Some ds
                   /\ forall d, In d ds -> In d calls).
Proof.
  revert calls. induction hs as [|h hs IH]; simpl; intros calls H.
  - injection H as <-. split; [intros d []|intros h []].
  - destruct (drawHighlight pages h) as [ds|] eqn:Eh; [|discriminate].
    destruct (drawHighlights pages hs) as [calls'|]; [|discriminate].
    injection H as <-. destruct (IH calls' eq_refl) as [IH1 IH2]. split.
    + intros d Hd. apply in_app_or in Hd as [Hd|Hd].
      * exists h, ds. auto.
      * destruct (IH1 d Hd) as (h' & ds' & Hin & Hds & Hd').
        exists h', ds'. auto.
    + intros h' [<-|Hin].
      * exists ds. split; [exact Eh|]. intros d Hd. apply in_or_app. auto.
      * destruct (IH2 h' Hin) as (ds' & Hds & Hsub).
        exists ds'. split; [exact Hds|].
        intros d Hd. apply in_or_app. auto.
Qed.

(** C3.  When the export completes, every rectangle it draws comes from a
    rectangle of a highlight whose page number names the page drawn on, and
    is placed at [x = left], [y = pageHeight - top - height] with the stored
    width and height: no factor is applied, and the distance of the top
    edge from the top of the page is the stored [top].  Conversely every
    rectangle of a highlight with a valid page number is drawn so. *)
Theorem export_draws_rectangles_from_bottom_left :
  forall pages hs calls,
    drawHighlights pages hs = Some calls ->
    (forall d, In d calls ->
       exists h rect size,
         In h hs /\ In rect (rects h)
         /\ nth_error pages (page d) = Some size
         /\ pageNumber h == inject_Z (Z.of_nat (page d)) + 1
         /\ x d = Rect.left rect
         /\ y d = pageHeight size - Rect.top rect - Rect.height rect
         /\ width d = Rect.width rect
         /\ height d = Rect.height rect
         /\ y d + height d == pageHeight size - Rect.top rect)
    /\ (forall h rect,
          In h hs -> validPage (length pages) (pageNumber h) ->
          In rect (rects h) ->
          exists d size,
            In d calls
            /\ nth_error pages (page d) = Some size
            /\ pageNumber h == inject_Z (Z.of_nat (page d)) + 1
            /\ x d = Rect.left rect
            /\ y d = pageHeight size - Rect.top rect - Rect.height rect
            /\ width d = Rect.width rect
            /\ height d = Rect.height rect).
Proof.
  intros pages hs calls H.
  destruct (drawHighlights_In pages hs calls H) as [Hsound Hcomplete].
  split.
  - intros d Hd. destruct (Hsound d Hd) as (h & ds & Hin & Hds & Hd').
    apply drawHighlight_Some in Hds
      as [[-> _]|[_ (i & size & paint & Hn & Hp & _ & ->)]].
    + destruct Hd'.
    + apply in_map_iff in Hd' as (rect & <- & Hrect).
      exists h, rect, size. simpl. repeat split; try assumption. ring.
  - intros h rect Hin Hvalid Hrect.
    destruct (Hcomplete h Hin) as (ds & Hds & Hsub).
    apply drawHighlight_Some in Hds
      as [[_ Hno]|[_ (i & size & paint & Hn & Hp & _ & ->)]].
    + contradiction.
    + exists (drawCall i size paint rect), size.
      simpl. repeat split; try assumption.
      apply Hsub, in_map. exact Hrect.
Qed.


Lemma star_greedy {T : Type} p (a rest : jsstring)
  (k : jsstring -> option T) t :
  Forall (fun c => p c = true) a -> stops p rest ->
  k rest = Some t -> star p (a ++ rest) k = Some t.
Proof.
  intros Ha Hstop Hk. induction Ha as [|c a Hc Ha IH]; simpl.
  - destruct rest as [|c rest]; simpl in *; [exact Hk|].
    now rewrite Hstop.
  - now rewrite Hc, IH.
Qed.

Lemma consumed_app (s rest : jsstring) : consumed (s ++ rest) rest = s.
Proof.
  unfold consumed. rewrite length_app.
  replace (length s + length rest - length rest)%nat with (length s) by lia.
  rewrite firstn_app, Nat.sub_diag, firstn_all. simpl. apply app_nil_r.
Qed.

Lemma exec_group_plus {T : Type} i p (R rest : jsstring) c
  (k : jsstring -> captures -> option T) t :
  R <> [] -> Forall (fun c => p c = true) R -> stops p rest ->
  k rest (set_capture i R c) = Some t ->
  exec_at (Group i (Plus p)) (R ++ rest) c k = Some t.
Proof.
  intros Hne HR Hstop Hk. destruct R as [|r0 R]; [congruence|].
  apply Forall_cons_1 in HR as [Hr0 HR]. simpl. rewrite Hr0.
  apply star_greedy; [exact HR|exact Hstop|].
  change (r0 :: R ++ rest) with ((r0 :: R) ++ rest).
  now rewrite consumed_app.
Qed.

Lemma exec_star {T : Type} p (w rest : jsstring) c
  (k : jsstring -> captures -> option T) t :
  Forall (fun c => p c = true) w -> stops p rest ->
  k rest c = Some t ->
  exec_at (Star p) (w ++ rest) c k = Some t.
Proof. intros Hw Hstop Hk. simpl. now apply star_greedy. Qed.

Lemma regex_match_here r s m :
  exec_at r s no_captures (fun _ c => Some c) = Some m ->
  regex_match r s = Some m.
Proof. intros H. destruct s; simpl; now rewrite H. Qed.

Lemma digit_cases c :
  isDigit c = true ->
  (c = 48 \/ c = 49 \/ c = 50 \/ c = 51 \/ c = 52 \/ c = 53 \/ c = 54
   \/ c = 55 \/ c = 56 \/ c = 57)%N.
Proof.
  unfold isDigit. intros H. apply andb_true_iff in H as [H1 H2].
  apply N.leb_le in H1, H2. lia.
Qed.

Lemma digit_not_space c : isDigit c = true -> isSpace c = false.
Proof.
  intros H. apply digit_cases in H.
  repeat (destruct H as [->|H]; [reflexivity|]). now subst c.
Qed.

Lemma digitOrDot_not_space c : isDigitOrDot c = true -> isSpace c = false.
Proof.
  unfold isDigitOrDot. intros H. apply orb_true_iff in H as [H|H].
  - now apply digit_not_space.
  - apply N.eqb_eq in H. now subst c.
Qed.

Lemma stops_at_run (p q : N -> bool) (a rest : jsstring) :
  (forall c, q c = true -> p c = false) ->
  a <> [] -> Forall (fun c => q c = true) a -> stops p (a ++ rest).
Proof.
  intros Hpq Hne Ha. destruct a as [|c a]; [congruence|].
  apply Forall_cons_1 in Ha as [Hc _]. simpl. now apply Hpq.
Qed.

Section Steps.

Context {T : Type} (k : jsstring -> captures -> option T) (t : T).

Lemma seq_lit a r s c :
  exec_at r s c k = Some t -> exec_at (Seq (Lit a) r) (a :: s) c k = Some t.
Proof. intros H. simpl. now rewrite N.eqb_refl. Qed.

Lemma seq_opt_lit_take a r s c :
  exec_at r s c k = Some t ->
  exec_at (Seq (Opt (Lit a)) r) (a :: s) c k = Some t.
Proof. intros H. simpl. now rewrite N.eqb_refl, H. Qed.

Lemma seq_opt_lit_skip a b r s c :
  a <> b ->
  exec_at r (b :: s) c k = Some t ->
  exec_at (Seq (Opt (Lit a)) r) (b :: s) c k = Some t.
Proof.
  intros Hab H. simpl. apply N.eqb_neq in Hab. now rewrite Hab.
Qed.

Lemma seq_opt_skip a b r' r s c :
  a <> b ->
  exec_at r (b :: s) c k = Some t ->
  exec_at (Seq (Opt (Seq (Lit a) r')) r) (b :: s) c k = Some t.
Proof.
  intros Hab H. simpl. apply N.eqb_neq in Hab. now rewrite Hab.
Qed.

Lemma seq_opt_take r' r s c :
  exec_at r' s c (fun s' c' => exec_at r s' c' k) = Some t ->
  exec_at (Seq (Opt r') r) s c k = Some t.
Proof. intros H. simpl. now rewrite H. Qed.

Lemma seq_group_plus i p r (R s : jsstring) c :
  R <> [] -> Forall (fun c => p c = true) R -> stops p s ->
  exec_at r s (set_capture i R c) k = Some t ->
  exec_at (Seq (Group i (Plus p)) r) (R ++ s) c k = Some t.
Proof.
  intros Hne HR Hstop H.
  change (exec_at (Group i (Plus p)) (R ++ s) c
            (fun s' c' => exec_at r s' c' k) = Some t).
  now apply exec_group_plus.
Qed.

Lemma seq_star p r (w s : jsstring) c :
  Forall (fun c => p c = true) w -> stops p s ->
  exec_at r s c k = Some t ->
  exec_at (Seq (Star p) r) (w ++ s) c k = Some t.
Proof.
  intros Hw Hstop H.
  change (exec_at (Star p) (w ++ s) c (fun s' c' => exec_at r s' c' k)
          = Some t).
  now apply exec_star.
Qed.

End Steps.

Lemma colorPattern_unfold :
  colorPattern =
  Seq (Lit 114) (Seq (Lit 103) (Seq (Lit 98) (Seq (Opt (Lit 97))
  (Seq (Lit 40)
  (Seq (Group 1 (Plus isDigit)) (Seq (Lit 44) (Seq (Star isSpace)
  (Seq (Group 2 (Plus isDigit)) (Seq (Lit 44) (Seq (Star isSpace)
  (Seq (Group 3 (Plus isDigit))
  (Seq (Opt (Seq (Lit 44) (Seq (Star isSpace)
                             (Group 4 (Plus isDigitOrDot)))))
       (Lit 41))))))))))))).
Proof. reflexivity. Qed.

Lemma colorText_unfold a R w1 G w2 B alpha :
  colorText a R w1 G w2 B alpha =
  (114 :: 103 :: 98 ::
   (if a then [97] else []) ++
   40 :: R ++ 44 :: w1 ++ G ++ 44 :: w2 ++ B ++
   match alpha with
   | Some (w3, A) => 44 :: w3 ++ A ++ [41]
   | None => [41]
   end)%N.
Proof. unfold colorText. destruct alpha as [[w3 A]|]; reflexivity. Qed.

Lemma colorBody_matches R w1 G w2 B alpha :
  digits R -> digits G -> digits B -> spaces w1 -> spaces w2 ->
  alphaWritten alpha ->
  exec_at colorBody
    (40 :: R ++ 44 :: w1 ++ G ++ 44 :: w2 ++ B ++
     match alpha with
     | Some (w3, A) => 44 :: w3 ++ A ++ [41]
     | None => [41]
     end)%N
    no_captures (fun _ c => Some c)
  = Some (colorCaptures R G B alpha).
Proof.
  intros [HR0 HR] [HG0 HG] [HB0 HB] Hw1 Hw2 Halpha.
  unfold colorBody, colorCaptures.
  apply seq_lit.
  apply seq_group_plus; [exact HR0|exact HR|reflexivity|].
  apply seq_lit.
  apply seq_star; [exact Hw1| |].
  { apply (stops_at_run _ isDigit); auto using digit_not_space. }
  apply seq_group_plus; [exact HG0|exact HG|reflexivity|].
  apply seq_lit.
  apply seq_star; [exact Hw2| |].
  { apply (stops_at_run _ isDigit); auto using digit_not_space. }
  destruct alpha as [[w3 A]|].
  - destruct Halpha as [Hw3 [HA0 HA]].
    apply seq_group_plus; [exact HB0|exact HB|reflexivity|].
    apply seq_opt_take. apply seq_lit.
    apply seq_star; [exact Hw3| |].
    { apply (stops_at_run _ isDigitOrDot); auto using digitOrDot_not_space. }
    apply exec_group_plus; [exact HA0|exact HA|reflexivity|].
    reflexivity.
  - apply seq_group_plus; [exact HB0|exact HB|reflexivity|].
    reflexivity.
Qed.

Lemma colorPattern_colorText a R w1 G w2 B alpha :
  digits R -> digits G -> digits B -> spaces w1 -> spaces w2 ->
  alphaWritten alpha ->
  regex_match colorPattern (colorText a R w1 G w2 B alpha)
  = Some (colorCaptures R G B alpha).
Proof.
  intros HR HG HB Hw1 Hw2 Halpha.
  pose proof (colorBody_matches R w1 G w2 B alpha HR HG HB Hw1 Hw2 Halpha)
    as Hbody.
  apply regex_match_here.
  rewrite colorPattern_unfold, colorText_unfold.
  do 3 apply seq_lit.
  destruct a.
  - apply seq_opt_lit_take. exact Hbody.
  - apply seq_opt_lit_skip; [discriminate|exact Hbody].
Qed.

Lemma export_draws_rectangles_from_bottom_left_witness :
  let calls := [drawCall 0 page_800 (yellow, Num 0.3) stored_rect] in
  drawHighlights [page_800] [on_page 1] = Some calls
  /\ forall d, In d calls ->
       exists h rect size,
         In h [on_page 1] /\ In rect (rects h)
         /\ nth_error [page_800] (page d) = Some size
         /\ pageNumber h == inject_Z (Z.of_nat (page d)) + 1
         /\ x d = Rect.left rect
         /\ y d = pageHeight size - Rect.top rect - Rect.height rect
         /\ width d = Rect.width rect
         /\ height d = Rect.height rect
         /\ y d + height d == pageHeight size - Rect.top rect.
Proof.
  intros calls.
  assert (H : drawHighlights [page_800] [on_page 1] = Some calls)
    by reflexivity.
  split; [exact H|].
  exact (proj1 (export_draws_rectangles_from_bottom_left
                  [page_800] [on_page 1] calls H)).
Defined.

(** The example of the specification: top 10, left 5, 100 by 20 on a page
    800 high is drawn at x = 5, y = 770, 100 by 20. *)
Example export_coordinate_inversion :
  exists d,
    drawHighlights [page_800] [on_page 1] = Some [d]
    /\ x d == 5 /\ y d == 770 /\ width d == 100 /\ height d == 20.
Proof.
  eexists. split; [reflexivity|]. repeat split; reflexivity.
Qed.

Lemma span_all p (s : jsstring) :
  Forall (fun c => p c = true) s -> span p s = (s, []).
Proof.
  induction 1 as [|c s Hc Hs IH]; simpl; [reflexivity|].
  now rewrite Hc, IH.
Qed.

Lemma parseInt_digits (s : jsstring) :
  digits s -> parseInt s = Num (inject_Z (decimal s)).
Proof.
  intros [Hne Hs]. unfold parseInt. rewrite span_all by exact Hs. simpl.
  destruct s; [congruence|reflexivity].
Qed.

Lemma parseFloat_digits (s : jsstring) :
  digits s -> parseFloat s = Num (inject_Z (decimal s)).
Proof.
  intros [Hne Hs]. unfold parseFloat. rewrite span_all by exact Hs.
  destruct s; [congruence|reflexivity].
Qed.

Lemma decimal_from_nonneg (ds : jsstring) :
  forall acc,
    (0 <= acc)%Z -> Forall (fun c => isDigit c = true) ds ->
    (0 <= fold_left (fun acc c => (acc * 10 + (Z.of_N c - 48))%Z) ds acc)%Z.
Proof.
  induction ds as [|c ds IH]; simpl; intros acc Hacc Hd; [exact Hacc|].
  apply Forall_cons_1 in Hd as [Hc Hd]. apply IH; [|exact Hd].
  unfold isDigit in Hc. apply andb_true_iff in Hc as [H1 _].
  apply N.leb_le in H1. lia.
Qed.

Lemma decimal_nonneg (ds : jsstring) : digits ds -> (0 <= decimal ds)%Z.
Proof. intros [_ Hd]. now apply decimal_from_nonneg. Qed.

(** A colour component passes the range assertion of [rgb] exactly when
    it is written as a number up to 255. *)
Lemma inRange01_channel (ds : jsstring) :
  digits ds -> inRange01 (channel ds) = (decimal ds <=? 255)%Z.
Proof.
  intros Hd. apply decimal_nonneg in Hd.
  unfold channel, inRange01. set (z := decimal ds) in *.
  assert (E : inject_Z z / 255 == inject_Z z * (1 # 255)) by field.
  assert (H0 : 0 <= inject_Z z).
  { change 0 with (inject_Z 0). now rewrite <- Zle_Qle. }
  destruct (Z.leb_spec z 255) as [Hle|Hgt].
  - apply andb_true_iff. rewrite !Qle_bool_iff, E.
    assert (inject_Z z <= 255).
    { change 255 with (inject_Z 255). now rewrite <- Zle_Qle. }
    split; lra.
  - apply andb_false_iff. right.
    destruct (Qle_bool (inject_Z z / 255) 1) eqn:Eb; [|reflexivity].
    apply Qle_bool_iff in Eb. rewrite E in Eb.
    assert (255 < inject_Z z).
    { change 255 with (inject_Z 255). now rewrite <- Zlt_Qlt. }
    lra.
Qed.

Lemma rgb_yellow : rgb (Num 1) (Num 1) (Num 0) = Some yellow.
Proof. reflexivity. Qed.

Lemma resolveColor_fallback color :
  color = None \/ color = Some []
  \/ (exists c, color = Some c /\ regex_match colorPattern c = None) ->
  resolveColor color = Some (yellow, Num 0.3).
Proof.
  unfold resolveColor. rewrite rgb_yellow.
  intros [->|[->|(c & -> & H)]]; [reflexivity|reflexivity|].
  destruct c; [reflexivity|]. now rewrite H.
Qed.

Lemma resolveColor_match c m :
  c <> [] -> regex_match colorPattern c = Some m ->
  resolveColor (Some c)
  = match rgb (num_div (parseInt (capture m 1)) 255)
              (num_div (parseInt (capture m 2)) 255)
              (num_div (parseInt (capture m 3)) 255) with
    | None => None
    | Some fill =>
        Some (fill, match m 4%nat with
                    | Some alpha => parseFloat alpha
                    | None => Num 1.0
                    end)
    end.
Proof.
  intros Hne H. unfold resolveColor. rewrite rgb_yellow.
  destruct c; [congruence|]. now rewrite H.
Qed.

Lemma colorText_not_empty a R w1 G w2 B alpha :
  colorText a R w1 G w2 B alpha <> [].
Proof. rewrite colorText_unfold. discriminate. Qed.

Lemma resolveColor_colorText a R w1 G w2 B alpha :
  digits R -> digits G -> digits B -> spaces w1 -> spaces w2 ->
  alphaWritten alpha ->
  resolveColor (Some (colorText a R w1 G w2 B alpha))
  = if ((decimal R <=? 255) && (decimal G <=? 255)
        && (decimal B <=? 255))%Z
    then Some (channels R G B,
               match alpha with
               | Some (_, A) => parseFloat A
               | None => Num 1.0
               end)
    else None.
Proof.
  intros HR HG HB Hw1 Hw2 Halpha.
  pose proof (colorPattern_colorText a R w1 G w2 B alpha HR HG HB Hw1 Hw2
                Halpha) as Hm.
  etransitivity;
    [exact (resolveColor_match _ _ (colorText_not_empty _ _ _ _ _ _ _) Hm)|].
  assert (H1 : capture (colorCaptures R G B alpha) 1 = R)
    by (destruct alpha as [[w3 A]|]; reflexivity).
  assert (H2 : capture (colorCaptures R G B alpha) 2 = G)
    by (destruct alpha as [[w3 A]|]; reflexivity).
  assert (H3 : capture (colorCaptures R G B alpha) 3 = B)
    by (destruct alpha as [[w3 A]|]; reflexivity).
  assert (H4 : colorCaptures R G B alpha 4%nat
               = match alpha with Some (_, A) => Some A | None => None end)
    by (destruct alpha as [[w3 A]|]; reflexivity).
  rewrite H1, H2, H3, H4, !parseInt_digits by assumption.
  change (num_div (Num (inject_Z (decimal R))) 255) with (channel R).
  change (num_div (Num (inject_Z (decimal G))) 255) with (channel G).
  change (num_div (Num (inject_Z (decimal B))) 255) with (channel B).
  unfold rgb. rewrite !inRange01_channel by assumption.
  destruct ((decimal R <=? 255) && (decimal G <=? 255)
            && (decimal B <=? 255))%Z; [|reflexivity].
  destruct alpha as [[w3 A]|]; reflexivity.
Qed.

Lemma drawHighlight_skips pages h :
  pageNumber h <= 0
  \/ inject_Z (Z.of_nat (length pages)) < pageNumber h ->
  drawHighlight pages h = Some [].
Proof.
  intros H. unfold drawHighlight.
  destruct (Qle_bool (pageNumber h) 0) eqn:E0; [reflexivity|].
  destruct (Qle_bool (pageNumber h) (inject_Z (Z.of_nat (length pages))))
    eqn:En; [|reflexivity].
  exfalso. apply Qle_bool_iff in En.
  assert (H0 : ~ pageNumber h <= 0) by (rewrite <- Qle_bool_iff; congruence).
  destruct H as [H|H]; [contradiction|lra].
Qed.

Lemma Qred_inject_Z (z : Z) : Qred (inject_Z z) = inject_Z z.
Proof.
  unfold Qred, inject_Z.
  pose proof (Z.ggcd_gcd z 1) as Hg.
  pose proof (Z.ggcd_correct_divisors z 1) as Hd.
  destruct (Z.ggcd z 1) as [g [a b]]. simpl in *.
  rewrite Z.gcd_1_r in Hg. subst g. destruct Hd as [Ha Hb].
  assert (a = z) by lia. assert (b = 1%Z) by lia. subst a b. reflexivity.
Qed.

Lemma at_index_integer {A : Type} (l : list A) (q : Q) (z : Z) :
  q == inject_Z z -> (0 <= z < Z.of_nat (length l))%Z ->
  at_index l q <> None.
Proof.
  intros Hq Hz. unfold at_index.
  rewrite (Qred_complete _ _ Hq), Qred_inject_Z. simpl.
  destruct (Z.leb_spec 0 z); [|lia]. simpl.
  apply nth_error_Some. lia.
Qed.

(** On a whole page number that names a page the iteration gets past
    [getSize]: what it does is decided by the colour and the rectangles. *)
Lemma drawHighlight_on_page pages h :
  wholeValidPage (length pages) (pageNumber h) ->
  exists i size,
    nth_error pages i = Some size
    /\ drawHighlight pages h
       = match resolveColor (color h) with
         | None => None
         | Some paint => drawRects i size paint (rects h)
         end.
Proof.
  intros (z & Hz & Hr). unfold drawHighlight.
  assert (H1 : inject_Z 1 <= inject_Z z) by (rewrite <- Zle_Qle; lia).
  assert (Hn : inject_Z z <= inject_Z (Z.of_nat (length pages)))
    by (rewrite <- Zle_Qle; lia).
  change (inject_Z 1) with 1 in H1.
  destruct (Qle_bool (pageNumber h) 0) eqn:E0.
  { apply Qle_bool_iff in E0. lra. }
  destruct (Qle_bool (pageNumber h) (inject_Z (Z.of_nat (length pages))))
    eqn:En.
  2:{ assert (Hle : pageNumber h <= inject_Z (Z.of_nat (length pages)))
        by lra.
      apply Qle_bool_iff in Hle. congruence. }
  simpl.
  assert (Hi : at_index pages (pageNumber h - 1) <> None).
  { apply (at_index_integer pages _ (z - 1)); [|lia].
    rewrite Hz. unfold Zminus. rewrite inject_Z_plus. reflexivity. }
  destruct (at_index pages (pageNumber h - 1)) as [size|] eqn:Ei;
    [|congruence].
  apply at_index_Some in Ei as [Hnth _].
  eexists. exists size. split; [exact Hnth|reflexivity].
Qed.

Lemma drawn_when_resolved pages h fill alpha :
  wholeValidPage (length pages) (pageNumber h) ->
  resolveColor (color h) = Some (fill, alpha) ->
  inRange01 alpha = true ->
  drawnWith pages h fill alpha.
Proof.
  intros Hp Hc Ha.
  destruct (drawHighlight_on_page pages h Hp) as (i & size & _ & Hd).
  rewrite Hc, drawRects_inRange in Hd by exact Ha.
  eexists. split; [exact Hd|]. split; [apply length_map|].
  apply Forall_map, Forall_forall. intros r _. split; reflexivity.
Qed.

Lemma throws_when_rgb_throws pages h :
  wholeValidPage (length pages) (pageNumber h) ->
  resolveColor (color h) = None ->
  drawHighlight pages h = None.
Proof.
  intros Hp Hc.
  destruct (drawHighlight_on_page pages h Hp) as (i & size & _ & Hd).
  now rewrite Hc in Hd.
Qed.

Lemma throws_when_opacity_rejected pages h fill alpha :
  wholeValidPage (length pages) (pageNumber h) ->
  resolveColor (color h) = Some (fill, alpha) ->
  inRange01 alpha = false -> rects h <> [] ->
  drawHighlight pages h = None.
Proof.
  intros Hp Hc Ha Hr.
  destruct (drawHighlight_on_page pages h Hp) as (i & size & _ & Hd).
  now rewrite Hc, drawRects_outside in Hd.
Qed.

Lemma drawHighlights_throws pages hs h :
  In h hs -> drawHighlight pages h = None -> drawHighlights pages hs = None.
Proof.
  intros Hin Hh. induction hs as [|h' hs IH]; [destruct Hin|]. simpl.
  destruct Hin as [->|Hin].
  - now rewrite Hh.
  - destruct (drawHighlight pages h'); [|reflexivity].
    now rewrite (IH Hin).
Qed.

Lemma failsExport_when_throws pages h :
  drawHighlight pages h = None -> failsExport pages h.
Proof.
  intros Hh hs load data Hin Hne Hl. unfold POST. simpl.
  destruct data as [|c data]; [congruence|].
  now rewrite Hl, (drawHighlights_throws pages hs h Hin Hh).
Qed.

Lemma beyondOne_rejected q : beyondOne q -> inRange01 (Num q) = false.
Proof.
  unfold beyondOne. intros H. simpl. apply andb_false_iff. right.
  destruct (Qle_bool q 1) eqn:E; [|reflexivity].
  apply Qle_bool_iff in E.
  assert (0 < 1 / inject_Z (2 ^ 52)) by reflexivity. lra.
Qed.

Lemma span_run p (a rest : jsstring) :
  Forall (fun c => p c = true) a -> stops p rest ->
  span p (a ++ rest) = (a, rest).
Proof.
  intros Ha Hstop. induction Ha as [|c a Hc Ha IH]; simpl.
  - destruct rest as [|c rest]; [reflexivity|].
    unfold stops in Hstop. simpl. now rewrite Hstop.
  - now rewrite Hc, IH.
Qed.

(** [parseFloat] on a decimal fraction: the integer part plus the
    fraction digits over the matching power of ten. *)
Lemma parseFloat_fraction (I F : jsstring) :
  digits I -> digits F ->
  parseFloat (I ++ chr "." :: F)
  = Num (inject_Z (decimal I)
         + inject_Z (decimal F) / inject_Z (10 ^ Z.of_nat (length F))).
Proof.
  intros [HI0 HI] [HF0 HF]. unfold parseFloat.
  rewrite (span_run isDigit I (chr "." :: F) HI eq_refl).
  change (chr ".") with 46%N. cbv iota.
  rewrite span_all by exact HF. cbn [fst].
  destruct I; [congruence|reflexivity].
Qed.

(** C4 (as amended).  On a page of the document, a highlight without a
    colour, with the empty string or with a string in which the pattern
    finds no match has every rectangle drawn in yellow [rgb(1, 1, 0)] at
    opacity 0.3.  When the pattern matches and pdf-lib accepts the values, every
    rectangle is drawn in the colour [R/255, G/255, B/255] at opacity 1.0
    if no alpha is written and otherwise at the number [parseFloat] reads
    from the alpha text, unchanged.  The route does not clamp, and the
    library rejects what is out of range: with an alpha that is not a
    number or lies beyond 1, or with a component above 255, nothing is
    drawn and the whole export is answered with the 500 error. *)
Theorem export_resolves_color_and_opacity :
  forall pages h,
    wholeValidPage (length pages) (pageNumber h) ->
    (color h = None \/ color h = Some []
     \/ (exists c, color h = Some c /\ regex_match colorPattern c = None) ->
     drawnWith pages h yellow (Num 0.3))
    /\ (forall c m,
          color h = Some c -> c <> [] ->
          regex_match colorPattern c = Some m ->
          let fill :=
            {| red := num_div (parseInt (capture m 1)) 255;
               green := num_div (parseInt (capture m 2)) 255;
               blue := num_div (parseInt (capture m 3)) 255 |} in
          let alpha :=
            match m 4%nat with
            | Some text => parseFloat text
            | None => Num 1.0
            end in
          inRange01 (red fill) && inRange01 (green fill)
          && inRange01 (blue fill) = true ->
          inRange01 alpha = true ->
          drawnWith pages h fill alpha)
    /\ (forall a R w1 G w2 B,
          color h = Some (colorText a R w1 G w2 B None) ->
          byteText R -> byteText G -> byteText B ->
          spaces w1 -> spaces w2 ->
          drawnWith pages h (channels R G B) (Num 1.0))
    /\ (forall a R w1 G w2 B w3 A,
          color h = Some (colorText a R w1 G w2 B (Some (w3, A))) ->
          byteText R -> byteText G -> byteText B ->
          spaces w1 -> spaces w2 -> spaces w3 -> digitsOrDots A ->
          (inRange01 (parseFloat A) = true ->
           drawnWith pages h (channels R G B) (parseFloat A))
          /\ (rects h <> [] ->
              parseFloat A = NaN
              \/ (exists q, parseFloat A = Num q /\ beyondOne q) ->
              drawHighlight pages h = None /\ failsExport pages h))
    /\ (forall a R w1 G w2 B alpha,
          color h = Some (colorText a R w1 G w2 B alpha) ->
          digits R -> digits G -> digits B ->
          spaces w1 -> spaces w2 -> alphaWritten alpha ->
          (255 < decimal R \/ 255 < decimal G \/ 255 < decimal B)%Z ->
          drawHighlight pages h = None /\ failsExport pages h)
    /\ (forall A, digits A -> parseFloat A = Num (inject_Z (decimal A)))
    /\ (forall I F,
          digits I -> digits F ->
          parseFloat (I ++ chr "." :: F)
          = Num (inject_Z (decimal I)
                 + inject_Z (decimal F)
                   / inject_Z (10 ^ Z.of_nat (length F)))).
Proof.
  intros pages h Hp.
  assert (Hbytes : forall a R w1 G w2 B alpha,
             byteText R -> byteText G -> byteText B ->
             spaces w1 -> spaces w2 -> alphaWritten alpha ->
             resolveColor (Some (colorText a R w1 G w2 B alpha))
             = Some (channels R G B,
                     match alpha with
                     | Some (_, A) => parseFloat A
                     | None => Num 1.0
                     end)).
  { intros a R w1 G w2 B alpha [HR HR'] [HG HG'] [HB HB'] Hw1 Hw2 Halpha.
    etransitivity; [apply resolveColor_colorText; assumption|].
    apply Z.leb_le in HR', HG', HB'. now rewrite HR', HG', HB'. }
  split.
  { intros H. apply drawn_when_resolved; [exact Hp| |reflexivity].
    now apply resolveColor_fallback. }
  split.
  { intros c m Hc Hne Hm fill alpha Hfill Halpha.
    apply drawn_when_resolved; [exact Hp| |exact Halpha].
    rewrite Hc. etransitivity; [exact (resolveColor_match c m Hne Hm)|].
    unfold rgb.
    unfold fill in Hfill. cbn [red green blue] in Hfill.
    now rewrite Hfill. }
  split.
  { intros a R w1 G w2 B Hc HR HG HB Hw1 Hw2.
    apply drawn_when_resolved; [exact Hp| |reflexivity].
    rewrite Hc. now apply (Hbytes a R w1 G w2 B None). }
  split.
  { intros a R w1 G w2 B w3 A Hc HR HG HB Hw1 Hw2 Hw3 HA.
    assert (Hres : resolveColor (color h)
                   = Some (channels R G B, parseFloat A)).
    { rewrite Hc. apply (Hbytes a R w1 G w2 B (Some (w3, A)));
        try assumption. split; assumption. }
    split.
    - intros Hin. now apply drawn_when_resolved.
    - intros Hrects Hout.
      assert (Hrej : inRange01 (parseFloat A) = false).
      { destruct Hout as [->|(q & -> & Hq)]; [reflexivity|].
        now apply beyondOne_rejected. }
      assert (Hd : drawHighlight pages h = None)
        by now apply (throws_when_opacity_rejected pages h _ _ Hp Hres).
      split; [exact Hd|now apply failsExport_when_throws]. }
  split.
  { intros a R w1 G w2 B alpha Hc HR HG HB Hw1 Hw2 Halpha Hbig.
    assert (Hd : drawHighlight pages h = None).
    { apply throws_when_rgb_throws; [exact Hp|].
      rewrite Hc. etransitivity; [apply resolveColor_colorText; assumption|].
      destruct (Z.leb_spec (decimal R) 255); [|reflexivity].
      destruct (Z.leb_spec (decimal G) 255); [|reflexivity].
      destruct (Z.leb_spec (decimal B) 255); [|reflexivity].
      lia. }
    split; [exact Hd|now apply failsExport_when_throws]. }
  split; [exact parseFloat_digits|exact parseFloat_fraction].
Qed.

Lemma digits_10 : digits (str "10").
Proof. split; [discriminate|repeat constructor]. Qed.

Lemma digits_20 : digits (str "20").
Proof. split; [discriminate|repeat constructor]. Qed.

Lemma digits_30 : digits (str "30").
Proof. split; [discriminate|repeat constructor]. Qed.

Lemma whole_page_1 : wholeValidPage 1 1.
Proof. exists 1%Z. split; [reflexivity|lia]. Qed.

Lemma export_resolves_color_and_opacity_witness :
  wholeValidPage 1 1
  /\ drawnWith [page_800] (painted "rgba(10, 20,30,0.5)")
       (channels (str "10") (str "20") (str "30")) (parseFloat (str "0.5"))
  /\ num_eq (parseFloat (str "0.5")) (Num 0.5).
Proof.
  split; [exact whole_page_1|]. split; [|reflexivity].
  refine (proj1 (proj1 (proj2 (proj2 (proj2
            (export_resolves_color_and_opacity [page_800]
               (painted "rgba(10, 20,30,0.5)") whole_page_1))))
            true (str "10") (str " ") (str "20") [] (str "30") []
            (str "0.5") eq_refl _ _ _ _ _ _ _) eq_refl).
  - split; [exact digits_10|discriminate].
  - split; [exact digits_20|discriminate].
  - split; [exact digits_30|discriminate].
  - repeat constructor.
  - constructor.
  - constructor.
  - split; [discriminate|repeat constructor].
Defined.

(** C4, an alpha out of range.  In [rgba(10,20,30,7.5)] the alpha is
    present and reads 7.5; the route hands it to [drawRectangle]
    unclamped, the library rejects it, and instead of a rectangle at
    opacity 7.5 the export draws nothing and answers 500, also for the
    valid highlight sent with it. *)
Lemma export_rejects_out_of_range_alpha :
  (exists m,
      regex_match colorPattern (str "rgba(10,20,30,7.5)") = Some m
      /\ m 4%nat = Some (str "7.5"))
  /\ num_eq (parseFloat (str "7.5")) (Num 7.5)
  /\ drawHighlights [page_800] [painted "rgba(10,20,30,7.5)"] = None
  /\ POST (fun _ => Some [page_800])
          {| pdfData := Some (str "JVBERi0xLjQK");
             highlights := Some [on_page 1; painted "rgba(10,20,30,7.5)"] |}
     = Json 500 "Failed to export PDF.".
Proof.
  split; [eexists; split; reflexivity|].
  repeat split; reflexivity.
Qed.

(** The three colour cases of the specification, a colour that does not
    parse, and values the library rejects. *)
Example export_color_examples :
  (exists d, drawHighlights [page_800] [on_page 1] = Some [d]
             /\ fill d = yellow /\ opacity d = Num 0.3)
  /\ (exists d, drawHighlights [page_800] [painted "rgb(10,20,30)"]
                = Some [d]
                /\ fill d = channels (str "10") (str "20") (str "30")
                /\ opacity d = Num 1.0)
  /\ (exists d, drawHighlights [page_800] [painted "rgba(10,20,30,0.5)"]
                = Some [d]
                /\ num_eq (opacity d) (Num 0.5))
  /\ (exists d, drawHighlights [page_800] [painted "rgb(10 ,20,30)"]
                = Some [d]
                /\ fill d = yellow /\ opacity d = Num 0.3)
  /\ drawHighlights [page_800] [painted "rgba(10,20,30,.)"] = None
  /\ drawHighlights [page_800] [painted "rgb(300,0,0)"] = None.
Proof.
  repeat split; try (eexists; split; [reflexivity|]); repeat split;
    reflexivity.
Qed.

(** With whole page numbers and values the library accepts no iteration
    throws: the guard skips every page number outside
    [1 .. pages.length], and every rectangle drawn carries the resolved
    colour and opacity of its highlight. *)
Lemma accepted_highlights_never_throw pages hs :
  Forall (fun h => (exists z, pageNumber h == inject_Z z)
                   /\ exists paint,
                        resolveColor (color h) = Some paint
                        /\ inRange01 (snd paint) = true) hs ->
  exists calls,
    drawHighlights pages hs = Some calls
    /\ Forall (fun d => exists h paint,
                   In h hs /\ resolveColor (color h) = Some paint
                   /\ fill d = fst paint /\ opacity d = snd paint) calls.
Proof.
  induction 1 as [|h hs ((z & Hz) & [fill alpha] & Hc & Ha) Hhs IH]; simpl.
  { exists []. split; [reflexivity|constructor]. }
  destruct IH as (calls' & Hcalls' & Hall').
  assert (Hh : exists ds,
             drawHighlight pages h = Some ds
             /\ Forall (fun d => ExportPdf.fill d = fill
                                 /\ opacity d = alpha) ds).
  { destruct (Z_le_gt_dec z 0) as [Hlow|Hpos].
    { exists []. split; [|constructor]. apply drawHighlight_skips. left.
      rewrite Hz. change 0 with (inject_Z 0). now rewrite <- Zle_Qle. }
    destruct (Z_le_gt_dec z (Z.of_nat (length pages))) as [Hin|Hhigh].
    2:{ exists []. split; [|constructor]. apply drawHighlight_skips. right.
        rewrite Hz. rewrite <- Zlt_Qlt. lia. }
    assert (Hp : wholeValidPage (length pages) (pageNumber h))
      by (exists z; split; [exact Hz|lia]).
    destruct (drawn_when_resolved pages h fill alpha Hp Hc Ha)
      as (ds & Hds & _ & Hall).
    now exists ds. }
  destruct Hh as (ds & Hds & Hall).
  rewrite Hds, Hcalls'. eexists. split; [reflexivity|].
  apply Forall_app. split.
  - eapply List.Forall_impl; [|exact Hall].
    intros d [Hf Ho]. exists h, (fill, alpha). auto.
  - eapply List.Forall_impl; [|exact Hall'].
    intros d (h' & paint & Hin & Hrest). exists h', paint. auto.
Qed.

(** C5, the failing input.  A highlight whose page number is 0.5 is
    outside [1 .. pages.length], yet neither test of the guard rejects it;
    [pages[-0.5]] is [undefined], the iteration throws, and the whole
    export, valid highlights included, ends in the 500 answer. *)
Theorem export_fractional_page_aborts :
  ~ validPage 1 (pageNumber (on_page 0.5))
  /\ drawHighlight [page_800] (on_page 0.5) = None
  /\ drawHighlights [page_800] [on_page 1; on_page 0.5] = None
  /\ POST (fun _ => Some [page_800])
          {| pdfData := Some (str "JVBERi0xLjQK");
             highlights := Some [on_page 1; on_page 0.5] |}
     = Json 500 "Failed to export PDF."
  /\ drawHighlight [page_800] (on_page 0) = Some []
  /\ drawHighlight [page_800] (on_page 2) = Some [].
Proof.
  split.
  { intros [H _]. vm_compute in H. now apply H. }
  repeat split; reflexivity.
Qed.

End ExportFacts.

(** ** Removing and re-adding highlights *)

Module HighlightListFacts.

Import Js Editor Spec Samples.

Lemma delete_In i h hs :
  In h (List.filter (fun h => negb (str_eqb (id h) i)) hs)
  <-> In h hs /\ id h <> i.
Proof.
  rewrite filter_In. unfold str_eqb.
  destruct (decide (id h = i)) as [E|E].
  - rewrite bool_decide_eq_true_2 by exact E. simpl.
    split; [intros [_ H]; discriminate|tauto].
  - rewrite bool_decide_eq_false_2 by exact E. simpl. tauto.
Qed.

Lemma delete_absent i hs :
  ~ In i (map id hs) ->
  List.filter (fun h => negb (str_eqb (id h) i)) hs = hs.
Proof.
  induction hs as [|h hs IH]; simpl; intros Hn; [reflexivity|].
  unfold str_eqb at 1.
  rewrite bool_decide_eq_false_2 by (intros E; apply Hn; now left).
  simpl. f_equal. apply IH. intros H. apply Hn. now right.
Qed.

(** X1.  [handleDeleteHighlight] keeps exactly the highlights whose id
    differs from the given one; with an id that no highlight carries the
    list is unchanged, and the session is marked dirty all the same;
    deleting the same id again changes nothing more. *)
Theorem delete_removes_exactly_that_id :
  forall st i,
    let st' := handleDeleteHighlight i st in
    (forall h, In h (highlights st') <-> In h (highlights st) /\ id h <> i)
    /\ (~ In i (map id (highlights st)) -> highlights st' = highlights st)
    /\ hasUnsavedChanges st' = true
    /\ highlights (handleDeleteHighlight i st') = highlights st'.
Proof.
  intros st i st'. unfold st', handleDeleteHighlight. simpl.
  split; [intros h; apply delete_In|].
  split; [apply delete_absent|].
  split; [reflexivity|].
  apply SyncFacts.filter_twice.
Qed.

Lemma delete_removes_exactly_that_id_witness :
  ~ In (str "hl-9") (map id six_highlights)
  /\ highlights (handleDeleteHighlight (str "hl-9")
                   (setHighlights six_highlights initial))
     = six_highlights.
Proof.
  assert (H : ~ In (str "hl-9") (map id six_highlights)).
  { simpl. intros [E|[E|[E|[E|[E|[E|[]]]]]]]; discriminate E. }
  split; [exact H|].
  exact (proj1 (proj2 (delete_removes_exactly_that_id
                         (setHighlights six_highlights initial)
                         (str "hl-9"))) H).
Defined.

Lemma filter_app_one i hs h :
  ~ In i (map id hs) -> id h = i ->
  List.filter (fun h => negb (str_eqb (id h) i)) (hs ++ [h]) = hs.
Proof.
  intros Hn Hi. rewrite List.filter_app, delete_absent by exact Hn. simpl.
  unfold str_eqb. rewrite bool_decide_eq_true_2 by exact Hi. simpl.
  apply app_nil_r.
Qed.

(** What [addHighlight] leaves in the highlight list: the list as it was,
    or the list with one highlight appended that carries the new id, the
    active page, the rectangles of the selection divided by the scale,
    and the selected colour. *)
Lemma addHighlight_highlights sel div newId st :
  highlights (fst (addHighlight sel div newId st)) = highlights st
  \/ exists s pageRect,
       sel = Some s /\ div = Some pageRect
       /\ Dom.clientRects s <> []
       /\ highlights (fst (addHighlight sel div newId st))
          = highlights st
            ++ [{| id := newId;
                   page_number := pageNumber st;
                   rects := map (fun cr => toStorageRect cr pageRect (scale st))
                                (Dom.clientRects s);
                   selected_text := Dom.text s;
                   color := Some (selectedHighlightColor st) |}].
Proof.
  unfold addHighlight.
  destruct sel as [s|]; [|now left].
  destruct (Nat.eqb (Dom.rangeCount s) 0 || Dom.isCollapsed s); [now left|].
  destruct div as [pageRect|]; [|now left].
  destruct (Dom.clientRects s) as [|cr crs] eqn:E; [now left|].
  match goal with |- context [if ?b then _ else _] => destruct b end;
    [now left|].
  right. exists s, pageRect. rewrite E. repeat split. discriminate.
Qed.

(** X2.  Capturing a selection under an id that no stored highlight
    carries and then deleting that id gives back the highlight list as it
    was before the capture, whether or not the capture created a
    highlight. *)
Theorem capture_then_delete_restores_list :
  forall st sel div newId,
    ~ In newId (map id (highlights st)) ->
    highlights (handleDeleteHighlight newId
                  (fst (addHighlight sel div newId st)))
    = highlights st.
Proof.
  intros st sel div newId Hfresh. unfold handleDeleteHighlight. simpl.
  destruct (addHighlight_highlights sel div newId st)
    as [E|(s & pageRect & _ & _ & _ & E)]; rewrite E.
  - now apply delete_absent.
  - now apply filter_app_one.
Qed.

Lemma capture_then_delete_restores_list_witness :
  ~ In (str "hl-1") (map id (highlights initial))
  /\ highlights (handleDeleteHighlight (str "hl-1")
                   (fst (addHighlight (Some two_line_selection)
                           (Some page_wrapper) (str "hl-1") initial)))
     = highlights initial.
Proof.
  assert (H : ~ In (str "hl-1") (map id (highlights initial)))
    by (intros []).
  split; [exact H|].
  exact (capture_then_delete_restores_list initial (Some two_line_selection)
           (Some page_wrapper) (str "hl-1") H).
Defined.

(** A capture that appends [h] had a selection with client rectangles
    and a mounted page wrapper, and [h] is built from them. *)
Lemma captured_highlight sel div newId st h :
  highlights (fst (addHighlight sel div newId st)) = highlights st ++ [h] ->
  exists s pageRect,
    sel = Some s /\ div = Some pageRect
    /\ h = {| id := newId;
              page_number := pageNumber st;
              rects := map (fun cr => toStorageRect cr pageRect (scale st))
                           (Dom.clientRects s);
              selected_text := Dom.text s;
              color := Some (selectedHighlightColor st) |}.
Proof.
  intros H.
  destruct (addHighlight_highlights sel div newId st)
    as [E|(s & pageRect & Hs & Hd & _ & E)]; rewrite E in H.
  - symmetry in H. exfalso. exact (CaptureFacts.app_one_neq _ _ H).
  - apply app_inj_tail in H as [_ H]. exists s, pageRect. auto.
Qed.

End HighlightListFacts.

(** ** The zoom grid *)

Module ZoomFacts.

Import Js Editor Spec Samples.

Lemma Qfloor_half (k : Z) (x : Q) :
  x == inject_Z k + 0.5 -> Qfloor x = k.
Proof.
  intros Hx. pose proof (Qfloor_le x) as Hle. pose proof (Qlt_floor x) as Hlt.
  rewrite inject_Z_plus in Hlt. change (inject_Z 1) with 1 in Hlt.
  assert (H1 : inject_Z (Qfloor x) < inject_Z (k + 1)).
  { rewrite inject_Z_plus. change (inject_Z 1) with 1. lra. }
  assert (H2 : inject_Z k < inject_Z (Qfloor x + 1)).
  { rewrite inject_Z_plus. change (inject_Z 1) with 1. lra. }
  rewrite <- Zlt_Qlt in H1, H2. lia.
Qed.

(** Rounding to one decimal leaves a non-negative number of tenths as it
    is. *)
Lemma toFixed1_tenths (k : Z) (x : Q) :
  (0 <= k)%Z -> x == inject_Z k / 10 -> toFixed1 x == inject_Z k / 10.
Proof.
  intros Hk Hx. unfold toFixed1.
  assert (H0 : 0 <= x).
  { rewrite Hx, EditorFacts.tenth. rewrite Zle_Qle in Hk.
    change (inject_Z 0) with 0 in Hk. lra. }
  apply Qle_bool_iff in H0. rewrite H0.
  rewrite (Qfloor_half k); [reflexivity|].
  rewrite Hx. field.
Qed.

Lemma zoomIn_tenths st (k : Z) :
  (0 <= k)%Z -> scale st == inject_Z k / 10 ->
  scale (zoomIn st) == inject_Z (k + 2) / 10.
Proof.
  intros Hk Hs. simpl. apply toFixed1_tenths; [lia|].
  rewrite Hs, inject_Z_plus. change (inject_Z 2) with 2. field.
Qed.

Lemma zoomOut_tenths st (k : Z) :
  (2 <= k)%Z -> scale st == inject_Z k / 10 ->
  scale (zoomOut st) == inject_Z (Z.max 2 (k - 2)) / 10.
Proof.
  intros Hk Hs. simpl. apply toFixed1_tenths; [lia|].
  unfold Js.max.
  destruct (Qle_bool 0.2 (scale st - 0.2)) eqn:E.
  - apply Qle_bool_iff in E. rewrite Hs in E |- *.
    assert (Hk4 : (4 <= k)%Z).
    { rewrite Zle_Qle. change (inject_Z 4) with 4.
      rewrite EditorFacts.tenth in E. lra. }
    rewrite Z.max_r by lia.
    assert (Hm : inject_Z (k - 2) == inject_Z k - 2).
    { unfold Zminus. rewrite inject_Z_plus. reflexivity. }
    rewrite Hm. field.
  - assert (Hn : ~ 0.2 <= scale st - 0.2)
      by (rewrite <- Qle_bool_iff; congruence).
    assert (Hk4 : (k < 4)%Z).
    { destruct (Z.lt_ge_cases k 4) as [|Hge]; [assumption|].
      exfalso. apply Hn. rewrite Hs, EditorFacts.tenth.
      rewrite Zle_Qle in Hge. change (inject_Z 4) with 4 in Hge. lra. }
    rewrite Z.max_l by lia. reflexivity.
Qed.

Lemma grid_step st e :
  onTenthGrid (scale st) -> onTenthGrid (scale (step st e)).
Proof.
  intros [k [Hk Hs]].
  destruct e;
    try (exists k; split; [exact Hk|];
         first [ exact Hs
               | simpl; now rewrite EditorFacts.scale_addHighlight ]).
  - exists k. split; [exact Hk|]. simpl. unfold propsEffect.
    destruct initialFileUrl as [[|c url]|]; try exact Hs.
    destruct (truthy initialPdfId); exact Hs.
  - exists k. split; [exact Hk|]. simpl. unfold handleFileChange.
    destruct uploadedFile; exact Hs.
  - exists k. split; [exact Hk|]. simpl. unfold onDocumentLoadSuccess.
    destruct (truthy _); exact Hs.
  - exists k. split; [exact Hk|]. destruct o as [[|] ?|]; exact Hs.
  - exists (k + 2)%Z. split; [lia|]. apply zoomIn_tenths; [lia|exact Hs].
  - exists (Z.max 2 (k - 2)). split; [lia|]. now apply zoomOut_tenths.
  - exists 18%Z. split; [lia|]. reflexivity.
  - exists k. split; [exact Hk|]. simpl. unfold handleSaveHighlights.
    destruct (currentPdfId st) as [[|c i]|]; try exact Hs.
    destruct (negb _); exact Hs.
  - exists k. split; [exact Hk|]. destruct o as [[|]|]; exact Hs.
Qed.

Lemma grid_run es : onTenthGrid (scale (run initial es)).
Proof.
  induction es as [|e es IH] using rev_ind.
  - exists 18%Z. split; [lia|]. reflexivity.
  - rewrite EditorFacts.run_snoc. now apply grid_step.
Qed.

(** X3.  After any sequence of events the zoom scale is a whole number of
    tenths; zooming in and then out gives the scale back; zooming out and
    then in gives it back from 0.4 upwards, and below 0.4 zooming out
    stops at 0.2. *)
Theorem zoom_steps_on_tenths_and_undo :
  forall es,
    let st := run initial es in
    onTenthGrid (scale st)
    /\ scale (zoomOut (zoomIn st)) == scale st
    /\ (0.4 <= scale st -> scale (zoomIn (zoomOut st)) == scale st)
    /\ (scale st < 0.4 -> scale (zoomOut st) == 0.2).
Proof.
  intros es st. pose proof (grid_run es) as Hg. fold st in Hg.
  split; [exact Hg|]. destruct Hg as [k [Hk Hs]].
  split.
  { rewrite (zoomOut_tenths (zoomIn st) (k + 2));
      [|lia|apply zoomIn_tenths; [lia|exact Hs]].
    rewrite Hs. replace (Z.max 2 (k + 2 - 2)) with k by lia. reflexivity. }
  split.
  { intros H4.
    assert (Hk4 : (4 <= k)%Z).
    { rewrite Zle_Qle. change (inject_Z 4) with 4.
      rewrite Hs, EditorFacts.tenth in H4. lra. }
    rewrite (zoomIn_tenths (zoomOut st) (Z.max 2 (k - 2)));
      [|lia|now apply zoomOut_tenths].
    rewrite Hs. replace (Z.max 2 (k - 2) + 2)%Z with k by lia. reflexivity. }
  intros H4.
  assert (Hk4 : (k < 4)%Z).
  { rewrite Zlt_Qlt. change (inject_Z 4) with 4.
    rewrite Hs, EditorFacts.tenth in H4. lra. }
  rewrite (zoomOut_tenths st k) by assumption.
  rewrite Z.max_l by lia. reflexivity.
Qed.

Lemma zoom_steps_on_tenths_and_undo_witness :
  0.4 <= scale (run initial [ZoomOut])
  /\ scale (zoomIn (zoomOut (run initial [ZoomOut])))
     == scale (run initial [ZoomOut]).
Proof.
  assert (H : 0.4 <= scale (run initial [ZoomOut])).
  { vm_compute. discriminate. }
  split; [exact H|].
  exact (proj1 (proj2 (proj2 (zoom_steps_on_tenths_and_undo [ZoomOut]))) H).
Defined.

End ZoomFacts.

(** ** Colours, overlays and side-bar clicks *)

Module DisplayFacts.

Import Js Editor Spec Samples.

Lemma palette_step st e :
  (exists s, selectedHighlightColor st = swatchColor s) ->
  exists s, selectedHighlightColor (step st e) = swatchColor s.
Proof.
  intros H. destruct e; simpl; try exact H.
  - unfold propsEffect. destruct initialFileUrl as [[|c url]|]; try exact H.
    destruct (truthy initialPdfId); exact H.
  - unfold handleFileChange. destruct uploadedFile; exact H.
  - unfold onDocumentLoadSuccess. destruct (truthy _); exact H.
  - destruct o as [[|] ?|]; exact H.
  - now exists s.
  - unfold addHighlight.
    destruct selection as [sel|]; [|exact H].
    destruct (Nat.eqb (Dom.rangeCount sel) 0 || Dom.isCollapsed sel);
      [exact H|].
    destruct pageWrapperDiv as [pageRect|]; [|exact H].
    match goal with |- context [if ?b then _ else _] => destruct b end;
      exact H.
  - unfold handleSaveHighlights.
    destruct (currentPdfId st) as [[|c i]|]; try exact H.
    destruct (negb _); exact H.
  - destruct o as [[|]|]; exact H.
Qed.

(** The selected colour is always one of the three swatches. *)
Lemma palette_run es :
  exists s, selectedHighlightColor (run initial es) = swatchColor s.
Proof.
  induction es as [|e es IH] using rev_ind.
  - now exists Yellow.
  - rewrite EditorFacts.run_snoc. now apply palette_step.
Qed.

(** Each swatch resolves, without [rgb] throwing, to its own paint, at
    an opacity that [drawRectangle] accepts. *)
Lemma swatch_resolves s :
  exists paint,
    ExportPdf.resolveColor (Some (swatchColor s)) = Some paint
    /\ samePaint paint (swatchPaint s)
    /\ ExportPdf.inRange01 (snd paint) = true.
Proof.
  destruct s; eexists; (split; [vm_compute; reflexivity|]);
    (split; [vm_compute; repeat split; reflexivity|reflexivity]).
Qed.

(** X4.  A highlight that capture appends in a state reached from the
    initial one carries the colour of one of the three swatches, and the
    export route resolves that colour to the swatch's own colour and
    alpha: yellow at 0.4, red and blue at 0.3. *)
Theorem captured_colour_is_a_swatch_the_export_parses :
  forall es sel div newId h,
    let st := run initial es in
    highlights (fst (addHighlight sel div newId st)) = highlights st ++ [h] ->
    exists s paint,
      color h = Some (swatchColor s)
      /\ ExportPdf.resolveColor (color h) = Some paint
      /\ samePaint paint (swatchPaint s).
Proof.
  intros es sel div newId h st H.
  apply HighlightListFacts.captured_highlight in H
    as (s0 & pageRect & _ & _ & ->).
  destruct (palette_run es) as [s Hs]. fold st in Hs.
  destruct (swatch_resolves s) as (paint & Hres & Hsame & _).
  exists s, paint. cbn [color]. rewrite Hs. auto.
Qed.

Lemma captured_colour_is_a_swatch_the_export_parses_witness :
  exists s paint,
    Some HIGHLIGHT_COLORS.YELLOW = Some (swatchColor s)
    /\ ExportPdf.resolveColor (Some HIGHLIGHT_COLORS.YELLOW) = Some paint
    /\ samePaint paint (swatchPaint s).
Proof.
  exact (captured_colour_is_a_swatch_the_export_parses []
           (Some two_line_selection) (Some page_wrapper) (str "hl-1") _
           eq_refl).
Defined.

Lemma scale_positive es : 0 < scale (run initial es).
Proof. pose proof (EditorFacts.scale_run es). lra. Qed.

(** X5.  In a state reached from the initial one, a click on the side-bar
    entry of a highlight that was just captured, with the scroll container
    and the page wrapper mounted, scrolls the container to 50 pixels above
    the place of the first selected rectangle: the wrapper's offset plus
    the distance of that rectangle from the top of the wrapper. *)
Theorem click_scrolls_to_captured_selection :
  forall es sel pageRect newId h pageRefs pageOffsetTop cr0,
    let st := run initial es in
    let st' := fst (addHighlight (Some sel) (Some pageRect) newId st) in
    highlights st' = highlights st ++ [h] ->
    head (Dom.clientRects sel) = Some cr0 ->
    pageRefs (pageNumber st) = Some pageOffsetTop ->
    exists t,
      handleHighlightClick true pageRefs h st' = Some (ScrollTo t)
      /\ t == pageOffsetTop + (Dom.top cr0 - Dom.top pageRect) - 50.
Proof.
  intros es sel pageRect newId h pageRefs pageOffsetTop cr0 st st' H Hcr Href.
  apply HighlightListFacts.captured_highlight in H
    as (s0 & pr & Es & Ep & ->).
  injection Es as <-. injection Ep as <-.
  unfold handleHighlightClick. simpl. rewrite Href.
  destruct (Dom.clientRects sel) as [|cr crs]; [discriminate|].
  injection Hcr as ->. simpl.
  eexists. split; [reflexivity|].
  unfold st'. rewrite EditorFacts.scale_addHighlight.
  pose proof (scale_positive es) as Hpos. fold st in Hpos.
  field. lra.
Qed.

Lemma click_scrolls_to_captured_selection_witness :
  exists t,
    handleHighlightClick true (fun _ => Some 1500)
      {| id := str "hl-1"; page_number := 1;
         rects := map (fun cr => toStorageRect cr page_wrapper 1.8)
                      (Dom.clientRects two_line_selection);
         selected_text := str "two lines";
         color := Some HIGHLIGHT_COLORS.YELLOW |}
      (fst (addHighlight (Some two_line_selection) (Some page_wrapper)
              (str "hl-1") initial))
    = Some (ScrollTo t)
    /\ t == 1500 + (120 - 30) - 50.
Proof.
  exact (click_scrolls_to_captured_selection [] two_line_selection
           page_wrapper (str "hl-1") _ (fun _ => Some 1500) 1500 _
           eq_refl eq_refl eq_refl).
Defined.

(** X6.  Navigation stays inside the document: [goToPage] scrolls only
    to the page asked for, and only when it lies between 1 and the page
    count and its wrapper is mounted; with no document loaded nothing
    scrolls; [goToPrevPage] on page 1 and [goToNextPage] on the last page
    scroll nowhere; and a click on a side-bar entry whose page wrapper is
    not mounted scrolls nowhere either. *)
Theorem navigation_stays_inside_document :
  (forall pageRefs num st n,
      goToPage pageRefs num st = Some n ->
      n = num /\ is_Some (pageRefs n)
      /\ exists total, numPages st = Some total /\ (1 <= n <= total)%Z)
  /\ (forall pageRefs num st,
        numPages st = None -> goToPage pageRefs num st = None)
  /\ (forall pageRefs st,
        (pageNumber st <= 1)%Z -> goToPrevPage pageRefs st = None)
  /\ (forall pageRefs st total,
        numPages st = Some total -> (total <= pageNumber st)%Z ->
        goToNextPage pageRefs st = None)
  /\ (forall container pageRefs h st,
        pageRefs (page_number h) = None ->
        handleHighlightClick container pageRefs h st = None).
Proof.
  split.
  { intros pageRefs num st n. unfold goToPage.
    destruct (Z.leb_spec 1 num); simpl; [|discriminate].
    destruct (Z.leb_spec num (default 0%Z (numPages st))); [|discriminate].
    destruct (pageRefs num) as [off|] eqn:E; [|discriminate].
    intros Hsome. injection Hsome as <-. split; [reflexivity|].
    split; [now exists off|].
    destruct (numPages st) as [total|]; simpl in *; [|lia].
    exists total. split; [reflexivity|lia]. }
  split.
  { intros pageRefs num st Hn. unfold goToPage. rewrite Hn. simpl.
    destruct (Z.leb_spec 1 num); simpl; [|reflexivity].
    destruct (Z.leb_spec num 0); [lia|reflexivity]. }
  split.
  { intros pageRefs st Hp. unfold goToPrevPage, goToPage.
    destruct (Z.leb_spec 1 (pageNumber st - 1)); [lia|reflexivity]. }
  split.
  { intros pageRefs st total Hn Hp. unfold goToNextPage, goToPage.
    rewrite Hn. simpl.
    destruct (Z.leb_spec (pageNumber st + 1) total); [lia|].
    now rewrite andb_false_r. }
  intros container pageRefs h st Href.
  unfold handleHighlightClick, goToPage. rewrite Href.
  destruct container; simpl;
    destruct ((1 <=? page_number h)%Z
              && (page_number h <=? default 0%Z (numPages st))%Z);
    reflexivity.
Qed.

Lemma navigation_stays_inside_document_witness :
  goToPage (fun _ => Some 0) 2 (setNumPages (Some 3%Z) initial) = Some 2%Z
  /\ (2%Z = 2%Z /\ is_Some (Some 0)
      /\ exists total,
           numPages (setNumPages (Some 3%Z) initial) = Some total
           /\ (1 <= 2 <= total)%Z).
Proof.
  split; [reflexivity|].
  exact (proj1 navigation_stays_inside_document (fun _ => Some 0) 2%Z
           (setNumPages (Some 3%Z) initial) 2%Z eq_refl).
Defined.

Lemma swatch_background s :
  match swatchColor s with
  | c :: rest => c :: rest
  | [] => HIGHLIGHT_COLORS.YELLOW
  end = swatchColor s.
Proof. destruct s; reflexivity. Qed.

Lemma overlay_styles (s : Q) pageRect bg crs :
  0 < s ->
  Forall2
    (fun o cr =>
       Rect.eq (style o) (relativeTo cr pageRect) /\ backgroundColor o = bg)
    (map (fun rect =>
            {| style := toScreenRect rect s; backgroundColor := bg |})
         (map (fun cr => toStorageRect cr pageRect s) crs))
    crs.
Proof.
  intros Hs. induction crs as [|cr crs IH]; simpl; constructor.
  - split; [|reflexivity]. apply EditorFacts.storage_then_screen. lra.
  - exact IH.
Qed.

Lemma overlays_append pn st st' h :
  scale st' = scale st ->
  highlights st' = highlights st ++ [h] ->
  overlays pn st'
  = overlays pn st
    ++ (if (page_number h =? pn)%Z
        then map (fun rect =>
                    {| style := toScreenRect rect (scale st);
                       backgroundColor :=
                         match color h with
                         | Some (c :: rest) => c :: rest
                         | _ => HIGHLIGHT_COLORS.YELLOW
                         end |})
                 (rects h)
        else []).
Proof.
  intros Hs Hh. unfold overlays.
  rewrite Hh, Hs, List.filter_app, flat_map_app. f_equal.
  cbn [List.filter]. destruct (page_number h =? pn)%Z; [|reflexivity].
  cbn [flat_map]. apply app_nil_r.
Qed.

(** X7.  In a state reached from the initial one, a capture that appends
    a highlight adds, on the active page and after the overlays already
    there, one overlay per client rectangle of the selection, in order,
    placed where that rectangle is relative to the page wrapper and
    painted in the selected colour; the overlays of every other page are
    unchanged. *)
Theorem capture_overlays_cover_selection :
  forall es sel pageRect newId h,
    let st := run initial es in
    let st' := fst (addHighlight (Some sel) (Some pageRect) newId st) in
    highlights st' = highlights st ++ [h] ->
    (forall pn, pn <> pageNumber st -> overlays pn st' = overlays pn st)
    /\ exists new,
         overlays (pageNumber st) st' = overlays (pageNumber st) st ++ new
         /\ Forall2
              (fun o cr =>
                 Rect.eq (style o) (relativeTo cr pageRect)
                 /\ backgroundColor o = selectedHighlightColor st)
              new (Dom.clientRects sel).
Proof.
  intros es sel pageRect newId h st st' H.
  assert (Hs : scale st' = scale st)
    by apply EditorFacts.scale_addHighlight.
  pose proof H as Hh.
  apply HighlightListFacts.captured_highlight in Hh
    as (s0 & pr & Es & Ep & Hh).
  injection Es as <-. injection Ep as <-.
  assert (Hpage : page_number h = pageNumber st) by (subst h; reflexivity).
  split.
  - intros pn Hne. rewrite (overlays_append pn st st' h Hs H), Hpage.
    destruct (Z.eqb_spec (pageNumber st) pn); [congruence|].
    apply app_nil_r.
  - eexists. split.
    + rewrite (overlays_append _ st st' h Hs H), Hpage, Z.eqb_refl.
      reflexivity.
    + destruct (palette_run es) as [s Hsw]. fold st in Hsw.
      pose proof (scale_positive es) as Hpos. fold st in Hpos.
      subst h. cbn [rects color]. rewrite Hsw, swatch_background.
      rewrite <- Hsw. now apply overlay_styles.
Qed.

Lemma capture_overlays_cover_selection_witness :
  let st' := fst (addHighlight (Some two_line_selection) (Some page_wrapper)
                    (str "hl-1") initial) in
  overlays 2 st' = overlays 2 initial
  /\ exists new,
       overlays 1 st' = overlays 1 initial ++ new
       /\ Forall2
            (fun o cr =>
               Rect.eq (style o) (relativeTo cr page_wrapper)
               /\ backgroundColor o = swatchColor Yellow)
            new (Dom.clientRects two_line_selection).
Proof.
  destruct (capture_overlays_cover_selection [] two_line_selection
              page_wrapper (str "hl-1") _ eq_refl) as [Hother Hnew].
  split; [apply Hother; discriminate | exact Hnew].
Defined.

End DisplayFacts.

(** ** Grouping without a precondition *)

Module GroupingMoreFacts.

Import Js Editor Spec Samples.

(** Whatever the rectangles of the highlights, the array stored under a
    page holds the highlights of that page, and no page without
    highlights has an entry. *)
Lemma grouped_lookup_perm hs p :
  match allHighlightsGroupedByPage hs !! p with
  | Some l => Permutation l (List.filter (onPage p) hs) /\ l <> []
  | None => List.filter (onPage p) hs = []
  end.
Proof.
  induction hs as [|h hs IH] using rev_ind.
  - reflexivity.
  - rewrite GroupingFacts.grouped_snoc, GroupingFacts.filter_snoc.
    destruct (onPage p h) eqn:E.
    + apply GroupingFacts.onPage_iff in E. subst p.
      rewrite lookup_insert_eq. split.
      * rewrite SortFacts.sort_perm. apply Permutation_app_tail.
        destruct (allHighlightsGroupedByPage hs !! page_number h) as [l|];
          simpl.
        -- apply IH.
        -- now rewrite IH.
      * intros Hnil.
        pose proof (SortFacts.sort_perm byFirstTop
          (default [] (allHighlightsGroupedByPage hs !! page_number h) ++ [h]))
          as Hp.
        rewrite Hnil in Hp. apply Permutation_nil in Hp.
        now apply app_eq_nil in Hp as [_ Hp].
    + assert (Hne : page_number h <> p).
      { intros Heq. apply GroupingFacts.onPage_iff in Heq. congruence. }
      rewrite lookup_insert_ne by exact Hne. exact IH.
Qed.

Lemma group_In hs p l :
  In (p, l) (groupByPage hs) ->
  In p (pagesWithHighlights hs)
  /\ allHighlightsGroupedByPage hs !! p = Some l.
Proof.
  unfold groupByPage. intros Hin.
  apply in_map_iff in Hin as [q [Heq Hq]]. injection Heq as -> <-.
  split; [exact Hq|].
  apply GroupingFacts.pages_In in Hq as [l Hl]. now rewrite Hl.
Qed.

(** The highlights of the pages [ps], page by page, are all highlights
    when [ps] lists every page once. *)
Lemma pages_partition (ps : list Z) hs :
  NoDup ps ->
  (forall h, In h hs -> In (page_number h) ps) ->
  Permutation (concat (map (fun p => List.filter (onPage p) hs) ps)) hs.
Proof.
  intros Hnd. revert hs. induction Hnd as [|p ps Hp Hnd IH]; intros hs Hall.
  - destruct hs as [|h hs]; [reflexivity|]. destruct (Hall h). now left.
  - simpl.
    set (rest := List.filter (fun h => negb (onPage p h)) hs).
    assert (Hrest : map (fun q => List.filter (onPage q) hs) ps
                    = map (fun q => List.filter (onPage q) rest) ps).
    { apply map_ext_in. intros q Hq. unfold rest.
      clear -Hp Hq. induction hs as [|h hs IHh]; simpl; [reflexivity|].
      destruct (onPage q h) eqn:Eq, (onPage p h) eqn:Ep; simpl;
        rewrite ?Eq, IHh; try reflexivity.
      apply GroupingFacts.onPage_iff in Eq, Ep.
      exfalso. apply Hp. apply list_elem_of_In. congruence. }
    rewrite Hrest, IH.
    + unfold rest. clear. induction hs as [|h hs IHh]; simpl; [reflexivity|].
      destruct (onPage p h); simpl.
      * now constructor.
      * rewrite <- Permutation_middle. now constructor.
    + intros h Hh. unfold rest in Hh. apply filter_In in Hh as [Hh Hn].
      destruct (Hall h Hh) as [E|Hin]; [|exact Hin].
      symmetry in E. apply GroupingFacts.onPage_iff in E.
      rewrite E in Hn. discriminate.
Qed.

Lemma concat_perm {A : Type} (ls ls' : list (list A)) :
  Forall2 (@Permutation A) ls ls' -> Permutation (concat ls) (concat ls').
Proof.
  induction 1 as [|l l' ls ls' Hl Hls IH]; simpl; [reflexivity|].
  now apply Permutation_app.
Qed.

(** X8.  Whatever the highlights, with or without rectangles: the side
    bar lists every highlight exactly once, under its own page, with the
    pages in strictly ascending order and no empty group. *)
Theorem groupByPage_lists_every_highlight_once :
  forall hs,
    Permutation (concat (map snd (groupByPage hs))) hs
    /\ StronglySorted Z.lt (map fst (groupByPage hs))
    /\ (forall p l,
          In (p, l) (groupByPage hs) ->
          l <> [] /\ forall h, In h l -> In h hs /\ page_number h = p).
Proof.
  intros hs. split; [|split].
  - transitivity
      (concat (map (fun p => List.filter (onPage p) hs)
                   (pagesWithHighlights hs))).
    + apply concat_perm. unfold groupByPage. rewrite map_map. simpl.
      induction (pagesWithHighlights hs) as [|p ps IH]; simpl;
        constructor; [|exact IH].
      pose proof (grouped_lookup_perm hs p) as Hl.
      destruct (allHighlightsGroupedByPage hs !! p) as [l|]; simpl.
      * apply Hl.
      * now rewrite Hl.
    + apply pages_partition.
      * pose proof (GroupingFacts.pages_ascending hs) as Hs.
        induction Hs as [|p ps Hs IH Hp]; constructor; [|exact IH].
        intros Hin. apply list_elem_of_In in Hin.
        rewrite List.Forall_forall in Hp. specialize (Hp p Hin). lia.
      * intros h Hh. apply GroupingFacts.pages_In.
        pose proof (grouped_lookup_perm hs (page_number h)) as Hl.
        destruct (allHighlightsGroupedByPage hs !! page_number h) as [l|];
          [now exists l|].
        assert (Hin : In h (List.filter (onPage (page_number h)) hs)).
        { apply filter_In. split; [exact Hh|].
          now apply GroupingFacts.onPage_iff. }
        rewrite Hl in Hin. destruct Hin.
  - rewrite GroupingFacts.groups_pages. apply GroupingFacts.pages_ascending.
  - intros p l Hin. apply group_In in Hin as [_ Hl].
    pose proof (grouped_lookup_perm hs p) as Hp. rewrite Hl in Hp.
    destruct Hp as [Hp Hne]. split; [exact Hne|].
    intros h Hh. apply (Permutation_in _ Hp), filter_In in Hh as [Hh Hpg].
    split; [exact Hh|now apply GroupingFacts.onPage_iff].
Qed.

Lemma groupByPage_lists_every_highlight_once_witness :
  In (3%Z, page_3_group) (groupByPage six_highlights)
  /\ forall h,
       In h page_3_group -> In h six_highlights /\ page_number h = 3%Z.
Proof.
  assert (H : In (3%Z, page_3_group) (groupByPage six_highlights)).
  { vm_compute. right. left. reflexivity. }
  split; [exact H|].
  exact (proj2 (proj2 (proj2 (groupByPage_lists_every_highlight_once
                                six_highlights)) _ _ H)).
Defined.

Lemma highlightedPages_snoc hs h :
  updateHighlightedPagesSet (hs ++ [h])
  = {[ page_number h ]} ∪ updateHighlightedPagesSet hs.
Proof. unfold updateHighlightedPagesSet. now rewrite fold_left_app. Qed.

Lemma highlightedPages_elem hs p :
  p ∈ updateHighlightedPagesSet hs <-> exists h, In h hs /\ page_number h = p.
Proof.
  induction hs as [|h hs IH] using rev_ind.
  - split; [intros H; now apply not_elem_of_empty in H|intros [h [[] _]]].
  - rewrite highlightedPages_snoc, elem_of_union, elem_of_singleton, IH.
    split.
    + intros [->|[h' [Hin Hp]]].
      * exists h. split; [apply in_or_app; right; now left|reflexivity].
      * exists h'. split; [apply in_or_app; now left|exact Hp].
    + intros [h' [Hin Hp]]. apply in_app_or in Hin as [Hin|[<-|[]]].
      * right. now exists h'.
      * now left.
Qed.

(** X9.  The set of highlighted pages that the component keeps beside the
    highlight list holds exactly the pages under which the side bar lists
    a group, which are the pages that carry a highlight. *)
Theorem highlighted_pages_are_the_grouped_pages :
  forall hs p,
    (p ∈ updateHighlightedPagesSet hs
     <-> In p (map fst (groupByPage hs)))
    /\ (p ∈ updateHighlightedPagesSet hs
        <-> exists h, In h hs /\ page_number h = p).
Proof.
  intros hs p. split; [|apply highlightedPages_elem].
  rewrite highlightedPages_elem, GroupingFacts.groups_pages,
    GroupingFacts.pages_In.
  pose proof (grouped_lookup_perm hs p) as Hl.
  destruct (allHighlightsGroupedByPage hs !! p) as [l|].
  - destruct Hl as [Hp Hne]. split; [intros _; now exists l|intros _].
    destruct l as [|h l]; [congruence|]. exists h.
    assert (Hin : In h (List.filter (onPage p) hs)).
    { apply (Permutation_in _ Hp). now left. }
    apply filter_In in Hin as [Hin Hpg].
    split; [exact Hin|now apply GroupingFacts.onPage_iff].
  - split.
    + intros [h [Hin Hp]].
      assert (Hf : In h (List.filter (onPage p) hs)).
      { apply filter_In. split; [exact Hin|].
        now apply GroupingFacts.onPage_iff. }
      rewrite Hl in Hf. destruct Hf.
    + intros [x Hx]. discriminate.
Qed.

End GroupingMoreFacts.

(** ** The editor's requests at the routes *)

Module RequestFacts.

Import Js Editor EditorRequests Spec Samples.

Lemma handleSaveHighlights_sends st st1 req :
  handleSaveHighlights st = (st1, Some req) ->
  req_pdfId req <> []
  /\ currentPdfId st = Some (req_pdfId req)
  /\ req_highlights req = highlights st
  /\ hasUnsavedChanges st = true
  /\ st1 = setIsSyncing true st.
Proof.
  unfold handleSaveHighlights.
  destruct (currentPdfId st) as [[|c pdfId]|]; try discriminate.
  destruct (hasUnsavedChanges st); simpl; [|discriminate].
  intros H. injection H as <- <-. simpl. rewrite map_id.
  repeat split. discriminate.
Qed.

Lemma rowsOf_after_sync pdfId hs (rows : list Sync.Row) :
  List.filter (Sync.rowOf pdfId)
    (List.filter (fun r => negb (Sync.rowOf pdfId r)) rows
     ++ rowsFor pdfId hs)
  = rowsFor pdfId hs.
Proof.
  rewrite List.filter_app, SyncFacts.filter_others_of_owned.
  apply (SyncFacts.rowsFor_owned pdfId hs).
Qed.

(** A load that the store answers without an error returns the rows of
    the document, in the order the store chose. *)
Lemma GET_reordered arrange id db :
  reorders arrange -> id <> [] ->
  exists rows,
    Sync.GET (Some id) None arrange db
    = {| Sync.load_status := 200; Sync.load_highlights := Some rows |}
    /\ Permutation rows (Sync.rowsOf id db).
Proof.
  intros H Hne. destruct id as [|c rest]; [congruence|].
  eexists. split; [reflexivity|apply H].
Qed.

(** X10.  A save request that the editor sends is never refused by the
    validation of the sync route; it names the open document and carries
    the current highlights; and when the store reports no error the route
    answers 200 and a following load of the document returns the rows of
    the editor's highlights, one per highlight, in whatever order the
    store returns them. *)
Theorem editor_save_request_is_accepted :
  forall st st1 req env db arrange,
    handleSaveHighlights st = (st1, Some req) ->
    reorders arrange ->
    let result := Sync.POST (Some (saveBody req)) env db in
    Sync.status (fst result) <> 400%Z
    /\ currentPdfId st = Some (req_pdfId req)
    /\ req_highlights req = highlights st
    /\ (Sync.deleteError env = None -> Sync.insertError env = None ->
        Sync.status (fst result) = 200%Z
        /\ exists rows,
             Sync.GET (Some (req_pdfId req)) None arrange (snd result)
             = {| Sync.load_status := 200;
                  Sync.load_highlights := Some rows |}
             /\ Permutation rows
                  (rowsFor (req_pdfId req)
                     (map toSyncHighlight (highlights st)))).
Proof.
  intros st st1 req env db arrange H Harr result.
  apply handleSaveHighlights_sends in H as (Hid & Hcur & Hhs & _ & _).
  assert (Hshape : forall i hs,
             Sync.pdfId (saveBody req) = Some i ->
             Sync.highlights (saveBody req) = Some hs ->
             i = req_pdfId req /\ hs = map toSyncHighlight (highlights st)).
  { unfold saveBody. simpl. rewrite Hhs. intros i hs Ei Eh.
    split; congruence. }
  split.
  { unfold result, saveBody, Sync.POST. simpl.
    destruct (req_pdfId req) as [|c pdfId]; [congruence|].
    unfold Sync.delete_eq, Sync.insert.
    destruct (Sync.deleteError env); simpl; [discriminate|].
    destruct (0 <? length (map toSyncHighlight (req_highlights req)))%nat;
      [|discriminate].
    destruct (Sync.insertError env); discriminate. }
  split; [exact Hcur|]. split; [exact Hhs|].
  intros Hd Hi.
  assert (Hok : Sync.status (fst result) = 200%Z).
  { unfold result, saveBody, Sync.POST. simpl.
    destruct (req_pdfId req) as [|c pdfId]; [congruence|].
    unfold Sync.delete_eq, Sync.insert. rewrite Hd, Hi.
    now destruct (0 <? length (map toSyncHighlight (req_highlights req)))%nat. }
  split; [exact Hok|].
  destruct (GET_reordered arrange (req_pdfId req) (snd result) Harr Hid)
    as (rows & HG & HP).
  exists rows. split; [exact HG|].
  destruct (SyncFacts.POST_ok (saveBody req) env db Hok)
    as (i & hs & _ & Ei & Eh & T).
  destruct (Hshape i hs Ei Eh) as [-> ->].
  unfold Sync.rowsOf in HP. fold result in T. rewrite T in HP.
  now rewrite rowsOf_after_sync in HP.
Qed.

Lemma reorders_rev : reorders (@rev Sync.Row).
Proof. intros rows. symmetry. apply Permutation_rev. Qed.

Lemma editor_save_request_is_accepted_witness :
  let st := run initial capture_before_load in
  exists st1 req,
    handleSaveHighlights st = (st1, Some req)
    /\ reorders (@rev Sync.Row)
    /\ Sync.status (fst (Sync.POST (Some (saveBody req)) Sync.noErrors stored))
       <> 400%Z.
Proof.
  intros st. eexists. eexists. split; [reflexivity|].
  split; [exact reorders_rev|].
  exact (proj1 (editor_save_request_is_accepted st _ _ Sync.noErrors stored
                  (@rev Sync.Row) eq_refl reorders_rev)).
Defined.

(** X11.  Once a save has been sent: after an ok response a further click
    on save sends nothing, since nothing is unsaved; after a non-ok
    response or a network error a further click sends the same request
    again; in every case the syncing flag is down again. *)
Theorem save_is_resent_only_after_failure :
  forall st st1 req,
    handleSaveHighlights st = (st1, Some req) ->
    snd (handleSaveHighlights (saveSettled (SaveResponded true) st1)) = None
    /\ snd (handleSaveHighlights (saveSettled (SaveResponded false) st1))
       = Some req
    /\ snd (handleSaveHighlights (saveSettled SaveRejected st1)) = Some req
    /\ forall o, isSyncing (saveSettled o st1) = false.
Proof.
  intros st st1 req H.
  pose proof H as Hs.
  apply handleSaveHighlights_sends in Hs as (Hid & Hcur & Hhs & Hd & ->).
  unfold handleSaveHighlights in *. simpl. rewrite Hcur in *.
  destruct (req_pdfId req) as [|c pdfId] eqn:E; [congruence|].
  rewrite Hd in *. simpl in *. injection H as H.
  split; [reflexivity|]. split; [now rewrite H|]. split; [now rewrite H|].
  intros [[|]|]; reflexivity.
Qed.

Lemma save_is_resent_only_after_failure_witness :
  let st := run initial capture_before_load in
  snd (handleSaveHighlights
         (saveSettled (SaveResponded true) (fst (handleSaveHighlights st))))
  = None.
Proof.
  intros st.
  exact (proj1 (save_is_resent_only_after_failure st _ _ eq_refl)).
Defined.

Lemma captured_step st e :
  bringsNoHighlights e ->
  (exists s, selectedHighlightColor st = swatchColor s) ->
  Forall swatchPainted (highlights st) ->
  Forall swatchPainted (highlights (step st e)).
Proof.
  intros He [s Hs] Hall. destruct e; simpl; try exact Hall.
  - unfold propsEffect.
    destruct initialFileUrl as [[|c url]|]; try (simpl; constructor).
    destruct (truthy initialPdfId); simpl; constructor.
  - unfold handleFileChange.
    destruct uploadedFile; simpl; [constructor|exact Hall].
  - unfold onDocumentLoadSuccess.
    destruct (truthy (currentPdfId st)); simpl; [exact Hall|constructor].
  - destruct o as [[|] [[|h hs]|]|]; simpl; try (now destruct He);
      constructor.
  - unfold addHighlight.
    destruct selection as [sel|]; [|exact Hall].
    destruct (Nat.eqb (Dom.rangeCount sel) 0 || Dom.isCollapsed sel);
      [exact Hall|].
    destruct pageWrapperDiv as [pageRect|]; [|exact Hall].
    match goal with |- context [if ?b then _ else _] => destruct b end;
      [exact Hall|].
    simpl. apply Forall_app. split; [exact Hall|].
    constructor; [|constructor]. exists s. simpl. now rewrite Hs.
  - apply List.Forall_forall. intros h Hin.
    apply filter_In in Hin as [Hin _].
    now apply (proj1 (List.Forall_forall _ _) Hall).
  - unfold handleSaveHighlights.
    destruct (currentPdfId st) as [[|c i]|]; try exact Hall.
    destruct (negb _); exact Hall.
  - destruct o as [[|]|]; exact Hall.
Qed.

(** In a session that receives no highlight from the server every
    highlight was captured with one of the swatches. *)
Lemma captured_run es :
  Forall bringsNoHighlights es ->
  Forall swatchPainted (highlights (run initial es)).
Proof.
  induction es as [|e es IH] using rev_ind; intros H.
  - constructor.
  - apply Forall_app in H as [Hes He]. apply Forall_cons_1 in He as [He _].
    rewrite EditorFacts.run_snoc.
    apply captured_step; [exact He|apply DisplayFacts.palette_run|].
    now apply IH.
Qed.

(** X12.  In a session whose highlights were all captured in the editor,
    none having come from the server, the highlights sent to the export
    route make no iteration of the export loop throw, whatever the pages
    of the document: page numbers are whole and the colours are swatches,
    so each highlight is skipped or drawn, every rectangle drawn carries
    the paint of a swatch, and once the document loads the answer is the
    exported file. *)
Theorem editor_export_payload_never_throws :
  forall es pages,
    Forall bringsNoHighlights es ->
    let st := run initial es in
    exists calls,
      ExportPdf.drawHighlights pages (exportPayloadHighlights st) = Some calls
      /\ Forall (fun d => exists s,
                     samePaint (ExportPdf.fill d, ExportPdf.opacity d)
                               (swatchPaint s)) calls
      /\ forall load data,
           data <> [] -> load data = Some pages ->
           ExportPdf.POST load
             {| ExportPdf.pdfData := Some data;
                ExportPdf.highlights := Some (exportPayloadHighlights st) |}
           = ExportPdf.Pdf calls.
Proof.
  intros es pages Hes st.
  pose proof (captured_run es Hes) as Hsw. fold st in Hsw.
  assert (Hpaint : forall h',
             In h' (exportPayloadHighlights st) ->
             exists s paint,
               ExportPdf.resolveColor (ExportPdf.color h') = Some paint
               /\ samePaint paint (swatchPaint s)
               /\ ExportPdf.inRange01 (snd paint) = true).
  { intros h' Hin. unfold exportPayloadHighlights in Hin.
    apply in_map_iff in Hin as (h & <- & Hin).
    destruct (proj1 (List.Forall_forall _ _) Hsw h Hin) as [s Hc].
    destruct (DisplayFacts.swatch_resolves s) as (paint & Hres & Hrest).
    exists s, paint. cbn [toExportHighlight ExportPdf.color].
    rewrite Hc. auto. }
  destruct (ExportFacts.accepted_highlights_never_throw pages
              (exportPayloadHighlights st)) as (calls & Hcalls & Hall).
  { apply List.Forall_forall. intros h' Hin. split.
    - unfold exportPayloadHighlights in Hin.
      apply in_map_iff in Hin as (h & <- & _).
      exists (page_number h). reflexivity.
    - destruct (Hpaint h' Hin) as (s & paint & Hres & _ & Hr).
      now exists paint. }
  exists calls. split; [exact Hcalls|]. split.
  - eapply List.Forall_impl; [|exact Hall].
    intros d (h' & paint & Hin & Hres & Hf & Ho).
    destruct (Hpaint h' Hin) as (s & paint' & Hres' & Hsame & _).
    assert (paint' = paint) by congruence. subst paint'.
    exists s. destruct paint as [c o]. simpl in Hf, Ho.
    now rewrite Hf, Ho.
  - intros load data Hd Hl. unfold ExportPdf.POST. simpl.
    destruct data as [|c data]; [congruence|]. now rewrite Hl, Hcalls.
Qed.

Lemma capture_before_load_brings_none :
  Forall bringsNoHighlights capture_before_load.
Proof. repeat constructor. Qed.

Lemma editor_export_payload_never_throws_witness :
  let st := run initial capture_before_load in
  Forall bringsNoHighlights capture_before_load
  /\ exists calls,
       ExportPdf.drawHighlights [page_800] (exportPayloadHighlights st)
       = Some calls
       /\ ExportPdf.POST (fun _ => Some [page_800])
            {| ExportPdf.pdfData := Some (str "JVBERi0xLjQK");
               ExportPdf.highlights := Some (exportPayloadHighlights st) |}
          = ExportPdf.Pdf calls.
Proof.
  intros st. split; [exact capture_before_load_brings_none|].
  destruct (editor_export_payload_never_throws capture_before_load
              [page_800] capture_before_load_brings_none)
    as (calls & Hc & _ & Hp).
  exists calls. split; [exact Hc|].
  apply Hp; [discriminate|reflexivity].
Defined.

Lemma lastIndexFrom_spec c s :
  forall i found,
    (found < i)%Z ->
    let r := lastIndexFrom c s i found in
    (r = found /\ ~ In c s)
    \/ ((i <= r < i + Z.of_nat (length s))%Z
        /\ In c s
        /\ ~ In c (skipn (Z.to_nat (r - i) + 1) s)).
Proof.
  induction s as [|d s IH]; intros i found Hlt; simpl.
  - left. split; [reflexivity|intros []].
  - destruct (N.eqb_spec d c) as [->|Hne].
    + destruct (IH (i + 1)%Z i ltac:(lia)) as [[Hr Hn]|(Hr & _ & Hn)].
      * right. rewrite Hr. split; [lia|]. split; [now left|].
        replace (Z.to_nat (i - i) + 1)%nat with 1%nat by lia. exact Hn.
      * right. split; [lia|]. split; [now left|].
        replace (Z.to_nat (lastIndexFrom c s (i + 1) i - i) + 1)%nat
          with (S (Z.to_nat (lastIndexFrom c s (i + 1) i - (i + 1)) + 1))
          by lia.
        exact Hn.
    + destruct (IH (i + 1)%Z found ltac:(lia)) as [[Hr Hn]|(Hr & Hin & Hn)].
      * left. split; [exact Hr|]. intros [E|Hin]; [congruence|tauto].
      * right. split; [lia|]. split; [now right|].
        replace (Z.to_nat (lastIndexFrom c s (i + 1) found - i) + 1)%nat
          with (S (Z.to_nat (lastIndexFrom c s (i + 1) found - (i + 1)) + 1))
          by lia.
        exact Hn.
Qed.

Lemma after_last_has_none c s :
  ~ In c (substring s (lastIndexOf c s + 1)).
Proof.
  unfold substring, lastIndexOf.
  destruct (lastIndexFrom_spec c s 0 (-1) ltac:(lia))
    as [[Hr Hn]|(Hr & _ & Hn)].
  - rewrite Hr. exact Hn.
  - replace (Z.to_nat (Z.max 0 (lastIndexFrom c s 0 (-1) + 1)))
      with (Z.to_nat (lastIndexFrom c s 0 (-1) - 0) + 1)%nat by lia.
    exact Hn.
Qed.

Lemma after_last_whole c s :
  ~ In c s -> substring s (lastIndexOf c s + 1) = s.
Proof.
  intros Hno. unfold substring, lastIndexOf.
  destruct (lastIndexFrom_spec c s 0 (-1) ltac:(lia))
    as [[Hr _]|(_ & Hin & _)]; [|contradiction].
  rewrite Hr. reflexivity.
Qed.

Lemma lastIndexFrom_absent c s :
  forall i found, ~ In c s -> lastIndexFrom c s i found = found.
Proof.
  induction s as [|d s IH]; intros i found Hn; simpl; [reflexivity|].
  destruct (N.eqb_spec d c) as [->|_].
  - exfalso. apply Hn. now left.
  - apply IH. intros H. apply Hn. now right.
Qed.

(** The last occurrence of [c] is the one that no [c] follows. *)
Lemma lastIndexFrom_last c pre tail :
  forall i found,
    ~ In c tail ->
    lastIndexFrom c (pre ++ c :: tail) i found
    = (i + Z.of_nat (length pre))%Z.
Proof.
  induction pre as [|d pre IH]; intros i found Hn; simpl.
  - rewrite N.eqb_refl, lastIndexFrom_absent by exact Hn. lia.
  - rewrite IH by exact Hn. lia.
Qed.

Lemma after_last_is_tail c pre tail :
  ~ In c tail ->
  substring (pre ++ c :: tail) (lastIndexOf c (pre ++ c :: tail) + 1) = tail.
Proof.
  intros Hn. unfold substring, lastIndexOf.
  rewrite lastIndexFrom_last by exact Hn.
  replace (Z.to_nat (Z.max 0 (0 + Z.of_nat (length pre) + 1)))
    with (length pre + 1)%nat by lia.
  rewrite skipn_app, skipn_all2 by lia.
  replace (length pre + 1 - length pre)%nat with 1%nat by lia.
  reflexivity.
Qed.

(** X13.  For a document opened from a URL the file name offered for the
    export is the part of the URL after its last slash, the whole URL
    when it has no slash, and [downloaded.pdf] when that part is empty;
    so it is never empty and contains no slash. *)
Theorem url_file_name_is_part_after_last_slash :
  forall url,
    let name := originalFilename (FromUrl url) in
    (forall pre tail,
        url = pre ++ chr "/" :: tail -> ~ In (chr "/") tail ->
        name = match tail with
               | [] => str "downloaded.pdf"
               | _ :: _ => tail
               end)
    /\ (~ In (chr "/") url ->
        name = match url with
               | [] => str "downloaded.pdf"
               | _ :: _ => url
               end)
    /\ name <> []
    /\ ~ In (chr "/") name.
Proof.
  intros url name. unfold name, originalFilename.
  split.
  { intros pre tail -> Hn. rewrite after_last_is_tail by exact Hn.
    now destruct tail. }
  split.
  { intros Hn. rewrite after_last_whole by exact Hn. now destruct url. }
  pose proof (after_last_has_none (chr "/") url) as Hn.
  destruct (substring url (lastIndexOf (chr "/") url + 1)) as [|c rest].
  - split; [discriminate|]. vm_compute. intuition discriminate.
  - split; [discriminate|exact Hn].
Qed.

Lemma url_file_name_is_part_after_last_slash_witness :
  managed_url = str "https://files.example" ++ chr "/" :: str "report.pdf"
  /\ ~ In (chr "/") (str "report.pdf")
  /\ originalFilename (FromUrl managed_url) = str "report.pdf".
Proof.
  assert (H1 : managed_url
               = str "https://files.example" ++ chr "/" :: str "report.pdf")
    by reflexivity.
  assert (H2 : ~ In (chr "/") (str "report.pdf"))
    by (vm_compute; intuition discriminate).
  split; [exact H1|]. split; [exact H2|].
  exact (proj1 (url_file_name_is_part_after_last_slash managed_url)
           (str "https://files.example") (str "report.pdf") H1 H2).
Defined.

Example url_file_names :
  originalFilename (FromUrl managed_url) = str "report.pdf"
  /\ originalFilename (FromUrl (str "https://files.example/docs/"))
     = str "downloaded.pdf"
  /\ downloadName (FromUrl managed_url) = str "report_highlighted.pdf"
  /\ downloadName (LocalFile (str "Thesis.PDF"))
     = str "Thesis_highlighted.pdf"
  /\ downloadName (LocalFile (str "notes.pdf.txt"))
     = str "notes.pdf.txt_highlighted.pdf".
Proof. repeat split; reflexivity. Qed.

Lemma pdfSuffix_length t : pdfSuffixHere t = true -> length t = 4%nat.
Proof.
  destruct t as [|a [|b [|c [|d [|e t]]]]]; simpl; try discriminate.
  reflexivity.
Qed.

Lemma replacePdfSuffix_cons c n :
  replacePdfSuffix (c :: n)
  = if pdfSuffixHere (c :: n) then [] else c :: replacePdfSuffix n.
Proof. reflexivity. Qed.

Lemma replace_strips base ext :
  pdfSuffixHere ext = true -> replacePdfSuffix (base ++ ext) = base.
Proof.
  intros He. induction base as [|c base IH].
  - simpl. destruct ext as [|e ext]; [discriminate He|].
    rewrite replacePdfSuffix_cons. now rewrite He.
  - change ((c :: base) ++ ext) with (c :: base ++ ext).
    rewrite replacePdfSuffix_cons, IH.
    destruct (pdfSuffixHere (c :: base ++ ext)) eqn:E; [|reflexivity].
    apply pdfSuffix_length in E, He. simpl in E.
    rewrite length_app in E. lia.
Qed.

Lemma replace_keeps n :
  (forall base ext, n = base ++ ext -> pdfSuffixHere ext = false) ->
  replacePdfSuffix n = n.
Proof.
  induction n as [|c n IH]; intros H; [reflexivity|].
  rewrite replacePdfSuffix_cons, (H [] (c :: n) eq_refl). f_equal.
  apply IH. intros base ext E. apply (H (c :: base) ext). now rewrite E.
Qed.

(** X14.  The name under which the exported file is saved is the original
    name without a final [.pdf], in any mix of upper and lower case,
    followed by [_highlighted.pdf]; a name that does not end in [.pdf] is
    kept whole in front of [_highlighted.pdf]. *)
Theorem download_name_replaces_pdf_suffix :
  forall file,
    (forall base ext,
        originalFilename file = base ++ ext -> pdfSuffixHere ext = true ->
        downloadName file = base ++ str "_highlighted.pdf")
    /\ ((forall base ext,
            originalFilename file = base ++ ext -> pdfSuffixHere ext = false) ->
        downloadName file = originalFilename file ++ str "_highlighted.pdf").
Proof.
  intros file. unfold downloadName. split.
  - intros base ext E He. now rewrite E, replace_strips.
  - intros H. now rewrite replace_keeps.
Qed.

Lemma download_name_replaces_pdf_suffix_witness :
  downloadName (LocalFile (str "Thesis.PDF")) = str "Thesis_highlighted.pdf".
Proof.
  exact (proj1 (download_name_replaces_pdf_suffix
                  (LocalFile (str "Thesis.PDF")))
           (str "Thesis") (str ".PDF") eq_refl eq_refl).
Defined.

End RequestFacts.

(** ** The sync route: failures, other documents, loading *)

Module SyncMoreFacts.

Import Js Sync Spec Samples.

Lemma rowsFor_other pdfId other hs :
  other <> pdfId ->
  List.filter (rowOf other) (rowsFor pdfId hs) = [].
Proof.
  intros Hne. unfold rowsFor, rowOf.
  induction hs as [|h hs IH]; simpl; [reflexivity|].
  rewrite bool_decide_eq_false_2 by congruence. exact IH.
Qed.

Lemma filter_other_kept pdfId other (rows : list Row) :
  other <> pdfId ->
  List.filter (rowOf other)
    (List.filter (fun r => negb (rowOf pdfId r)) rows)
  = List.filter (rowOf other) rows.
Proof.
  intros Hne. unfold rowOf.
  induction rows as [|r rows IH]; simpl; [reflexivity|].
  destruct (decide (row_pdf_id r = pdfId)) as [E|E].
  - rewrite (bool_decide_eq_true_2 _ E). simpl.
    rewrite (bool_decide_eq_false_2 (row_pdf_id r = other)) by congruence.
    exact IH.
  - rewrite (bool_decide_eq_false_2 _ E). simpl. now rewrite IH.
Qed.

(** X15.  How the sync route fails.  A request refused with 400 issues no
    call and leaves the store as it was.  When the delete reports an
    error the answer is 500, the table is unchanged and no insert is
    issued.  When the delete succeeds and the insert then reports an
    error the answer is 500 and the document is left with no row at all:
    its previous highlights are gone and the new ones are not stored. *)
Theorem sync_failure_modes :
  forall b env db,
    let result := POST (Some b) env db in
    (status (fst result) = 400%Z -> snd result = db)
    /\ (forall id hs,
          pdfId b = Some id -> id <> [] -> highlights b = Some hs ->
          (deleteError env <> None ->
           status (fst result) = 500%Z
           /\ table (snd result) = table db
           /\ calls (snd result) = calls db ++ [DeleteEq id])
          /\ (deleteError env = None -> insertError env <> None ->
              hs <> [] ->
              status (fst result) = 500%Z
              /\ rowsOf id (snd result) = []
              /\ table (snd result)
                 = List.filter (fun r => negb (rowOf id r)) (table db)
              /\ calls (snd result)
                 = calls db ++ [DeleteEq id; Insert (rowsFor id hs)])).
Proof.
  intros b env db result. unfold result, POST. split.
  - destruct (pdfId b) as [[|c rest]|]; try reflexivity;
      destruct (highlights b) as [hs|]; try reflexivity.
    unfold delete_eq. destruct (deleteError env); [simpl; discriminate|].
    destruct (0 <? length hs)%nat; [|simpl; discriminate].
    unfold insert. destruct (insertError env); simpl; discriminate.
  - intros id hs Hid Hne Hhs. rewrite Hid, Hhs.
    destruct id as [|c rest]; [congruence|].
    unfold delete_eq. split.
    + intros Hd. destruct (deleteError env); [|congruence].
      repeat split.
    + intros Hd Hi Hnil. rewrite Hd.
      destruct hs as [|h hs]; [congruence|]. cbn [length Nat.ltb Nat.leb].
      unfold insert. destruct (insertError env); [|congruence].
      cbn [fst snd status table calls].
      split; [reflexivity|]. split.
      * unfold rowsOf. cbn [table]. apply SyncFacts.filter_others_of_owned.
      * split; [reflexivity|]. now rewrite <- app_assoc.
Qed.

Lemma sync_failure_modes_witness :
  status (fst (POST (Some sync_body) failing_insert stored)) = 500%Z
  /\ rowsOf managed_id (snd (POST (Some sync_body) failing_insert stored))
     = [].
Proof.
  destruct (proj2 (proj2 (sync_failure_modes sync_body failing_insert stored)
                     managed_id _ eq_refl SyncFacts.managed_id_not_empty
                     eq_refl)
              eq_refl) as (H1 & H2 & _).
  - discriminate.
  - discriminate.
  - split; [exact H1|exact H2].
Defined.

(** X16.  Whatever the request and whatever the store answers, a sync
    leaves the rows of every document other than the one it names exactly
    as they were. *)
Theorem sync_leaves_other_documents :
  forall body env db other,
    (forall b, body = Some b -> pdfId b <> Some other) ->
    rowsOf other (snd (POST body env db)) = rowsOf other db.
Proof.
  intros body env db other Hother. unfold POST.
  destruct body as [b|]; [|reflexivity].
  specialize (Hother b eq_refl).
  destruct (pdfId b) as [[|c rest]|]; try reflexivity;
    destruct (highlights b) as [hs|]; try reflexivity.
  assert (Hne : other <> c :: rest) by congruence.
  unfold delete_eq. destruct (deleteError env); [reflexivity|].
  destruct (0 <? length hs)%nat.
  - unfold insert. destruct (insertError env); unfold rowsOf; simpl.
    + now apply filter_other_kept.
    + rewrite List.filter_app, filter_other_kept by exact Hne.
      pose proof (rowsFor_other (c :: rest) other hs Hne) as Hr.
      unfold rowsFor in Hr. rewrite Hr. apply app_nil_r.
  - unfold rowsOf. simpl. now apply filter_other_kept.
Qed.

Lemma sync_leaves_other_documents_witness :
  rowsOf (str "other") (snd (POST (Some sync_body) noErrors stored))
  = rowsOf (str "other") stored.
Proof.
  apply sync_leaves_other_documents.
  intros b Hb. injection Hb as <-. discriminate.
Defined.

(** X17.  Loading after a sync that was answered 200 returns, with status
    200, exactly the rows written for the request's highlights, in
    whatever order the store returns them; loading a document that has no
    row returns status 200 and the empty list, not an error; a load
    without a document id is refused with 400; a failing select is
    answered 500. *)
Theorem load_returns_what_sync_stored :
  (forall arrange b env db id hs,
      reorders arrange ->
      pdfId b = Some id -> highlights b = Some hs ->
      status (fst (POST (Some b) env db)) = 200%Z ->
      exists rows,
        GET (Some id) None arrange (snd (POST (Some b) env db))
        = {| load_status := 200; load_highlights := Some rows |}
        /\ Permutation rows (rowsFor id hs))
  /\ (forall arrange id db,
        reorders arrange ->
        id <> [] -> rowsOf id db = [] ->
        GET (Some id) None arrange db
        = {| load_status := 200; load_highlights := Some [] |})
  /\ (forall arrange err db,
        load_status (GET None err arrange db) = 400%Z
        /\ load_status (GET (Some []) err arrange db) = 400%Z)
  /\ (forall arrange id e db,
        id <> [] -> load_status (GET (Some id) (Some e) arrange db) = 500%Z).
Proof.
  split.
  { intros arrange b env db id hs Harr Hid Hhs Hok.
    destruct (SyncFacts.POST_ok b env db Hok)
      as (i & hs' & Hi & Hid' & Hhs' & T).
    assert (i = id) by congruence. assert (hs' = hs) by congruence.
    subst i hs'.
    destruct (RequestFacts.GET_reordered arrange id
                (snd (POST (Some b) env db)) Harr Hi) as (rows & HG & HP).
    exists rows. split; [exact HG|].
    unfold rowsOf in HP. rewrite T in HP.
    now rewrite RequestFacts.rowsOf_after_sync in HP. }
  split.
  { intros arrange id db Harr Hne Hrows.
    destruct (RequestFacts.GET_reordered arrange id db Harr Hne)
      as (rows & HG & HP).
    rewrite Hrows in HP. apply Permutation_sym, Permutation_nil in HP.
    now subst rows. }
  split; [intros arrange err db; split; reflexivity|].
  intros arrange id e db Hne. destruct id; [congruence|reflexivity].
Qed.

Lemma load_returns_what_sync_stored_witness :
  reorders (@rev Row)
  /\ exists rows,
       GET (Some managed_id) None (@rev Row)
         (snd (POST (Some sync_body) noErrors stored))
       = {| load_status := 200; load_highlights := Some rows |}
       /\ Permutation rows
            (rowsFor managed_id (default [] (highlights sync_body))).
Proof.
  split; [exact RequestFacts.reorders_rev|].
  exact (proj1 load_returns_what_sync_stored (@rev Row) sync_body noErrors
           stored managed_id _ RequestFacts.reorders_rev eq_refl eq_refl
           eq_refl).
Defined.

End SyncMoreFacts.

(** ** The export route: skipped highlights, fallbacks, order *)

Module ExportMoreFacts.

Import Js ExportPdf Spec Samples.

(** X18.  An export whose highlights all have a page number that is at
    most 0 or above the page count, in particular an export with no
    highlight at all, completes and draws nothing; a request without PDF
    data or without the highlights member is refused with 400 before the
    document is loaded. *)
Theorem export_of_skipped_highlights_draws_nothing :
  (forall pages hs,
      Forall (fun h => pageNumber h <= 0
                       \/ inject_Z (Z.of_nat (length pages)) < pageNumber h)
             hs ->
      drawHighlights pages hs = Some []
      /\ forall load data,
           data <> [] -> load data = Some pages ->
           POST load {| pdfData := Some data; highlights := Some hs |}
           = Pdf [])
  /\ (forall load body,
        pdfData body = None \/ pdfData body = Some []
        \/ highlights body = None ->
        POST load body = Json 400 "Missing pdfData or highlights").
Proof.
  split.
  - intros pages hs Hall.
    assert (Hd : drawHighlights pages hs = Some []).
    { induction Hall as [|h hs Hh Hall IH]; simpl; [reflexivity|].
      now rewrite (ExportFacts.drawHighlight_skips pages h Hh), IH. }
    split; [exact Hd|].
    intros load data Hne Hl. unfold POST. simpl.
    destruct data as [|c data]; [congruence|]. now rewrite Hl, Hd.
  - intros load body H. unfold POST.
    destruct (pdfData body) as [[|c data]|]; try reflexivity.
    destruct (highlights body); [|reflexivity].
    destruct H as [H|[H|H]]; discriminate H.
Qed.

Lemma export_of_skipped_highlights_draws_nothing_witness :
  drawHighlights [page_800] [on_page 0; on_page 2; on_page (-3)] = Some [].
Proof.
  apply (proj1 export_of_skipped_highlights_draws_nothing).
  constructor; [left; vm_compute; discriminate|].
  constructor; [right; vm_compute; reflexivity|].
  constructor; [left; vm_compute; discriminate|].
  constructor.
Defined.

Lemma no_match_without_r (s : jsstring) :
  ~ In (chr "r") s -> regex_match colorPattern s = None.
Proof.
  rewrite ExportFacts.colorPattern_unfold.
  induction s as [|c s IH]; intros Hn; [reflexivity|].
  cbn [regex_match exec_at].
  destruct (N.eqb_spec 114 c) as [<-|_].
  - exfalso. apply Hn. now left.
  - apply IH. intros H. apply Hn. now right.
Qed.

(** X20.  A colour string that does not contain the letter [r], such as a
    hexadecimal colour or most colour names, is drawn as the default
    yellow at opacity 0.3. *)
Theorem colour_without_r_falls_back :
  forall c,
    ~ In (chr "r") c -> resolveColor (Some c) = Some (yellow, Num 0.3).
Proof.
  intros c Hn. apply ExportFacts.resolveColor_fallback.
  right. right. exists c. split; [reflexivity|].
  now apply no_match_without_r.
Qed.

Lemma colour_without_r_falls_back_witness :
  ~ In (chr "r") (str "#ffcc00")
  /\ resolveColor (Some (str "#ffcc00")) = Some (yellow, Num 0.3).
Proof.
  assert (H : ~ In (chr "r") (str "#ffcc00"))
    by (vm_compute; intuition discriminate).
  split; [exact H|exact (colour_without_r_falls_back _ H)].
Defined.

(** X21.  The export loop works through the highlights in order: the
    calls for a list followed by another are the calls for the first
    followed by the calls for the second, so later highlights are painted
    over earlier ones, and the loop throws as soon as either part does. *)
Theorem export_loop_concatenates :
  forall pages hs1 hs2,
    drawHighlights pages (hs1 ++ hs2)
    = match drawHighlights pages hs1, drawHighlights pages hs2 with
      | Some calls1, Some calls2 => Some (calls1 ++ calls2)
      | _, _ => None
      end.
Proof.
  intros pages hs1 hs2. induction hs1 as [|h hs1 IH]; simpl.
  - now destruct (drawHighlights pages hs2).
  - destruct (drawHighlight pages h) as [calls|]; [|reflexivity].
    rewrite IH.
    destruct (drawHighlights pages hs1) as [calls1|]; [|reflexivity].
    destruct (drawHighlights pages hs2) as [calls2|]; [|reflexivity].
    now rewrite app_assoc.
Qed.

End ExportMoreFacts.

(** ** Upload and delete *)

Module FilesFacts.

Import Js Files Spec Samples.

Lemma stores_eta s :
  {| highlights := highlights s; blobs := blobs s; pdfs := pdfs s |} = s.
Proof. now destruct s. Qed.

Lemma filter_all {A : Type} (f : A -> bool) (l : list A) :
  (forall x, In x l -> f x = true) -> List.filter f l = l.
Proof.
  induction l as [|x l IH]; simpl; intros H; [reflexivity|].
  rewrite (H x (or_introl eq_refl)). f_equal. apply IH. auto.
Qed.

Lemma filter_none_all {A : Type} (f : A -> bool) (l : list A) :
  List.filter f l = [] -> List.filter (fun x => negb (f x)) l = l.
Proof.
  intros H. apply filter_all. intros x Hx.
  destruct (f x) eqn:E; [|reflexivity].
  assert (Hin : In x (List.filter f l)) by (apply filter_In; auto).
  rewrite H in Hin. destruct Hin.
Qed.

Lemma absent_path key (paths : list jsstring) :
  existsb (isPath key) paths = false ->
  ~ In key paths
  /\ List.filter (fun p => negb (isPath key p)) (paths ++ [key]) = paths.
Proof.
  intros H.
  assert (Hn : ~ In key paths).
  { intros Hin. apply not_true_iff_false in H. apply H.
    apply existsb_exists. exists key. split; [exact Hin|].
    unfold isPath. now apply bool_decide_eq_true_2. }
  split; [exact Hn|].
  rewrite List.filter_app. simpl. unfold isPath at 2.
  rewrite bool_decide_eq_true_2 by reflexivity. simpl. rewrite app_nil_r.
  apply filter_all. intros p Hp. unfold isPath.
  rewrite bool_decide_eq_false_2; [reflexivity|congruence].
Qed.

(** X22.  An upload that is not answered 201 leaves the bucket and both
    tables exactly as they were, provided the roll-back removal works: a
    missing file or a file that is not a PDF is refused with 400 before
    anything is stored, a failed storage upload stores nothing, and after a
    failed metadata insert the blob just uploaded is removed again.  When
    that removal itself fails, which the route does not check, the blob
    stays in the bucket without a record. *)
Theorem failed_upload_leaves_no_trace :
  forall form env s,
    let result := POST form env s in
    (fst (fst result) <> 201%Z -> rollbackError env = None ->
     snd result = s)
    /\ (forall pdfFile,
          form = Some (Some pdfFile) ->
          type pdfFile = str "application/pdf" ->
          ~ In (storageFileName (now env) pdfFile) (blobs s) ->
          storageError env = None -> dbError env <> None ->
          rollbackError env <> None ->
          fst (fst result) = 500%Z
          /\ blobs (snd result)
             = blobs s ++ [storageFileName (now env) pdfFile]
          /\ pdfs (snd result) = pdfs s).
Proof.
  intros form env s result. unfold result, POST. split.
  - intros Hst Hrb. revert Hst.
    destruct form as [[pdfFile|]|]; try reflexivity.
    destruct (negb (bool_decide (type pdfFile = str "application/pdf")));
      [reflexivity|].
    unfold uploadBlob.
    destruct (existsb (isPath (storageFileName (now env) pdfFile)) (blobs s))
      eqn:Ex; [reflexivity|].
    destruct (storageError env); [reflexivity|]. simpl.
    unfold insertRecord. destruct (dbError env); simpl.
    + intros _. rewrite Hrb. unfold removeBlob. simpl.
      rewrite (proj2 (absent_path _ _ Ex)). apply stores_eta.
    + intros Hst. congruence.
  - intros pdfFile -> Hty Hfree Hse Hdb Hrb.
    rewrite bool_decide_eq_true_2 by exact Hty. simpl.
    unfold uploadBlob.
    destruct (existsb (isPath (storageFileName (now env) pdfFile)) (blobs s))
      eqn:Ex.
    { exfalso. apply existsb_exists in Ex as [p [Hp Hk]].
      unfold isPath in Hk. apply bool_decide_eq_true_1 in Hk. congruence. }
    rewrite Hse. simpl. unfold insertRecord.
    destruct (dbError env); [|congruence]. simpl.
    destruct (rollbackError env); [|congruence]. repeat split.
Qed.

Lemma failed_upload_leaves_no_trace_witness :
  fst (fst (POST (Some (Some thesis_file)) upload_db_fails file_stores))
  <> 201%Z
  /\ snd (POST (Some (Some thesis_file)) upload_db_fails file_stores)
     = file_stores.
Proof.
  assert (H : fst (fst (POST (Some (Some thesis_file)) upload_db_fails
                          file_stores)) <> 201%Z) by discriminate.
  split; [exact H|].
  exact (proj1 (failed_upload_leaves_no_trace (Some (Some thesis_file))
                  upload_db_fails file_stores) H eq_refl).
Defined.

(** X23.  An upload answered 201 was of a PDF; its record carries the file
    name as given and, as storage path, the key made of the clock text, a
    hyphen and the sanitised name; that key was not in the bucket before
    and is in it now; the record is appended to the [pdfs] table and the
    highlights are untouched. *)
Theorem successful_upload_stores_blob_and_record :
  forall form env s,
    let result := POST form env s in
    fst (fst result) = 201%Z ->
    exists pdfFile r,
      form = Some (Some pdfFile)
      /\ snd (fst result) = Some r
      /\ type pdfFile = str "application/pdf"
      /\ rec_id r = newRecordId env
      /\ rec_filename r = name pdfFile
      /\ rec_storage_object_path r = storageFileName (now env) pdfFile
      /\ ~ In (rec_storage_object_path r) (blobs s)
      /\ blobs (snd result) = blobs s ++ [rec_storage_object_path r]
      /\ pdfs (snd result) = pdfs s ++ [r]
      /\ highlights (snd result) = highlights s.
Proof.
  intros form env s result. unfold result, POST.
  destruct form as [[pdfFile|]|]; try discriminate.
  destruct (decide (type pdfFile = str "application/pdf")) as [Hty|Hty].
  2:{ rewrite bool_decide_eq_false_2 by exact Hty. discriminate. }
  rewrite bool_decide_eq_true_2 by exact Hty. simpl.
  unfold uploadBlob.
  destruct (existsb (isPath (storageFileName (now env) pdfFile)) (blobs s))
    eqn:Ex; [discriminate|].
  destruct (storageError env); [discriminate|]. simpl.
  unfold insertRecord. destruct (dbError env); [discriminate|]. simpl.
  intros _. eexists. eexists. repeat split; try reflexivity; try assumption.
  simpl. apply (absent_path _ _ Ex).
Qed.

Lemma successful_upload_stores_blob_and_record_witness :
  fst (fst (POST (Some (Some thesis_file)) upload_ok file_stores)) = 201%Z
  /\ exists r,
       snd (fst (POST (Some (Some thesis_file)) upload_ok file_stores))
       = Some r
       /\ rec_storage_object_path r
          = str "1762000000000-my_thesis_draft.pdf".
Proof.
  split; [reflexivity|].
  destruct (successful_upload_stores_blob_and_record
              (Some (Some thesis_file)) upload_ok file_stores eq_refl)
    as (f & r & Hf & Hr & _ & _ & _ & Hp & _).
  injection Hf as <-. exists r. split; [exact Hr|]. rewrite Hp. reflexivity.
Defined.

Lemma replaceSpaces_clean inRun n :
  Forall (fun c => isSpace c = false) (replaceSpaces inRun n).
Proof.
  revert inRun. induction n as [|c n IH]; intros inRun; simpl.
  - constructor.
  - destruct (isSpace c) eqn:E.
    + destruct inRun; [apply IH|]. constructor; [reflexivity|apply IH].
    + constructor; [exact E|apply IH].
Qed.

Lemma replaceSpaces_id inRun n :
  Forall (fun c => isSpace c = false) n -> replaceSpaces inRun n = n.
Proof.
  intros H. revert inRun. induction H as [|c n Hc Hn IH]; intros inRun; simpl.
  - reflexivity.
  - rewrite Hc. f_equal. apply IH.
Qed.

Lemma replaceSpaces_length inRun n :
  (length (replaceSpaces inRun n) <= length n)%nat.
Proof.
  revert inRun. induction n as [|c n IH]; intros inRun; simpl; [lia|].
  destruct (isSpace c).
  - destruct inRun; simpl.
    + specialize (IH true). lia.
    + specialize (IH true). lia.
  - simpl. specialize (IH false). lia.
Qed.

(** X24.  The sanitised file name in a storage key contains no white
    space and is never longer than the name; a name without white space is
    kept as it is; so with a clock text free of white space the whole key
    is. *)
Theorem storage_key_has_no_white_space :
  forall now pdfFile,
    Forall (fun c => isSpace c = false) (replaceSpaces false (name pdfFile))
    /\ (length (replaceSpaces false (name pdfFile))
        <= length (name pdfFile))%nat
    /\ (Forall (fun c => isSpace c = false) (name pdfFile) ->
        storageFileName now pdfFile = now ++ str "-" ++ name pdfFile)
    /\ (Forall (fun c => isSpace c = false) now ->
        Forall (fun c => isSpace c = false) (storageFileName now pdfFile)).
Proof.
  intros now pdfFile.
  split; [apply replaceSpaces_clean|].
  split; [apply replaceSpaces_length|].
  split.
  - intros H. unfold storageFileName. now rewrite replaceSpaces_id.
  - intros H. unfold storageFileName.
    apply Forall_app. split; [exact H|].
    apply Forall_app. split; [repeat constructor|apply replaceSpaces_clean].
Qed.

Lemma clock_text_clean :
  Forall (fun c => isSpace c = false) (str "1762000000000").
Proof. repeat constructor. Qed.

Lemma storage_key_has_no_white_space_witness :
  Forall (fun c => isSpace c = false)
         (storageFileName (str "1762000000000") thesis_file).
Proof.
  exact (proj2 (proj2 (proj2 (storage_key_has_no_white_space
                                (str "1762000000000") thesis_file)))
           clock_text_clean).
Defined.

Lemma DELETE_valid c id d path env s :
  DELETE (Parsed (Some (c :: id)) (Some (d :: path))) env s
  = (match dbDeleteError env with
     | Some _ => 500%Z
     | None => 200%Z
     end,
     deleteRecord (c :: id) (dbDeleteError env)
       (removeBlob (d :: path) (storageDeleteError env)
          (deleteHighlights (c :: id) (highlightsDeleteError env) s))).
Proof. unfold DELETE. now destruct (dbDeleteError env). Qed.

Lemma not_in_filter_path path (paths : list jsstring) :
  ~ In path (List.filter (fun p => negb (isPath path p)) paths).
Proof.
  intros H. apply filter_In in H as [_ H]. unfold isPath in H.
  now rewrite bool_decide_eq_true_2 in H.
Qed.

(** X25.  A delete request with both members is best effort on the
    highlights and on the blob, and strict on the record: the answer is
    200 exactly when the record delete reports no error and 500
    otherwise, whatever the first two calls report.  Each call that
    reports no error has done its part: no highlight row of the document,
    no blob under the path, no record with the id.  So when only the
    record delete fails, the answer is 500 while highlights and blob are
    already gone and the record remains. *)
Theorem delete_is_best_effort_except_for_the_record :
  forall id path env s,
    id <> [] -> path <> [] ->
    let result := DELETE (Parsed (Some id) (Some path)) env s in
    (fst result = 200%Z <-> dbDeleteError env = None)
    /\ (fst result = 500%Z <-> dbDeleteError env <> None)
    /\ (highlightsDeleteError env = None ->
        List.filter (Sync.rowOf id) (highlights (snd result)) = [])
    /\ (storageDeleteError env = None -> ~ In path (blobs (snd result)))
    /\ (dbDeleteError env = None ->
        List.filter (isRecord id) (pdfs (snd result)) = [])
    /\ (dbDeleteError env <> None -> pdfs (snd result) = pdfs s).
Proof.
  intros id path env s Hid Hpath result. unfold result.
  destruct id as [|c id]; [congruence|].
  destruct path as [|d path]; [congruence|].
  rewrite DELETE_valid. cbn [fst snd].
  split; [destruct (dbDeleteError env); split; congruence|].
  split; [destruct (dbDeleteError env); split; congruence|].
  unfold deleteRecord, removeBlob, deleteHighlights.
  split.
  { intros ->.
    destruct (storageDeleteError env), (dbDeleteError env); simpl;
      apply SyncFacts.filter_others_of_owned. }
  split.
  { intros ->.
    destruct (highlightsDeleteError env), (dbDeleteError env); simpl;
      apply not_in_filter_path. }
  split.
  { intros ->.
    destruct (highlightsDeleteError env), (storageDeleteError env); simpl;
      apply SyncFacts.filter_others_of_owned. }
  intros Hdb. destruct (dbDeleteError env); [|congruence].
  destruct (highlightsDeleteError env), (storageDeleteError env); reflexivity.
Qed.

Lemma delete_is_best_effort_except_for_the_record_witness :
  let env := {| highlightsDeleteError := None;
                storageDeleteError := None;
                dbDeleteError := Some "locked"%string |} in
  let result := DELETE (Parsed (Some (str "other"))
                          (Some (str "1700000000000-old.pdf")))
                  env file_stores in
  fst result = 500%Z
  /\ highlights (snd result) = []
  /\ blobs (snd result) = []
  /\ pdfs (snd result) = pdfs file_stores.
Proof.
  intros env result.
  destruct (delete_is_best_effort_except_for_the_record (str "other")
              (str "1700000000000-old.pdf") env file_stores)
    as (_ & H500 & _ & _ & _ & Hrec).
  - discriminate.
  - discriminate.
  - split; [apply H500; discriminate|].
    split; [reflexivity|]. split; [reflexivity|].
    apply Hrec. discriminate.
Defined.

(** X26.  A delete request never touches what belongs to other documents:
    highlight rows of other ids, blobs under other paths and records of
    other ids are after the request what they were before; and a request
    that lacks a member, or whose body cannot be read, changes nothing at
    all. *)
Theorem delete_leaves_other_documents :
  forall body env s,
    let result := DELETE body env s in
    (forall id path other,
        body = Parsed (Some id) (Some path) -> other <> id ->
        List.filter (Sync.rowOf other) (highlights (snd result))
        = List.filter (Sync.rowOf other) (highlights s)
        /\ List.filter (isRecord other) (pdfs (snd result))
           = List.filter (isRecord other) (pdfs s))
    /\ (forall id path p,
          body = Parsed (Some id) (Some path) -> p <> path ->
          (In p (blobs (snd result)) <-> In p (blobs s)))
    /\ (fst result = 400%Z -> snd result = s)
    /\ (body = InvalidJson \/ body = Throws -> snd result = s).
Proof.
  intros body env s result. unfold result. split; [|split; [|split]].
  - intros id path other -> Hne. unfold DELETE.
    destruct id as [|c id]; [now split|].
    destruct path as [|d path]; [now split|].
    unfold deleteRecord, removeBlob, deleteHighlights.
    destruct (highlightsDeleteError env), (storageDeleteError env),
      (dbDeleteError env); simpl; split; try reflexivity;
      try (now apply SyncMoreFacts.filter_other_kept).
    all: unfold isRecord; clear -Hne;
      induction (pdfs s) as [|r rs IH]; simpl; [reflexivity|];
      destruct (decide (rec_id r = c :: id)) as [E|E];
      [ rewrite (bool_decide_eq_true_2 _ E); simpl;
        rewrite (bool_decide_eq_false_2 (rec_id r = other)) by congruence;
        exact IH
      | rewrite (bool_decide_eq_false_2 _ E); simpl; now rewrite IH ].
  - intros id path p -> Hne. unfold DELETE.
    destruct id as [|c id]; [reflexivity|].
    destruct path as [|d path]; [reflexivity|].
    unfold deleteRecord, removeBlob, deleteHighlights.
    destruct (highlightsDeleteError env), (storageDeleteError env),
      (dbDeleteError env); simpl; try reflexivity.
    all: rewrite filter_In; unfold isPath;
      rewrite bool_decide_eq_false_2 by congruence; simpl; tauto.
  - unfold DELETE. destruct body as [| |[[|c id]|] [[|d path]|]];
      try reflexivity; try discriminate.
    destruct (dbDeleteError env); discriminate.
  - intros [->| ->]; reflexivity.
Qed.

Lemma delete_leaves_other_documents_witness :
  snd (DELETE (Parsed (Some managed_id) None) delete_ok file_stores)
  = file_stores.
Proof.
  exact (proj1 (proj2 (proj2 (delete_leaves_other_documents
                                (Parsed (Some managed_id) None) delete_ok
                                file_stores))) eq_refl).
Defined.

Lemma storage_key_not_empty now pdfFile : storageFileName now pdfFile <> [].
Proof.
  unfold storageFileName. destruct now; discriminate.
Qed.

(** X27.  Uploading a file and then deleting it by the id and storage
    path of the upload's answer, with no call reporting an error, gives
    back the bucket and both tables exactly as they were before the
    upload, provided the id the database chose is not empty and was not
    yet used by a record or by highlight rows. *)
Theorem upload_then_delete_restores_stores :
  forall form env s r env',
    fst (fst (POST form env s)) = 201%Z ->
    snd (fst (POST form env s)) = Some r ->
    rec_id r <> [] ->
    List.filter (isRecord (rec_id r)) (pdfs s) = [] ->
    List.filter (Sync.rowOf (rec_id r)) (highlights s) = [] ->
    highlightsDeleteError env' = None ->
    storageDeleteError env' = None ->
    dbDeleteError env' = None ->
    DELETE (Parsed (Some (rec_id r)) (Some (rec_storage_object_path r)))
      env' (snd (POST form env s))
    = (200%Z, s).
Proof.
  intros form env s r env' H201 Hr Hid Hrec Hrows Hh Hs Hd.
  destruct (successful_upload_stores_blob_and_record form env s H201)
    as (f & r' & _ & Hr' & _ & _ & _ & Hp & Hfree & Hb & Hpd & Hhl).
  assert (r' = r) by congruence. subst r'.
  destruct (rec_id r) as [|c id] eqn:Eid; [congruence|].
  destruct (rec_storage_object_path r) as [|d path] eqn:Epath.
  { exfalso. symmetry in Hp. exact (storage_key_not_empty _ _ Hp). }
  rewrite DELETE_valid, Hh, Hs, Hd.
  unfold deleteRecord, removeBlob, deleteHighlights.
  cbn [highlights blobs pdfs].
  f_equal. rewrite Hhl, Hb, Hpd.
  rewrite (filter_none_all _ _ Hrows).
  assert (Hblob : List.filter (fun p => negb (isPath (d :: path) p))
                    (blobs s ++ [d :: path]) = blobs s).
  { rewrite List.filter_app. simpl. unfold isPath at 2.
    rewrite bool_decide_eq_true_2 by reflexivity. simpl. rewrite app_nil_r.
    apply filter_all. intros p Hin. unfold isPath.
    rewrite bool_decide_eq_false_2; [reflexivity|congruence]. }
  assert (Hpdfs : List.filter (fun x => negb (isRecord (c :: id) x))
                    (pdfs s ++ [r]) = pdfs s).
  { rewrite List.filter_app, (filter_none_all _ _ Hrec). simpl.
    unfold isRecord. rewrite bool_decide_eq_true_2 by exact Eid. simpl.
    apply app_nil_r. }
  transitivity {| highlights := highlights s; blobs := blobs s;
                  pdfs := pdfs s |}; [|apply stores_eta].
  f_equal; [exact Hblob|exact Hpdfs].
Qed.

Lemma upload_then_delete_restores_stores_witness :
  DELETE (Parsed (Some managed_id)
            (Some (str "1762000000000-my_thesis_draft.pdf")))
    delete_ok (snd (POST (Some (Some thesis_file)) upload_ok file_stores))
  = (200%Z, file_stores).
Proof.
  exact (upload_then_delete_restores_stores (Some (Some thesis_file))
           upload_ok file_stores _ delete_ok eq_refl eq_refl
           SyncFacts.managed_id_not_empty eq_refl eq_refl
           eq_refl eq_refl eq_refl).
Defined.

End FilesFacts.
